(** * A shallow embedding of the execution engine of the backtester
    (src/models.py and src/engine.py).

    Python floats are modelled as exact rationals [Q]; float equality
    [==] is [Qeq].  Python objects that the engine mutates through
    aliases (orders) live in a store indexed by object identity, and the
    engine's [open_orders] list holds references into that store, so that
    a status written through one reference is seen through every other.
    Exceptions are modelled by a state monad whose failure branch keeps
    the state reached when the exception was raised, as Python does. *)

From Stdlib Require Import Setoid Morphisms QArith Qminmax Qabs ZArith Lqa.
From stdpp Require Import base list strings pretty.

Open Scope Q_scope.

(** ** models.py *)

Inductive Side := LONG | SHORT | FLAT.
Inductive OrderType := MARKET | LIMIT | STOP | STOP_LIMIT.
Inductive Status := PENDING | FILLED | REJECTED | CANCELED.

Definition Side_eqb (a b : Side) : bool :=
  match a, b with
  | LONG, LONG | SHORT, SHORT | FLAT, FLAT => true
  | _, _ => false
  end.

Definition Status_eqb (a b : Status) : bool :=
  match a, b with
  | PENDING, PENDING | FILLED, FILLED | REJECTED, REJECTED
  | CANCELED, CANCELED => true
  | _, _ => false
  end.

(** Python comparisons and truthiness on floats and optional values. *)
Definition Qltb (x y : Q) : bool := negb (Qle_bool y x).
Definition Qleb (x y : Q) : bool := Qle_bool x y.
Definition Qeqb (x y : Q) : bool := Qeq_bool x y.

(** [bool(x)] for an [Optional[float]]: [None] and [0.0] are falsy. *)
Definition truthy (x : option Q) : bool :=
  match x with Some v => negb (Qeqb v 0) | None => false end.

(** [bool(s)] for an [Optional[str]]: [None] and [""] are falsy. *)
Definition truthy_str (s : option string) : bool :=
  match s with Some v => negb (String.eqb v "") | None => false end.

(** [x or y] on optional floats, as used for [stop_qty or ...]. *)
Definition or_else (x : option Q) (y : Q) : Q :=
  match x with Some v => if truthy x then v else y | None => y end.

Module Order.
(** The dataclass [Order]; [tags], [commission] and [swap] are never
    read by the engine and are left out. *)
Record t := mk {
  strategy_name : string;
  symbol : string;
  side : Side;
  order_type : OrderType;
  qty : Q;
  cash_amount : Q;
  price : option Q;
  stop_price : option Q;
  limit_price : option Q;
  stop_loss_pct : option Q;
  limit_pct : option Q;
  stop_qty : option Q;
  limit_qty : option Q;
  revenge : Q;
  parent_id : option string;
  group_id : option string;
  id : string;
  status : Status;
  created_at : option Z;
  filled_at : option Z;
  fill_price : Q
}.

(** [Order(strategy_name=.., symbol=.., side=.., order_type=.., ...)]
    with every other field at its default; [id] is the fresh uuid. *)
Definition make (strategy_name symbol : string) (side : Side)
    (order_type : OrderType) (qty : Q) (price : option Q)
    (group_id : option string) (id : string) : t :=
  mk strategy_name symbol side order_type qty 0 price None None None None
     None None 0 None group_id id PENDING None None 0.

Definition set_status (s : Status) (o : t) : t :=
  mk o.(strategy_name) o.(symbol) o.(side) o.(order_type) o.(qty)
     o.(cash_amount) o.(price) o.(stop_price) o.(limit_price)
     o.(stop_loss_pct) o.(limit_pct) o.(stop_qty) o.(limit_qty)
     o.(revenge) o.(parent_id) o.(group_id) o.(id) s o.(created_at)
     o.(filled_at) o.(fill_price).

Definition set_qty (q : Q) (o : t) : t :=
  mk o.(strategy_name) o.(symbol) o.(side) o.(order_type) q
     o.(cash_amount) o.(price) o.(stop_price) o.(limit_price)
     o.(stop_loss_pct) o.(limit_pct) o.(stop_qty) o.(limit_qty)
     o.(revenge) o.(parent_id) o.(group_id) o.(id) o.(status)
     o.(created_at) o.(filled_at) o.(fill_price).

Definition set_created_at (time : Z) (o : t) : t :=
  mk o.(strategy_name) o.(symbol) o.(side) o.(order_type) o.(qty)
     o.(cash_amount) o.(price) o.(stop_price) o.(limit_price)
     o.(stop_loss_pct) o.(limit_pct) o.(stop_qty) o.(limit_qty)
     o.(revenge) o.(parent_id) o.(group_id) o.(id) o.(status)
     (Some time) o.(filled_at) o.(fill_price).

(** [order.status = FILLED; order.filled_at = time;
     order.fill_price = price] *)
Definition set_filled (time : Z) (p : Q) (o : t) : t :=
  mk o.(strategy_name) o.(symbol) o.(side) o.(order_type) o.(qty)
     o.(cash_amount) o.(price) o.(stop_price) o.(limit_price)
     o.(stop_loss_pct) o.(limit_pct) o.(stop_qty) o.(limit_qty)
     o.(revenge) o.(parent_id) o.(group_id) o.(id) FILLED
     o.(created_at) (Some time) p.
End Order.

Inductive exc := ZeroDivisionError | ValueError | TypeError | KeyError.

(** [Order.__post_init__]: [inl e] when the constructor raises. *)
Definition post_init (o : Order.t) : exc + unit :=
  let k := o.(Order.order_type) in
  if (match k with LIMIT | STOP_LIMIT => true | _ => false end)
     && match o.(Order.price) with None => true | Some _ => false end
  then inl ValueError
  else if (match k with STOP | STOP_LIMIT => true | _ => false end)
     && match o.(Order.price) with None => true | Some _ => false end
  then inl ValueError
  else if Qleb o.(Order.qty) 0 && Qleb o.(Order.cash_amount) 0
  then inl ValueError
  else if Qltb 0 o.(Order.qty) && Qltb 0 o.(Order.cash_amount)
  then inl ValueError
  else if truthy o.(Order.stop_loss_pct) && truthy o.(Order.stop_price)
  then inl ValueError
  else if truthy o.(Order.limit_pct) && truthy o.(Order.limit_price)
  then inl ValueError
  else inr tt.

Module Trade.
Record t := mk {
  trade_id : string;
  order_id : string;
  symbol : string;
  side : Side;
  qty : Q;
  price : Q;
  commission : Q;
  time : Z;
  pnl : Q
}.
End Trade.

Module AssetVars.
Record t := mk {
  symbol : string;
  position_qty : Q;
  avg_entry_price : Q;
  last_price : Q;
  market_fee_bps : Q;
  limit_fee_bps : Q
}.

(** [AssetVars(symbol=s)] *)
Definition make (s : string) : t := mk s 0 0 0 0 0.

Definition set_last_price (p : Q) (a : t) : t :=
  mk a.(symbol) a.(position_qty) a.(avg_entry_price) p
     a.(market_fee_bps) a.(limit_fee_bps).

(** [asset.position_qty = q; asset.avg_entry_price = avg] *)
Definition set_position (q avg : Q) (a : t) : t :=
  mk a.(symbol) q avg a.(last_price) a.(market_fee_bps) a.(limit_fee_bps).

Definition set_qty (q : Q) (a : t) : t :=
  mk a.(symbol) q a.(avg_entry_price) a.(last_price)
     a.(market_fee_bps) a.(limit_fee_bps).
End AssetVars.

(** A row of the bar data frame: [row.name] is the timestamp. *)
Module Bar.
Record t := mk {
  name : Z;
  symbol : string;
  open : Q;
  high : Q;
  low : Q;
  close : Q
}.
End Bar.

(** ** engine.py: engine state *)

(** A Python dict [str -> AssetVars] as an association list in insertion
    order: assigning an existing key replaces it in place, a new key is
    appended. *)
Definition Portfolio := list (string * AssetVars.t).

Fixpoint dict_get (k : string) (d : Portfolio) : option AssetVars.t :=
  match d with
  | [] => None
  | (k', v) :: d' => if String.eqb k k' then Some v else dict_get k d'
  end.

Fixpoint dict_set (k : string) (v : AssetVars.t) (d : Portfolio) : Portfolio :=
  match d with
  | [] => [(k, v)]
  | (k', v') :: d' =>
      if String.eqb k k' then (k', v) :: d' else (k', v') :: dict_set k v d'
  end.

(** [ExecutionEngine]'s attributes.  [orders] is the heap of [Order]
    objects, indexed by object identity; [open_orders] is the list
    [self.open_orders] of references into it.  [uid] is the supply behind
    [uuid.uuid4()].  [leverage] and [last_bar] are never read and are left
    out. *)
Record ExecutionEngine := mkEngine {
  balance : Q;
  equity : Q;
  initial : Q;
  portfolio : Portfolio;
  margin : Q;
  orders : list Order.t;
  open_orders : list nat;
  fill_history : list Trade.t;
  equity_curve : list (Z * Q);
  uid : N
}.

(** [ExecutionEngine(initial_balance, portfolio, margin)] *)
Definition init (initial_balance : Q) (pf : Portfolio) (m : Q) : ExecutionEngine :=
  mkEngine initial_balance initial_balance initial_balance pf m [] [] [] [] 0.

Definition set_balance (b : Q) (st : ExecutionEngine) : ExecutionEngine :=
  mkEngine b st.(equity) st.(initial) st.(portfolio) st.(margin) st.(orders)
    st.(open_orders) st.(fill_history) st.(equity_curve) st.(uid).
Definition set_equity (e : Q) (st : ExecutionEngine) : ExecutionEngine :=
  mkEngine st.(balance) e st.(initial) st.(portfolio) st.(margin) st.(orders)
    st.(open_orders) st.(fill_history) st.(equity_curve) st.(uid).
Definition set_portfolio (p : Portfolio) (st : ExecutionEngine) : ExecutionEngine :=
  mkEngine st.(balance) st.(equity) st.(initial) p st.(margin) st.(orders)
    st.(open_orders) st.(fill_history) st.(equity_curve) st.(uid).
Definition set_orders (os : list Order.t) (st : ExecutionEngine) : ExecutionEngine :=
  mkEngine st.(balance) st.(equity) st.(initial) st.(portfolio) st.(margin) os
    st.(open_orders) st.(fill_history) st.(equity_curve) st.(uid).
Definition set_open_orders (l : list nat) (st : ExecutionEngine) : ExecutionEngine :=
  mkEngine st.(balance) st.(equity) st.(initial) st.(portfolio) st.(margin)
    st.(orders) l st.(fill_history) st.(equity_curve) st.(uid).
Definition set_fill_history (h : list Trade.t) (st : ExecutionEngine) : ExecutionEngine :=
  mkEngine st.(balance) st.(equity) st.(initial) st.(portfolio) st.(margin)
    st.(orders) st.(open_orders) h st.(equity_curve) st.(uid).
Definition set_equity_curve (c : list (Z * Q)) (st : ExecutionEngine) : ExecutionEngine :=
  mkEngine st.(balance) st.(equity) st.(initial) st.(portfolio) st.(margin)
    st.(orders) st.(open_orders) st.(fill_history) c st.(uid).
Definition set_uid (n : N) (st : ExecutionEngine) : ExecutionEngine :=
  mkEngine st.(balance) st.(equity) st.(initial) st.(portfolio) st.(margin)
    st.(orders) st.(open_orders) st.(fill_history) st.(equity_curve) n.

(** ** The engine monad: state passing with Python exceptions *)

Inductive result (A : Type) :=
| Ok (a : A) (st : ExecutionEngine)
| Raise (e : exc) (st : ExecutionEngine).
Arguments Ok {A} a st.
Arguments Raise {A} e st.

Definition M (A : Type) : Type := ExecutionEngine -> result A.

Global Instance M_ret : MRet M := fun A a st => Ok a st.
Global Instance M_bind : MBind M := fun A B f m st =>
  match m st with
  | Ok a st' => f a st'
  | Raise e st' => Raise e st'
  end.

Definition state_of {A} (r : result A) : ExecutionEngine :=
  match r with Ok _ st => st | Raise _ st => st end.

Definition get : M ExecutionEngine := fun st => Ok st st.
Definition modify (f : ExecutionEngine -> ExecutionEngine) : M unit :=
  fun st => Ok tt (f st).
Definition throw {A} (e : exc) : M A := fun st => Raise e st.

(** Python's float division [x / y]. *)
Definition pydiv (x y : Q) : M Q :=
  if Qeqb y 0 then throw ZeroDivisionError else mret (x / y).

(** [str(uuid.uuid4())[:8]]: a fresh identifier. *)
Definition fresh_uuid : M string := fun st =>
  Ok ("uuid-" +:+ pretty st.(uid)) (set_uid (st.(uid) + 1)%N st).

(** Dereference an order object; every reference in [open_orders] is
    allocated, so the [KeyError] branch is never taken. *)
Definition get_order (r : nat) : M Order.t := fun st =>
  match st.(orders) !! r with
  | Some o => Ok o st
  | None => Raise KeyError st
  end.

Definition put_order (r : nat) (o : Order.t) : M unit :=
  modify (fun st => set_orders (<[r:=o]> st.(orders)) st).

(** [self.portfolio[k]] *)
Definition get_asset (k : string) : M AssetVars.t := fun st =>
  match dict_get k st.(portfolio) with
  | Some a => Ok a st
  | None => Raise KeyError st
  end.

(** [self.portfolio[k] = a], and every in-place mutation of
    [self.portfolio[k]]'s attributes. *)
Definition put_asset (k : string) (a : AssetVars.t) : M unit :=
  modify (fun st => set_portfolio (dict_set k a st.(portfolio)) st).

(** [self.open_orders.append(o)] for a newly created order object. *)
Definition append_open_order (o : Order.t) : M unit :=
  modify (fun st =>
    set_open_orders (st.(open_orders) ++ [length st.(orders)])
      (set_orders (st.(orders) ++ [o]) st)).

(** ** [ExecutionEngine._check_fill] *)

(** The non-[MARKET] part of [_check_fill]: comparing a float with a
    missing price raises [TypeError]. *)
Definition trigger_fill (k : OrderType) (s : Side) (price : option Q)
    (open_p high_p low_p : Q) : exc + option Q :=
  match k, price with
  | MARKET, _ => inr (Some open_p)
  | LIMIT, Some p =>
      if Side_eqb s LONG && Qleb low_p p then inr (Some (Qmin open_p p))
      else if Side_eqb s SHORT && Qleb p high_p then inr (Some (Qmax open_p p))
      else inr None
  | STOP, Some p =>
      match s with
      | SHORT =>
          if Qltb open_p p then inr (Some open_p)
          else if Qleb low_p p then inr (Some p)
          else inr None
      | LONG =>
          if Qltb p open_p then inr (Some open_p)
          else if Qleb p high_p then inr (Some p)
          else inr None
      | FLAT => inr None
      end
  | (LIMIT | STOP), None =>
      match s with FLAT => inr None | _ => inl TypeError end
  | STOP_LIMIT, _ => inr None
  end.

Definition check_fill (r : nat) (open_p high_p low_p : Q) : M (option Q) :=
  order ← get_order r;
  match order.(Order.order_type) with
  | MARKET =>
      (if truthy (Some order.(Order.cash_amount)) then
         q ← pydiv order.(Order.cash_amount) open_p;
         put_order r (Order.set_qty q order)
       else mret tt) ;;
      mret (Some open_p)
  | k =>
      match trigger_fill k order.(Order.side) order.(Order.price)
              open_p high_p low_p with
      | inl e => throw e
      | inr p => mret p
      end
  end.

(** ** [ExecutionEngine._execute_fill] *)

Definition q_epsilon : Q := 1 # 1000000000.

(** [cast(float, x)] on an optional value known to be present. *)
Definition cast_float (x : option Q) : Q :=
  match x with Some v => v | None => 0 end.

Definition cast_str (x : option string) : string :=
  match x with Some v => v | None => "" end.

(** [Trade(trade_id=str(uuid.uuid4())[:8], order_id=order.id, ...)] *)
Definition mk_trade (order : Order.t) (s : Side) (q p c : Q) (time : Z)
    (pnl : Q) : M Trade.t :=
  tid ← fresh_uuid;
  mret (Trade.mk tid order.(Order.id) order.(Order.symbol) s q p c time pnl).

(** [fee = notional * (limit_fee_bps / 10000.0 if order_type == LIMIT
     else market_fee_bps / 10000.0)] *)
Definition fee_rate (order : Order.t) (asset : AssetVars.t) : Q :=
  match order.(Order.order_type) with
  | LIMIT => asset.(AssetVars.limit_fee_bps) / 10000
  | _ => asset.(AssetVars.market_fee_bps) / 10000
  end.

(** Lines 128-270 of [_execute_fill]: cash, position and the new trades. *)
Definition book_fill (order : Order.t) (price : Q) (time : Z)
    : M (list Trade.t) :=
  let k := order.(Order.symbol) in
  asset ← get_asset k;
  let q := order.(Order.qty) in
  let notional := q * price in
  let fee := notional * fee_rate order asset in
  let fee_per_share := if Qltb 0 q then fee / q else 0 in
  let pos := asset.(AssetVars.position_qty) in
  let avg := asset.(AssetVars.avg_entry_price) in
  match order.(Order.side) with
  | LONG =>
      modify (fun st => set_balance (st.(balance) - (notional + fee)) st) ;;
      if Qleb 0 pos then
        let new_qty := pos + q in
        let current_val := pos * avg in
        let fill_val := q * price in
        avg' ← pydiv (current_val + fill_val) new_qty;
        put_asset k (AssetVars.set_position new_qty avg' asset) ;;
        t ← mk_trade order LONG q price fee time 0;
        mret [t]
      else
        let qty_closing := Qmin (Qabs pos) q in
        let pnl := (avg - price) * qty_closing in
        let remaining_short := Qabs pos - q in
        t1 ← mk_trade order LONG qty_closing price
               (qty_closing * fee_per_share) time pnl;
        let remaining_short :=
          if Qltb (- q_epsilon) remaining_short && Qltb remaining_short q_epsilon
          then 0 else remaining_short in
        if Qltb remaining_short 0 then
          let asset' := AssetVars.set_position (Qabs remaining_short) price asset in
          put_asset k asset' ;;
          t2 ← mk_trade order LONG asset'.(AssetVars.position_qty) price
                 (asset'.(AssetVars.position_qty) * fee_per_share) time 0;
          mret [t1; t2]
        else if Qeqb remaining_short 0 then
          put_asset k (AssetVars.set_position 0 0 asset) ;;
          mret [t1]
        else
          put_asset k (AssetVars.set_qty (pos + q) asset) ;;
          mret [t1]
  | SHORT =>
      modify (fun st => set_balance (st.(balance) + (notional - fee)) st) ;;
      if Qleb pos 0 then
        let current_qty := Qabs pos in
        let fill_qty := q in
        let new_qty := current_qty + fill_qty in
        let current_val := current_qty * avg in
        let fill_val := fill_qty * price in
        avg' ← pydiv (current_val + fill_val) new_qty;
        put_asset k (AssetVars.set_position (pos - q) avg' asset) ;;
        t ← mk_trade order SHORT q price fee time 0;
        mret [t]
      else
        let qty_closing := Qmin pos q in
        let pnl := (price - avg) * qty_closing in
        let remaining_long := pos - q in
        t1 ← mk_trade order SHORT qty_closing price
               (qty_closing * fee_per_share) time pnl;
        let remaining_long :=
          if Qltb 0 remaining_long && Qltb remaining_long q_epsilon
          then 0 else remaining_long in
        if Qltb remaining_long 0 then
          let asset' := AssetVars.set_position remaining_long price asset in
          put_asset k asset' ;;
          t2 ← mk_trade order SHORT (Qabs remaining_long) price
                 (Qabs asset'.(AssetVars.position_qty) * fee_per_share) time 0;
          mret [t1; t2]
        else if Qeqb remaining_long 0 then
          put_asset k (AssetVars.set_position 0 0 asset) ;;
          mret [t1]
        else
          put_asset k (AssetVars.set_qty (pos - q) asset) ;;
          mret [t1]
  | FLAT => mret []
  end.

(** A bracket child: [Order(strategy_name=.., symbol=.., side=..,
    order_type=.., price=.., qty=.., group_id=order.group_id or order.id)],
    then [status = PENDING], [created_at = time] and the append to
    [self.open_orders].  The constructor's validation can raise. *)
Definition spawn_child (order : Order.t) (s : Side) (k : OrderType)
    (p q : Q) (time : Z) : M unit :=
  oid ← fresh_uuid;
  let gid := if truthy_str order.(Order.group_id) then order.(Order.group_id)
             else Some order.(Order.id) in
  let child := Order.make order.(Order.strategy_name) order.(Order.symbol)
                 s k q (Some p) gid oid in
  match post_init child with
  | inl e => throw e
  | inr _ =>
      append_open_order (Order.set_created_at time (Order.set_status PENDING child))
  end.

(** Lines 278-327 of [_execute_fill]: the stop and limit children. *)
Definition spawn_brackets (order : Order.t) (price : Q) (time : Z) : M unit :=
  (if truthy order.(Order.stop_price) || truthy order.(Order.stop_loss_pct) then
     let stop_side := if Side_eqb order.(Order.side) LONG then SHORT else LONG in
     let sl_price :=
       if truthy order.(Order.stop_price) then cast_float order.(Order.stop_price)
       else if Side_eqb stop_side SHORT
       then price * (1 - cast_float order.(Order.stop_loss_pct))
       else price * (1 + cast_float order.(Order.stop_loss_pct)) in
     spawn_child order stop_side STOP sl_price
       (or_else order.(Order.stop_qty) (order.(Order.qty) * (1 + order.(Order.revenge))))
       time
   else mret tt) ;;
  (if truthy order.(Order.limit_price) || truthy order.(Order.limit_pct) then
     let limit_side := if Side_eqb order.(Order.side) LONG then SHORT else LONG in
     let limit_price :=
       if truthy order.(Order.limit_price) then cast_float order.(Order.limit_price)
       else if Side_eqb limit_side SHORT
       then price * (1 + cast_float order.(Order.limit_pct))
       else price * (1 - cast_float order.(Order.limit_pct)) in
     spawn_child order limit_side LIMIT limit_price
       (or_else order.(Order.limit_qty) order.(Order.qty)) time
   else mret tt).

Definition execute_fill (r : nat) (price : Q) (time : Z) : M unit :=
  order ← get_order r;
  new_trades ← book_fill order price time;
  put_order r (Order.set_filled time price order) ;;
  modify (fun st => set_fill_history (st.(fill_history) ++ new_trades) st) ;;
  spawn_brackets order price time.

(** ** [_cancel_group], [cleanup_orders], [process_bar] *)

(** [o.group_id == group_id] for an [Optional[str]] and a [str]. *)
Definition group_eqb (x : option string) (g : string) : bool :=
  match x with Some v => String.eqb v g | None => false end.

Definition cancel_group_in (g : string) (refs : list nat)
    (os : list Order.t) : list Order.t :=
  fold_left (fun os r =>
    match os !! r with
    | Some o =>
        if group_eqb o.(Order.group_id) g && Status_eqb o.(Order.status) PENDING
        then <[r:=Order.set_status CANCELED o]> os else os
    | None => os
    end) refs os.

Definition cancel_group (g : string) : M unit :=
  modify (fun st => set_orders (cancel_group_in g st.(open_orders) st.(orders)) st).

Definition is_pending (os : list Order.t) (r : nat) : bool :=
  match os !! r with
  | Some o => Status_eqb o.(Order.status) PENDING
  | None => false
  end.

Definition cleanup_orders : M unit :=
  modify (fun st =>
    set_open_orders (List.filter (is_pending st.(orders)) st.(open_orders)) st).

(** [for order in self.open_orders:] while the body appends to the same
    list: the iteration reads index [i] of the current list and stops at
    its end.  The body appends at most two children per order, and a
    child carries no bracket directive, so [3 * n + 1] steps reach the end
    of a list that starts with [n] references. *)
Fixpoint fill_loop (fuel : nat) (row : Bar.t) (i : nat) : M unit :=
  match fuel with
  | O => mret tt
  | S fuel' =>
      st ← get;
      match st.(open_orders) !! i with
      | None => mret tt
      | Some r =>
          order ← get_order r;
          if negb (String.eqb order.(Order.symbol) row.(Bar.symbol))
             || negb (Status_eqb order.(Order.status) PENDING)
          then fill_loop fuel' row (S i)
          else
            fp ← check_fill r row.(Bar.open) row.(Bar.high) row.(Bar.low);
            (match fp with
             | Some p =>
                 execute_fill r p row.(Bar.name) ;;
                 (if truthy_str order.(Order.group_id)
                  then cancel_group (cast_str order.(Order.group_id))
                  else mret tt)
             | None => mret tt
             end) ;;
            fill_loop fuel' row (S i)
      end
  end.

(** [market_value] of [get_equity]. *)
Definition market_value (pf : Portfolio) : Q :=
  fold_left (fun mv (ka : string * AssetVars.t) =>
    let a := ka.2 in
    if negb (Qeqb a.(AssetVars.position_qty) 0)
    then mv + a.(AssetVars.position_qty) * a.(AssetVars.last_price)
    else mv) pf 0.

Definition get_equity : M Q :=
  st ← get; mret (st.(balance) + market_value st.(portfolio)).

(** The [unrealized_pnl] loop of [process_bar] only reads the state and
    its result is never used, so it is left out. *)
Definition process_bar (row : Bar.t) : M unit :=
  let symbol_name := row.(Bar.symbol) in
  st ← get;
  (match dict_get symbol_name st.(portfolio) with
   | None => put_asset symbol_name (AssetVars.make symbol_name)
   | Some _ => mret tt
   end) ;;
  a ← get_asset symbol_name;
  put_asset symbol_name (AssetVars.set_last_price row.(Bar.close) a) ;;
  st1 ← get;
  fill_loop (3 * length st1.(open_orders) + 1) row 0 ;;
  e ← get_equity;
  modify (set_equity e) ;;
  modify (fun st => set_equity_curve (st.(equity_curve) ++ [(row.(Bar.name), e)]) st) ;;
  cleanup_orders.

(** ** [submit_order], [run], [get_available_funds] *)

Fixpoint submit_order (os : list Order.t) (current_time : Z) : M unit :=
  match os with
  | [] => mret tt
  | o :: os' =>
      append_open_order (Order.set_status PENDING (Order.set_created_at current_time o)) ;;
      submit_order os' current_time
  end.

(** A strategy's [on_bar]: it observes the engine, constructs its new
    orders (each [Order(...)] runs [__post_init__]; the first failing one
    raises before anything is submitted) and submits them with the bar's
    timestamp. *)
Definition Strategy := ExecutionEngine -> Bar.t -> list Order.t.

Fixpoint construct_all (os : list Order.t) : exc + list Order.t :=
  match os with
  | [] => inr []
  | o :: os' =>
      match post_init o with
      | inl e => inl e
      | inr _ =>
          match construct_all os' with
          | inl e => inl e
          | inr l => inr (o :: l)
          end
      end
  end.

Definition on_bar (strategy : Strategy) (row : Bar.t) : M unit :=
  st ← get;
  match construct_all (strategy st row) with
  | inl e => throw e
  | inr os => submit_order os row.(Bar.name)
  end.

Fixpoint run (data : list Bar.t) (strategy : Strategy) : M unit :=
  match data with
  | [] => mret tt
  | row :: data' => process_bar row ;; on_bar strategy row ;; run data' strategy
  end.

Definition short_debt (pf : Portfolio) : Q :=
  fold_left (fun debt (ka : string * AssetVars.t) =>
    let a := ka.2 in
    if Qltb a.(AssetVars.position_qty) 0
    then debt + a.(AssetVars.avg_entry_price) * Qabs a.(AssetVars.position_qty)
    else debt) pf 0.

Definition get_available_funds : M Q :=
  st ← get;
  let total := st.(balance) - 2 * short_debt st.(portfolio) in
  inv ← pydiv 1 st.(margin);
  mret (inv * total).

(** ** [cancel_all_orders], [register_asset], [flatten] *)

Definition cancel_all_orders : M unit :=
  modify (fun st =>
    set_open_orders []
      (set_orders (fold_left (fun os r =>
         match os !! r with
         | Some o => <[r:=Order.set_status CANCELED o]> os
         | None => os
         end) st.(open_orders) st.(orders)) st)).

Definition register_asset (asset : AssetVars.t) : M unit :=
  st ← get;
  match dict_get asset.(AssetVars.symbol) st.(portfolio) with
  | None => put_asset asset.(AssetVars.symbol) asset
  | Some _ => mret tt
  end.

(** [order.symbol in targets] *)
Definition in_targets (targets : list string) (s : string) : bool :=
  existsb (String.eqb s) targets.

(** [for i in range(len(self.open_orders) - 1, -1, -1)], called with the
    length of [open_orders]: an order of a target symbol is canceled and
    popped from the list. *)
Fixpoint flatten_cancel (targets : list string) (n : nat) : M unit :=
  match n with
  | O => mret tt
  | S i =>
      st ← get;
      (match st.(open_orders) !! i with
       | Some r =>
           order ← get_order r;
           if in_targets targets order.(Order.symbol) then
             put_order r (Order.set_status CANCELED order) ;;
             modify (fun st => set_open_orders (delete i st.(open_orders)) st)
           else mret tt
       | None => mret tt
       end) ;;
      flatten_cancel targets i
  end.

(** The [close_orders] loop of [flatten]: one market order per target
    symbol held with [abs(qty) >= q_epsilon], on the side that closes
    it. *)
Fixpoint flatten_close (targets : list string) : M (list Order.t) :=
  match targets with
  | [] => mret []
  | sym :: rest =>
      st ← get;
      os ← (match dict_get sym st.(portfolio) with
            | None => mret []
            | Some asset =>
                let qty := asset.(AssetVars.position_qty) in
                if Qltb (Qabs qty) q_epsilon then mret []
                else
                  oid ← fresh_uuid;
                  let side := if Qltb 0 qty then SHORT else LONG in
                  let order := Order.make "flatten" sym side MARKET (Qabs qty)
                                 None None oid in
                  match post_init order with
                  | inl e => throw e
                  | inr _ => mret [order]
                  end
            end);
      os' ← flatten_close rest;
      mret (os ++ os')
  end.

Definition flatten (current_time : Z) (symbols : option (list string)) : M unit :=
  st ← get;
  let targets := match symbols with
                 | None => map fst st.(portfolio)
                 | Some l => l
                 end in
  flatten_cancel targets (length st.(open_orders)) ;;
  close_orders ← flatten_close targets;
  match close_orders with
  | [] => mret tt
  | _ => submit_order close_orders current_time
  end.

(** * Engines, relations and helpers used in the statements
    below *)

Definition same_books (st st' : ExecutionEngine) : Prop :=
  st'.(balance) = st.(balance) /\ st'.(portfolio) = st.(portfolio) /\
  st'.(fill_history) = st.(fill_history).

Definition Qsum (l : list Q) : Q := fold_right Qplus 0 l.

(** A market order with a zero [stop_price] and a non-zero
    [stop_loss_pct]. *)
Definition zero_stop_order : Order.t :=
  Order.mk "s" "X" LONG MARKET 1 0 None (Some 0) None (Some (5 # 100))
    None None None 0 None None "A" PENDING None None 0.

(** An engine with the given position on symbol "X" and the given order
    as its only order object (reference 0). *)
Definition engine_with (a : AssetVars.t) (o : Order.t) : ExecutionEngine :=
  set_open_orders [0%nat]
    (set_orders [o] (set_portfolio [("X", a)] (init 10000 [] 1))).

(** Long 1 @ 100, then a market sell of 2 fills at 110 (the documented flip
    scenario). *)
Definition flip_engine : ExecutionEngine :=
  engine_with (AssetVars.mk "X" 1 100 100 0 0)
    (Order.make "s" "X" SHORT MARKET 2 None None "B").

(** Long 1 @ 100; a sell of [1 + 5e-10] leaves a residual of [-5e-10]. *)
Definition dust_short_engine : ExecutionEngine :=
  engine_with (AssetVars.mk "X" 1 100 100 0 0)
    (Order.make "s" "X" SHORT MARKET (2000000001 # 2000000000) None None "D").

(** Its mirror: short 1 @ 100; a buy of [1 + 5e-10]. *)
Definition dust_long_engine : ExecutionEngine :=
  engine_with (AssetVars.mk "X" (-1) 100 100 0 0)
    (Order.make "s" "X" LONG MARKET (2000000001 # 2000000000) None None "D").

(** A pending market buy of 1 "X" with a 5% stop-loss directive and no
    group. *)
Definition bracket_parent : Order.t :=
  Order.mk "s" "X" LONG MARKET 1 0 None None None (Some (5 # 100)) None
    None None 0 None None "P" PENDING (Some 0%Z) None 0.

Definition bracket_engine : ExecutionEngine :=
  engine_with (AssetVars.make "X") bracket_parent.

(** A bar of "X" that opens at 100 and trades down to 90. *)
Definition bracket_bar : Bar.t := Bar.mk 1 "X" 100 101 90 92.

(** What [submit_order] writes into an order before appending it. *)
Definition submitted (current_time : Z) (o : Order.t) : Order.t :=
  Order.set_status PENDING (Order.set_created_at current_time o).

(** The marking of the portfolio: each symbol with its [last_price]. *)
Definition marks (pf : Portfolio) : list (string * Q) :=
  map (fun ka : string * AssetVars.t => (ka.1, ka.2.(AssetVars.last_price))) pf.

(** The price [process_bar] marks symbol [k] at: the bar's close for the
    bar's symbol, the recorded [last_price] for any other. *)
Definition mark_price (row : Bar.t) (st : ExecutionEngine) (k : string) : Q :=
  if String.eqb k row.(Bar.symbol) then row.(Bar.close)
  else match dict_get k st.(portfolio) with
       | Some a => a.(AssetVars.last_price)
       | None => 0
       end.

Definition same_marks (st st' : ExecutionEngine) : Prop :=
  marks st'.(portfolio) = marks st.(portfolio) /\
  st'.(equity_curve) = st.(equity_curve).

(** What [_cancel_group] does to one order of the list. *)
Definition cancel_if (g : string) (o : Order.t) : Order.t :=
  if group_eqb o.(Order.group_id) g && Status_eqb o.(Order.status) PENDING
  then Order.set_status CANCELED o else o.

Definition orders_extend (st st' : ExecutionEngine) : Prop :=
  forall r o, st.(orders) !! r = Some o -> st'.(orders) !! r = Some o.

(** A strategy that submits a market buy of "X" in group "g" on bars 1
    and 2. *)
Definition oco_strategy : Strategy := fun _ row =>
  if Z.leb row.(Bar.name) 2 then
    [Order.make "s" "X" LONG MARKET 1 None (Some "g")
       ("o" +:+ pretty (Z.to_N row.(Bar.name)))]
  else [].

Definition oco_bars : list Bar.t :=
  [Bar.mk 1 "X" 100 100 100 100; Bar.mk 2 "X" 100 100 100 100;
   Bar.mk 3 "X" 100 100 100 100].

(** The orders of group [g] that reached FILLED, with their fill times. *)
Definition filled_in_group (g : string) (os : list Order.t) : list (string * option Z) :=
  map (fun o => (o.(Order.id), o.(Order.filled_at)))
    (filter (fun o => group_eqb o.(Order.group_id) g &&
                      Status_eqb o.(Order.status) FILLED) os).

(** A sell-stop at 95 on "X", and a bar that opens at 100 and trades down
    to 90. *)
Definition stop_order : Order.t := Order.make "s" "X" SHORT STOP 1 (Some 95) None "S".

Definition stop_engine : ExecutionEngine := engine_with (AssetVars.make "X") stop_order.

(** A limit buy of 2 "X" at 100 on an asset with market fee 10 bps and
    limit fee 5 bps. *)
Definition limit_order : Order.t := Order.make "s" "X" LONG LIMIT 2 (Some 100) None "L".

Definition limit_asset : AssetVars.t := AssetVars.mk "X" 0 0 100 10 5.

Definition limit_engine : ExecutionEngine := engine_with limit_asset limit_order.

(** Short 2 "X" entered at 50, margin divisor 2. *)
Definition short_engine : ExecutionEngine :=
  set_portfolio [("X", AssetVars.mk "X" (-2) 50 50 0 0)] (init 10000 [] 2).

(** A market buy of 1 "X" while 3 "Y" are held at a last price of 12; the
    bar closes "X" at 105. *)
Definition equity_engine : ExecutionEngine :=
  set_open_orders [0%nat]
    (set_orders [Order.make "s" "X" LONG MARKET 1 None None "E"]
       (set_portfolio [("X", AssetVars.make "X"); ("Y", AssetVars.mk "Y" 3 10 12 0 0)]
          (init 10000 [] 1))).

Definition equity_bar : Bar.t := Bar.mk 1 "X" 100 106 99 105.

(** Two orders of group "g" on "X": a market buy (reference 0) and a
    limit sell at 200 (reference 1). *)
Definition oco_buy : Order.t := Order.make "s" "X" LONG MARKET 1 None (Some "g") "A".
Definition oco_sell : Order.t := Order.make "s" "X" SHORT LIMIT 1 (Some 200) (Some "g") "B".

Definition oco_engine : ExecutionEngine :=
  set_open_orders [0%nat; 1%nat]
    (set_orders [oco_buy; oco_sell]
       (set_portfolio [("X", AssetVars.make "X")] (init 10000 [] 1))).

Definition oco_bar : Bar.t := Bar.mk 1 "X" 100 100 100 100.

Definition c4_bar : Bar.t := Bar.mk 1 "X" 100 100 100 100.

(** [flatten]'s cancel loop keeps an open order unless it is an order of
    a target symbol. *)
Definition flatten_keep (targets : list string) (os : list Order.t) (r : nat) : bool :=
  match os !! r with
  | Some o => negb (in_targets targets o.(Order.symbol))
  | None => true
  end.

(** The order at reference [r] after [flatten]'s cancel loop has visited
    the references [refs]. *)
Definition flatten_cancel_order (targets : list string) (refs : list nat) (r : nat)
    (o : Order.t) : Order.t :=
  if bool_decide (r ∈ refs) && in_targets targets o.(Order.symbol)
  then Order.set_status CANCELED o else o.

(** The trade history of [st'] continues that of [st]. *)
Definition history_extends (st st' : ExecutionEngine) : Prop :=
  exists l, st'.(fill_history) = st.(fill_history) ++ l.

(** Every order of [st] that is no longer PENDING is unchanged in [st']. *)
Definition finals_kept (st st' : ExecutionEngine) : Prop :=
  forall r o, st.(orders) !! r = Some o -> o.(Order.status) <> PENDING ->
    st'.(orders) !! r = Some o.

(** Every PENDING order is referenced by [open_orders]: [submit_order] and
    the bracket spawning append each new order's reference, and only
    orders that are no longer PENDING lose theirs. *)
Definition pending_listed (st : ExecutionEngine) : Prop :=
  forall r o, st.(orders) !! r = Some o -> o.(Order.status) = PENDING ->
    r ∈ st.(open_orders).

(** A status left as it was, or a PENDING order canceled. *)
Definition status_step (s s' : Status) : Prop :=
  s' = s \/ (s = PENDING /\ s' = CANCELED).

(** Two orders of group [g] of which at most one is FILLED, the other one
    being CANCELED once one is. *)
Definition oco_pair (g : string) (r1 r2 : nat) (st : ExecutionEngine) : Prop :=
  exists o1 o2, st.(orders) !! r1 = Some o1 /\ st.(orders) !! r2 = Some o2 /\
    o1.(Order.group_id) = Some g /\ o2.(Order.group_id) = Some g /\
    o1.(Order.status) <> REJECTED /\ o2.(Order.status) <> REJECTED /\
    (o1.(Order.status) = FILLED -> o2.(Order.status) = CANCELED) /\
    (o2.(Order.status) = FILLED -> o1.(Order.status) = CANCELED).

Definition oco_inv (g : string) (r1 r2 : nat) (st : ExecutionEngine) : Prop :=
  pending_listed st /\ oco_pair g r1 r2 st.

Definition not_both_filled (r1 r2 : nat) (st : ExecutionEngine) : Prop :=
  forall p1 p2, st.(orders) !! r1 = Some p1 -> st.(orders) !! r2 = Some p2 ->
    ~ (p1.(Order.status) = FILLED /\ p2.(Order.status) = FILLED).

(** The outcome of an action: [P] of the state it returns with, [Q] of the
    state it raises in. *)
Definition post {A} (P Q : ExecutionEngine -> Prop) (res : result A) : Prop :=
  match res with Ok _ st => P st | Raise _ st => Q st end.

Definition safe {A} (P Q : ExecutionEngine -> Prop) (m : M A) : Prop :=
  forall st, P st -> post P Q (m st).

(** Short 2 "X" @ 10, and a SHORT LIMIT order at 100 of quantity -1 with a
    cash amount of 5 (its constructor accepts it: exactly one of quantity
    and cash amount is positive). *)
Definition neg_avg_order : Order.t :=
  Order.mk "s" "X" SHORT LIMIT (-1) 5 (Some 100) None None None None
    None None 0 None None "N" PENDING None None 0.

Definition neg_avg_engine : ExecutionEngine :=
  engine_with (AssetVars.mk "X" (-2) 10 10 0 0) neg_avg_order.

Definition neg_avg_bar : Bar.t := Bar.mk 1 "X" 100 100 100 100.

(** The sum the claim reserves: [|position_qty * avg_entry_price|] over the
    short positions. *)
Definition short_value_abs (pf : Portfolio) : Q :=
  Qsum (map (fun ka : string * AssetVars.t =>
    if Qlt_le_dec ka.2.(AssetVars.position_qty) 0
    then Qabs (ka.2.(AssetVars.position_qty) * ka.2.(AssetVars.avg_entry_price))
    else 0) pf).

(** A limit order of side FLAT on "X". *)
Definition flat_order : Order.t := Order.make "s" "X" FLAT LIMIT 1 (Some 100) None "F".

Definition flat_engine : ExecutionEngine := engine_with (AssetVars.make "X") flat_order.

(** Long 2 "X" @ 100 and a market sell of 1. *)
Definition reduce_asset : AssetVars.t := AssetVars.mk "X" 2 100 100 0 0.

Definition reduce_engine : ExecutionEngine :=
  engine_with reduce_asset (Order.make "s" "X" SHORT MARKET 1 None None "R").

(** Long 1 "X" @ 100 and a market sell of exactly 1, as [flatten] builds it. *)
Definition close_asset : AssetVars.t := AssetVars.mk "X" 1 100 100 0 0.

Definition close_engine : ExecutionEngine :=
  engine_with close_asset (Order.make "flatten" "X" SHORT MARKET 1 None None "C").

(** A market buy of "Y" while only "X" is registered. *)
Definition unregistered_engine : ExecutionEngine :=
  engine_with (AssetVars.make "X") (Order.make "s" "Y" LONG MARKET 1 None None "U").

(** Flat on "X", with a market buy of 1 (reference 0) and a market sell of
    1 (reference 1). *)
Definition rt_buy : Order.t := Order.make "s" "X" LONG MARKET 1 None None "A".
Definition rt_sell : Order.t := Order.make "s" "X" SHORT MARKET 1 None None "B".

Definition rt_engine : ExecutionEngine :=
  set_open_orders [0%nat; 1%nat]
    (set_orders [rt_buy; rt_sell]
       (set_portfolio [("X", AssetVars.make "X")] (init 10000 [] 1))).

(** * Properties *)

(** ** Python comparisons on [Q] *)

Lemma Qltb_true (x y : Q) : x < y -> Qltb x y = true.
Proof.
  intros H. unfold Qltb. destruct (Qle_bool y x) eqn:E; [|reflexivity].
  apply Qle_bool_iff in E. exfalso. apply (Qlt_not_le x y); assumption.
Qed.

Lemma Qltb_false (x y : Q) : y <= x -> Qltb x y = false.
Proof. intros H. unfold Qltb. apply Qle_bool_iff in H. rewrite H. reflexivity. Qed.

Lemma Qltb_iff (x y : Q) : Qltb x y = true <-> x < y.
Proof.
  split; [|apply Qltb_true].
  intros H. destruct (Qlt_le_dec x y) as [Hl|Hl]; [assumption|].
  rewrite Qltb_false in H; [discriminate|assumption].
Qed.

Lemma Qltb_false_iff (x y : Q) : Qltb x y = false <-> y <= x.
Proof.
  split; [|apply Qltb_false].
  intros H. destruct (Qlt_le_dec x y) as [Hl|Hl]; [|assumption].
  rewrite Qltb_true in H; [discriminate|assumption].
Qed.

Lemma Qleb_iff (x y : Q) : Qleb x y = true <-> x <= y.
Proof. apply Qle_bool_iff. Qed.

Lemma Qleb_false (x y : Q) : y < x -> Qleb x y = false.
Proof.
  intros H. destruct (Qleb x y) eqn:E; [|reflexivity].
  apply Qleb_iff in E. exfalso. apply (Qlt_not_le y x); assumption.
Qed.

Lemma Qeqb_iff (x y : Q) : Qeqb x y = true <-> x == y.
Proof. apply Qeq_bool_iff. Qed.

Lemma truthy_iff (x : option Q) :
  truthy x = true <-> exists v, x = Some v /\ ~ v == 0.
Proof.
  destruct x as [v|]; simpl; split.
  - intros H. exists v. split; [reflexivity|]. intros E.
    apply Qeqb_iff in E. rewrite E in H. discriminate.
  - intros [w [Hw Hn]]. injection Hw as <-.
    destruct (Qeqb v 0) eqn:E; [|reflexivity].
    apply Qeqb_iff in E. contradiction.
  - discriminate.
  - intros [w [Hw _]]. discriminate.
Qed.

(** ** C6: the fill rule of a [STOP] order *)

(** C6. For a STOP order with trigger price [p]: a sell-stop (side
    SHORT) fills at the open when [open < p], else at [p] when
    [low <= p], else not at all; a buy-stop (side LONG) fills at the open
    when [open > p], else at [p] when [high >= p], else not at all.  The
    resolver leaves the engine state unchanged. *)
Theorem check_fill_stop (st : ExecutionEngine) (r : nat) (o : Order.t)
    (p open_p high_p low_p : Q) :
  st.(orders) !! r = Some o ->
  o.(Order.order_type) = STOP ->
  o.(Order.price) = Some p ->
  (o.(Order.side) = SHORT ->
     (open_p < p -> check_fill r open_p high_p low_p st = Ok (Some open_p) st) /\
     (p <= open_p -> low_p <= p -> check_fill r open_p high_p low_p st = Ok (Some p) st) /\
     (p <= open_p -> p < low_p -> check_fill r open_p high_p low_p st = Ok None st)) /\
  (o.(Order.side) = LONG ->
     (p < open_p -> check_fill r open_p high_p low_p st = Ok (Some open_p) st) /\
     (open_p <= p -> p <= high_p -> check_fill r open_p high_p low_p st = Ok (Some p) st) /\
     (open_p <= p -> high_p < p -> check_fill r open_p high_p low_p st = Ok None st)).
Proof.
  intros Hr Hk Hp.
  assert (Hc : check_fill r open_p high_p low_p st =
    match trigger_fill STOP o.(Order.side) (Some p) open_p high_p low_p with
    | inl e => Raise e st
    | inr x => Ok x st
    end).
  { unfold check_fill, mbind, M_bind at 1, get_order. rewrite Hr.
    rewrite Hk, Hp. destruct (trigger_fill _ _ _ _ _ _); reflexivity. }
  rewrite Hc. split; intros Hs; rewrite Hs; cbn [trigger_fill].
  - repeat split; intros.
    + rewrite Qltb_true by assumption. reflexivity.
    + rewrite Qltb_false by assumption.
      apply Qleb_iff in H0. rewrite H0. reflexivity.
    + rewrite Qltb_false by assumption. rewrite Qleb_false by assumption.
      reflexivity.
  - repeat split; intros.
    + rewrite Qltb_true by assumption. reflexivity.
    + rewrite Qltb_false by assumption.
      apply Qleb_iff in H0. rewrite H0. reflexivity.
    + rewrite Qltb_false by assumption. rewrite Qleb_false by assumption.
      reflexivity.
Qed.

(** ** Frame reasoning: actions that keep a relation on engine states *)

Section Keeps.
Variable R : ExecutionEngine -> ExecutionEngine -> Prop.
Hypothesis R_refl : forall st, R st st.
Hypothesis R_trans : forall a b c, R a b -> R b c -> R a c.

Definition keeps {A} (m : M A) : Prop := forall st, R st (state_of (m st)).

Lemma keeps_ret {A} (a : A) : keeps (mret a).
Proof. intros st. apply R_refl. Qed.

Lemma keeps_throw {A} (e : exc) : keeps (throw (A:=A) e).
Proof. intros st. apply R_refl. Qed.

Lemma keeps_get : keeps get.
Proof. intros st. apply R_refl. Qed.

Lemma keeps_modify (f : ExecutionEngine -> ExecutionEngine) :
  (forall st, R st (f st)) -> keeps (modify f).
Proof. intros Hf st. apply Hf. Qed.

Lemma keeps_bind {A B} (m : M A) (f : A -> M B) :
  keeps m -> (forall a, keeps (f a)) -> keeps (m ≫= f).
Proof.
  intros Hm Hf st. specialize (Hm st). unfold mbind, M_bind.
  destruct (m st) as [a st'|e st']; simpl in *; [|assumption].
  eapply R_trans; [apply Hm|apply Hf].
Qed.

Lemma keeps_pydiv (x y : Q) : keeps (pydiv x y).
Proof. intros st. unfold pydiv. destruct (Qeqb y 0); apply R_refl. Qed.

Lemma keeps_get_order (r : nat) : keeps (get_order r).
Proof. intros st. unfold get_order. destruct (_ !! r); apply R_refl. Qed.

Lemma keeps_get_asset (k : string) : keeps (get_asset k).
Proof. intros st. unfold get_asset. destruct (dict_get _ _); apply R_refl. Qed.
End Keeps.

Create HintDb keeps_db.
#[export] Hint Resolve keeps_ret keeps_throw keeps_get keeps_pydiv
  keeps_get_order keeps_get_asset : keeps_db.

(** Decompose an action into primitives, leaving the primitives that
    change the state as goals. *)
Ltac keeps_step :=
  match goal with
  | |- keeps _ (_ ≫= _) => apply keeps_bind; [assumption| |intros ?]
  | |- keeps _ (match ?x with _ => _ end) => destruct x
  | |- keeps _ (if ?b then _ else _) => destruct b
  | |- keeps _ (let _ := _ in _) => cbv zeta
  | |- keeps _ _ => solve [eauto with keeps_db]
  end.

Lemma same_books_refl st : same_books st st.
Proof. repeat split. Qed.

Lemma same_books_trans a b c : same_books a b -> same_books b c -> same_books a c.
Proof. intros (H1 & H2 & H3) (H4 & H5 & H6). repeat split; congruence. Qed.

(** Spawning bracket children touches neither cash, positions nor trades. *)
Lemma spawn_brackets_books (order : Order.t) (price : Q) (time : Z) :
  keeps same_books (spawn_brackets order price time).
Proof.
  pose proof same_books_refl as Hr. pose proof same_books_trans as Ht.
  unfold spawn_brackets, spawn_child, fresh_uuid, append_open_order.
  repeat keeps_step; intros st; repeat split.
Qed.

(** Compute through a concrete action, splitting on its tests. *)
Ltac crunch :=
  repeat (cbn -[Qmult Qplus Qminus Qopp Qdiv Qabs Qmin Qmax];
          match goal with
          | |- context [if ?b then _ else _] => destruct b
          end).

(** ** C7: commission and the cash effect of a fill *)

Lemma book_fill_balance (st : ExecutionEngine) (o : Order.t) (a : AssetVars.t)
    (price : Q) (time : Z) :
  dict_get o.(Order.symbol) st.(portfolio) = Some a ->
  (state_of (book_fill o price time st)).(balance) =
    match o.(Order.side) with
    | LONG => st.(balance) - (o.(Order.qty) * price + o.(Order.qty) * price * fee_rate o a)
    | SHORT => st.(balance) + (o.(Order.qty) * price - o.(Order.qty) * price * fee_rate o a)
    | FLAT => st.(balance)
    end.
Proof.
  intros Ha. unfold book_fill, mbind, M_bind at 1, get_asset. rewrite Ha.
  unfold mbind, M_bind, modify, pydiv, put_asset, mk_trade, fresh_uuid,
    mret, M_ret, throw.
  destruct (Order.side o); crunch; reflexivity.
Qed.

Lemma state_of_bind {A B} (m : M A) (f : A -> M B) (st : ExecutionEngine) :
  state_of ((m ≫= f) st) =
  match m st with Ok a st' => state_of (f a st') | Raise _ st' => st' end.
Proof. unfold mbind, M_bind. destruct (m st); reflexivity. Qed.

(** C7. When order [o] fills at [price]: its commission is
    [qty * price * rate], the rate being the symbol's limit fee rate for a
    LIMIT order and its market fee rate otherwise (rates in basis points);
    a LONG fill lowers the cash balance by exactly [notional + commission],
    a SHORT fill raises it by exactly [notional - commission], and nothing
    else in the fill (position bookkeeping, trade records, bracket
    children, even a later exception) changes the cash. *)
Theorem execute_fill_cash (st : ExecutionEngine) (r : nat) (o : Order.t)
    (a : AssetVars.t) (price : Q) (time : Z) :
  st.(orders) !! r = Some o ->
  dict_get o.(Order.symbol) st.(portfolio) = Some a ->
  let notional := o.(Order.qty) * price in
  let commission := notional *
    (match o.(Order.order_type) with
     | LIMIT => a.(AssetVars.limit_fee_bps) / 10000
     | _ => a.(AssetVars.market_fee_bps) / 10000
     end) in
  (o.(Order.side) = LONG ->
     (state_of (execute_fill r price time st)).(balance)
       = st.(balance) - (notional + commission)) /\
  (o.(Order.side) = SHORT ->
     (state_of (execute_fill r price time st)).(balance)
       = st.(balance) + (notional - commission)).
Proof.
  intros Ho Ha notional commission.
  assert (Hb : (state_of (execute_fill r price time st)).(balance) =
               (state_of (book_fill o price time st)).(balance)).
  { unfold execute_fill. rewrite state_of_bind. unfold get_order. rewrite Ho.
    rewrite state_of_bind.
    destruct (book_fill o price time st) as [nt st1|e st1]; [|reflexivity].
    rewrite state_of_bind. unfold put_order, modify. simpl.
    rewrite state_of_bind. simpl.
    pose proof (spawn_brackets_books o price time) as Hk.
    specialize (Hk (set_fill_history (fill_history st1 ++ nt)
                     (set_orders (<[r:=Order.set_filled time price o]> (orders st1)) st1))).
    destruct Hk as [Hk _]. rewrite Hk. reflexivity. }
  rewrite Hb, (book_fill_balance st o a price time Ha).
  split; intros Hs; rewrite Hs; reflexivity.
Qed.

(** ** C9: available funds *)

Lemma Qsum_cons (x : Q) (l : list Q) : Qsum (x :: l) = x + Qsum l.
Proof. reflexivity. Qed.

Lemma short_debt_sum_aux (pf : Portfolio) (acc : Q) :
  (forall k a, In (k, a) pf -> a.(AssetVars.position_qty) < 0 ->
     0 <= a.(AssetVars.avg_entry_price)) ->
  fold_left (fun debt (ka : string * AssetVars.t) =>
    if Qltb ka.2.(AssetVars.position_qty) 0
    then debt + ka.2.(AssetVars.avg_entry_price) * Qabs ka.2.(AssetVars.position_qty)
    else debt) pf acc
  == acc + Qsum (map (fun ka : string * AssetVars.t =>
         if Qlt_le_dec ka.2.(AssetVars.position_qty) 0
         then Qabs (ka.2.(AssetVars.position_qty) * ka.2.(AssetVars.avg_entry_price))
         else 0) pf).
Proof.
  revert acc. induction pf as [|[k a] pf IH]; intros acc Hpos;
    cbn [fold_left map].
  - unfold Qsum. simpl. ring.
  - eapply Qeq_trans.
    { apply IH. intros k' a' Hin. apply (Hpos k'). right. exact Hin. }
    cbn [snd].
    destruct (Qlt_le_dec (AssetVars.position_qty a) 0) as [Hl|Hl].
    + rewrite (Qltb_true _ _ Hl), Qsum_cons.
      rewrite Qabs_Qmult.
      rewrite (Qabs_pos (AssetVars.avg_entry_price a))
        by (apply (Hpos k); [left; reflexivity|exact Hl]).
      ring.
    + rewrite (Qltb_false _ _ Hl). rewrite Qsum_cons. simpl. ring.
Qed.

Lemma short_debt_sum_plain (pf : Portfolio) (acc : Q) :
  fold_left (fun debt (ka : string * AssetVars.t) =>
    if Qltb ka.2.(AssetVars.position_qty) 0
    then debt + ka.2.(AssetVars.avg_entry_price) * Qabs ka.2.(AssetVars.position_qty)
    else debt) pf acc
  == acc + Qsum (map (fun ka : string * AssetVars.t =>
         if Qlt_le_dec ka.2.(AssetVars.position_qty) 0
         then ka.2.(AssetVars.avg_entry_price) * Qabs ka.2.(AssetVars.position_qty)
         else 0) pf).
Proof.
  revert acc. induction pf as [|[k a] pf IH]; intros acc; cbn [fold_left map].
  - unfold Qsum. simpl. ring.
  - eapply Qeq_trans; [apply IH|]. cbn [snd].
    destruct (Qlt_le_dec (AssetVars.position_qty a) 0) as [Hl|Hl].
    + rewrite (Qltb_true _ _ Hl), Qsum_cons. ring.
    + rewrite (Qltb_false _ _ Hl), Qsum_cons. ring.
Qed.

(** C9, corrected.  With a non-zero margin divisor (Python raises
    [ZeroDivisionError] otherwise) the query leaves the engine state
    unchanged and returns [(cash - 2 * D) / margin], where [D] sums
    [avg_entry_price * |position_qty|] over the symbols whose position is
    negative; long and flat positions contribute nothing.  When every
    short position has a non-negative average entry price, [D] is the sum
    of [|position_qty * avg_entry_price|], the claimed formula; the
    counterexample below reaches a short with a negative one. *)
Theorem available_funds_formula (st : ExecutionEngine) :
  ~ st.(margin) == 0 ->
  exists v, get_available_funds st = Ok v st /\
    v == (st.(balance) - 2 * Qsum (map (fun ka : string * AssetVars.t =>
            if Qlt_le_dec ka.2.(AssetVars.position_qty) 0
            then ka.2.(AssetVars.avg_entry_price) * Qabs ka.2.(AssetVars.position_qty)
            else 0) st.(portfolio))) / st.(margin) /\
    ((forall k a, In (k, a) st.(portfolio) -> a.(AssetVars.position_qty) < 0 ->
        0 <= a.(AssetVars.avg_entry_price)) ->
     v == (st.(balance) - 2 * short_value_abs st.(portfolio)) / st.(margin)).
Proof.
  intros Hm. unfold get_available_funds, get, mbind, M_bind, pydiv.
  destruct (Qeqb (margin st) 0) eqn:E.
  { apply Qeqb_iff in E. contradiction. }
  eexists. split; [reflexivity|]. split.
  - unfold short_debt. rewrite (short_debt_sum_plain _ 0). field. exact Hm.
  - intros Hpos. unfold short_debt, short_value_abs.
    rewrite (short_debt_sum_aux _ 0 Hpos). field. exact Hm.
Qed.

(** C9 fails for a short with a negative average entry price, which a
    fill reaches: on a short 2 @ 10, a SHORT LIMIT order of quantity -1
    (and cash amount 5, so its constructor accepts it) fills at 100 and
    leaves a short 1 @ -80; its debt then counts -80, and the available
    funds are not [(cash - 2 * S) / margin] with [S = |(-1) * (-80)|]. *)
Lemma short_negative_avg_funds :
  post_init neg_avg_order = inr tt /\
  let st := state_of (process_bar neg_avg_bar neg_avg_engine) in
  (exists a, dict_get "X" st.(portfolio) = Some a /\
     a.(AssetVars.position_qty) == -1 /\ a.(AssetVars.avg_entry_price) == -80) /\
  exists v, get_available_funds st = Ok v st /\
    ~ v == (st.(balance) - 2 * short_value_abs st.(portfolio)) / st.(margin).
Proof.
  split; [vm_compute; reflexivity|]. cbv zeta.
  split.
  - eexists. split; [vm_compute; reflexivity|]. split; vm_compute; reflexivity.
  - eexists. split; [vm_compute; reflexivity|].
    intros H. vm_compute in H. discriminate H.
Qed.

(** ** C8: construction-time validation of orders *)

Lemma post_init_inl_iff (o : Order.t) :
  (exists e, post_init o = inl e) <->
  ((match o.(Order.order_type) with LIMIT | STOP_LIMIT => true | _ => false end
    && match o.(Order.price) with None => true | Some _ => false end)
   || (match o.(Order.order_type) with STOP | STOP_LIMIT => true | _ => false end
    && match o.(Order.price) with None => true | Some _ => false end)
   || (Qleb o.(Order.qty) 0 && Qleb o.(Order.cash_amount) 0)
   || (Qltb 0 o.(Order.qty) && Qltb 0 o.(Order.cash_amount))
   || (truthy o.(Order.stop_loss_pct) && truthy o.(Order.stop_price))
   || (truthy o.(Order.limit_pct) && truthy o.(Order.limit_price))) = true.
Proof.
  unfold post_init. cbv zeta.
  repeat match goal with |- context [if ?b then _ else _] => destruct b end;
    simpl; split; try (intros [e He]; discriminate);
    try (intros H; discriminate); eauto.
Qed.

Lemma missing_price_iff (k : OrderType) (p : option Q) :
  ((match k with LIMIT | STOP_LIMIT => true | _ => false end
    && match p with None => true | Some _ => false end)
   || (match k with STOP | STOP_LIMIT => true | _ => false end
    && match p with None => true | Some _ => false end)) = true <->
  (k = LIMIT \/ k = STOP \/ k = STOP_LIMIT) /\ p = None.
Proof.
  destruct k, p; simpl; intuition discriminate.
Qed.

Lemma sizing_iff (q c : Q) :
  ((Qleb q 0 && Qleb c 0) || (Qltb 0 q && Qltb 0 c)) = true <->
  ~ ((0 < q /\ c <= 0) \/ (q <= 0 /\ 0 < c)).
Proof.
  destruct (Qlt_le_dec 0 q) as [Hq|Hq]; destruct (Qlt_le_dec 0 c) as [Hc|Hc].
  - rewrite (Qleb_false q 0 Hq), (Qltb_true 0 q Hq), (Qltb_true 0 c Hc).
    simpl. split; [intros _|reflexivity]. lra.
  - rewrite (Qleb_false q 0 Hq), (Qltb_true 0 q Hq), (Qltb_false 0 c Hc).
    simpl. split; [discriminate|]. intros H. exfalso. lra.
  - assert (E : Qleb q 0 = true) by (apply Qleb_iff; exact Hq).
    rewrite E, (Qleb_false c 0 Hc), (Qltb_false 0 q Hq). simpl.
    split; [discriminate|]. intros H. exfalso. lra.
  - assert (E : Qleb q 0 = true) by (apply Qleb_iff; exact Hq).
    assert (E' : Qleb c 0 = true) by (apply Qleb_iff; exact Hc).
    rewrite E, E'. simpl. split; [intros _|reflexivity]. lra.
Qed.

Lemma both_truthy_iff (a b : option Q) :
  (truthy a && truthy b) = true <->
  exists x y, b = Some x /\ a = Some y /\ ~ x == 0 /\ ~ y == 0.
Proof.
  rewrite andb_true_iff, !truthy_iff. split.
  - intros [[y [Hy Hy0]] [x [Hx Hx0]]]. exists x, y. auto.
  - intros (x & y & Hx & Hy & Hx0 & Hy0). split; eauto.
Qed.

Lemma construct_all_inl (os : list Order.t) :
  (exists o, In o os /\ exists e, post_init o = inl e) ->
  exists e, construct_all os = inl e.
Proof.
  induction os as [|o os IH]; simpl; intros (o' & Hin & e & He).
  - contradiction.
  - destruct (post_init o) as [e'|[]] eqn:Ho; [eauto|].
    destruct Hin as [<-|Hin]; [congruence|].
    destruct IH as [e'' He'']; [eauto|]. rewrite He''. eauto.
Qed.

(** C8 (as the code decides it).  Constructing an order fails exactly
    when: its kind is LIMIT, STOP or STOP_LIMIT and it has no price; or
    it is not the case that exactly one of quantity and cash amount is
    positive; or [stop_price] and [stop_loss_pct] are both given with
    non-zero values; or [limit_price] and [limit_pct] are both given with
    non-zero values (Python truthiness: a [0.0] directive counts as
    absent).  A strategy step in which some constructed order fails raises
    before anything is submitted, leaving the engine unchanged. *)
Theorem post_init_fails_iff (o : Order.t) :
  ((exists e, post_init o = inl e) <->
   ((o.(Order.order_type) = LIMIT \/ o.(Order.order_type) = STOP
     \/ o.(Order.order_type) = STOP_LIMIT) /\ o.(Order.price) = None) \/
   ~ ((0 < o.(Order.qty) /\ o.(Order.cash_amount) <= 0) \/
      (o.(Order.qty) <= 0 /\ 0 < o.(Order.cash_amount))) \/
   (exists x y, o.(Order.stop_price) = Some x /\ o.(Order.stop_loss_pct) = Some y
                /\ ~ x == 0 /\ ~ y == 0) \/
   (exists x y, o.(Order.limit_price) = Some x /\ o.(Order.limit_pct) = Some y
                /\ ~ x == 0 /\ ~ y == 0)) /\
  (forall (strategy : Strategy) (row : Bar.t) (st : ExecutionEngine),
     In o (strategy st row) -> (exists e, post_init o = inl e) ->
     exists e, on_bar strategy row st = Raise e st).
Proof.
  split.
  - rewrite post_init_inl_iff, !orb_true_iff.
    pose proof (missing_price_iff o.(Order.order_type) o.(Order.price)) as H1.
    pose proof (sizing_iff o.(Order.qty) o.(Order.cash_amount)) as H2.
    pose proof (both_truthy_iff o.(Order.stop_loss_pct) o.(Order.stop_price)) as H3.
    pose proof (both_truthy_iff o.(Order.limit_pct) o.(Order.limit_price)) as H4.
    rewrite orb_true_iff in H1, H2.
    tauto.
  - intros strategy row st Hin Hfail.
    destruct (construct_all_inl (strategy st row)) as [e He]; [eauto|].
    exists e. unfold on_bar, get, mbind, M_bind. rewrite He. reflexivity.
Qed.

(** C8 as stated fails: both [stop_price] and [stop_loss_pct] are given,
    yet construction succeeds. *)
Lemma zero_stop_price_accepted :
  post_init zero_stop_order = inr tt /\
  zero_stop_order.(Order.stop_price) <> None /\
  zero_stop_order.(Order.stop_loss_pct) <> None.
Proof. split; [reflexivity|split; discriminate]. Qed.

(** ** C2: closing and flipping fills *)

Lemma q_epsilon_pos : 0 < q_epsilon.
Proof. apply Qltb_iff. reflexivity. Qed.

Lemma dict_get_set_eq (k : string) (v : AssetVars.t) (d : Portfolio) :
  dict_get k (dict_set k v d) = Some v.
Proof.
  induction d as [|[k' v'] d IH]; simpl.
  - rewrite String.eqb_refl. reflexivity.
  - destruct (String.eqb k k') eqn:E; simpl; rewrite ?E; [reflexivity|exact IH].
Qed.

(** The bookkeeping of [execute_fill], with the children it spawns
    abstracted: after a fill that [book_fill] settles with trades [nt] in
    state [st1], the trades are appended and the positions are those of
    [st1]. *)
Lemma execute_fill_books (st st1 : ExecutionEngine) (r : nat) (o : Order.t)
    (price : Q) (time : Z) (nt : list Trade.t) :
  st.(orders) !! r = Some o ->
  book_fill o price time st = Ok nt st1 ->
  (state_of (execute_fill r price time st)).(fill_history) = st1.(fill_history) ++ nt /\
  (state_of (execute_fill r price time st)).(portfolio) = st1.(portfolio).
Proof.
  intros Ho Hb. unfold execute_fill. rewrite state_of_bind.
  unfold get_order. rewrite Ho, state_of_bind, Hb, state_of_bind.
  unfold put_order, modify. simpl. rewrite state_of_bind. simpl.
  match goal with
  | |- context [state_of (spawn_brackets ?o ?p ?t ?s)] =>
      destruct (spawn_brackets_books o p t s) as (_ & Hp & Hf)
  end.
  rewrite Hp, Hf. split; reflexivity.
Qed.

Lemma book_fill_close_short (st : ExecutionEngine) (o : Order.t) (a : AssetVars.t)
    (price : Q) (time : Z) :
  dict_get o.(Order.symbol) st.(portfolio) = Some a ->
  o.(Order.side) = LONG -> a.(AssetVars.position_qty) < 0 -> 0 < o.(Order.qty) ->
  let q := o.(Order.qty) in
  let pos := a.(AssetVars.position_qty) in
  let cq := Qmin (Qabs pos) q in
  let fee := q * price * fee_rate o a in
  exists nt st1 t1 rest,
    book_fill o price time st = Ok nt st1 /\ nt = t1 :: rest /\
    st1.(fill_history) = st.(fill_history) /\
    t1.(Trade.side) = LONG /\ t1.(Trade.qty) = cq /\
    t1.(Trade.pnl) = (a.(AssetVars.avg_entry_price) - price) * cq /\
    t1.(Trade.commission) = cq * (fee / q) /\
    (q_epsilon <= q - Qabs pos ->
       exists t2, rest = [t2] /\ t2.(Trade.side) = LONG /\
         t2.(Trade.qty) == q - Qabs pos /\ t2.(Trade.pnl) = 0 /\
         t2.(Trade.commission) == (q - Qabs pos) * (fee / q) /\
         dict_get o.(Order.symbol) st1.(portfolio) =
           Some (AssetVars.set_position (Qabs (Qabs pos - q)) price a)).
Proof.
  intros Ha Hs Hp Hq q pos cq fee.
  unfold book_fill, get_asset, mbind, M_bind, modify, put_asset, mk_trade,
    fresh_uuid, mret, M_ret.
  rewrite Ha, Hs. rewrite (Qleb_false 0 _ Hp). rewrite (Qltb_true 0 _ Hq).
  cbn -[Qmult Qplus Qminus Qopp Qdiv Qabs Qmin Qmax].
  set (rs := Qabs (AssetVars.position_qty a) - Order.qty o).
  destruct (Qltb (- q_epsilon) rs && Qltb rs q_epsilon) eqn:E1;
    [|destruct (Qltb rs 0) eqn:E2; [|destruct (Qeqb rs 0) eqn:E3]];
    cbn -[Qmult Qplus Qminus Qopp Qdiv Qabs Qmin Qmax];
    do 4 eexists; (split; [reflexivity|]); (split; [reflexivity|]);
    (split; [reflexivity|]); (do 4 (split; [reflexivity|])); intros Hf.
  - exfalso. apply andb_true_iff in E1. destruct E1 as [E1 _].
    apply Qltb_iff in E1. unfold rs, q, pos in *. lra.
  - exists (Trade.mk ("uuid-" +:+ pretty (uid st + 1)%N) (Order.id o)
              (Order.symbol o) LONG (Qabs rs) price
              (Qabs rs * (Order.qty o * price * fee_rate o a / Order.qty o))
              time 0).
    apply Qltb_iff in E2.
    assert (Hrs : Qabs rs == q - Qabs pos).
    { rewrite Qabs_neg by lra. unfold rs, q, pos. ring. }
    repeat split.
    + exact Hrs.
    + cbn [Trade.commission]. rewrite Hrs. reflexivity.
    + cbn [portfolio set_portfolio set_balance set_uid]. apply dict_get_set_eq.
  - exfalso. apply Qltb_false_iff in E2. pose proof q_epsilon_pos.
    unfold rs, q, pos in *. lra.
  - exfalso. apply Qltb_false_iff in E2. pose proof q_epsilon_pos.
    unfold rs, q, pos in *. lra.
Qed.

Lemma book_fill_close_long (st : ExecutionEngine) (o : Order.t) (a : AssetVars.t)
    (price : Q) (time : Z) :
  dict_get o.(Order.symbol) st.(portfolio) = Some a ->
  o.(Order.side) = SHORT -> 0 < a.(AssetVars.position_qty) -> 0 < o.(Order.qty) ->
  let q := o.(Order.qty) in
  let pos := a.(AssetVars.position_qty) in
  let cq := Qmin pos q in
  let fee := q * price * fee_rate o a in
  exists nt st1 t1 rest,
    book_fill o price time st = Ok nt st1 /\ nt = t1 :: rest /\
    st1.(fill_history) = st.(fill_history) /\
    t1.(Trade.side) = SHORT /\ t1.(Trade.qty) = cq /\
    t1.(Trade.pnl) = (price - a.(AssetVars.avg_entry_price)) * cq /\
    t1.(Trade.commission) = cq * (fee / q) /\
    (q_epsilon <= q - pos ->
       exists t2, rest = [t2] /\ t2.(Trade.side) = SHORT /\
         t2.(Trade.qty) == q - pos /\ t2.(Trade.pnl) = 0 /\
         t2.(Trade.commission) == (q - pos) * (fee / q) /\
         dict_get o.(Order.symbol) st1.(portfolio) =
           Some (AssetVars.set_position (pos - q) price a)).
Proof.
  intros Ha Hs Hp Hq q pos cq fee.
  unfold book_fill, get_asset, mbind, M_bind, modify, put_asset, mk_trade,
    fresh_uuid, mret, M_ret.
  rewrite Ha, Hs. rewrite (Qleb_false _ 0 Hp). rewrite (Qltb_true 0 _ Hq).
  cbn -[Qmult Qplus Qminus Qopp Qdiv Qabs Qmin Qmax].
  set (rl := AssetVars.position_qty a - Order.qty o).
  destruct (Qltb 0 rl && Qltb rl q_epsilon) eqn:E1;
    [|destruct (Qltb rl 0) eqn:E2; [|destruct (Qeqb rl 0) eqn:E3]];
    cbn -[Qmult Qplus Qminus Qopp Qdiv Qabs Qmin Qmax];
    do 4 eexists; (split; [reflexivity|]); (split; [reflexivity|]);
    (split; [reflexivity|]); (do 4 (split; [reflexivity|])); intros Hf.
  - exfalso. apply andb_true_iff in E1. destruct E1 as [E1 _].
    apply Qltb_iff in E1. pose proof q_epsilon_pos.
    unfold rl, q, pos in *. lra.
  - exists (Trade.mk ("uuid-" +:+ pretty (uid st + 1)%N) (Order.id o)
              (Order.symbol o) SHORT (Qabs rl) price
              (Qabs rl * (Order.qty o * price * fee_rate o a / Order.qty o))
              time 0).
    apply Qltb_iff in E2.
    assert (Hrl : Qabs rl == q - pos).
    { rewrite Qabs_neg by lra. unfold rl, q, pos. ring. }
    repeat split.
    + exact Hrl.
    + cbn [Trade.commission]. rewrite Hrl. reflexivity.
    + cbn [portfolio set_portfolio set_balance set_uid]. apply dict_get_set_eq.
  - exfalso. apply Qltb_false_iff in E2. pose proof q_epsilon_pos.
    unfold rl, q, pos in *. lra.
  - exfalso. apply Qltb_false_iff in E2. pose proof q_epsilon_pos.
    unfold rl, q, pos in *. lra.
Qed.

(** C2 (as the code does it).  Let an order of positive quantity [q] fill
    at [price] against an opposite position of size [|pos|] with average
    entry [avg]; [fee] is the fill's commission and
    [closing_qty = min(|pos|, q)].  The first trade emitted carries
    realized P&L [(price - avg) * closing_qty] when a SHORT fill closes a
    long, [(avg - price) * closing_qty] when a LONG fill closes a short,
    and commission [closing_qty * (fee / q)].  When the residual
    [q - |pos|] is at least the epsilon [1e-9], a second trade follows with
    P&L 0, quantity [q - |pos|] and commission [(q - |pos|) * (fee / q)],
    and the position becomes [q - |pos|] in the filled side's direction at
    average entry [price]. *)
Theorem fill_closing_trades (st : ExecutionEngine) (r : nat) (o : Order.t)
    (a : AssetVars.t) (price : Q) (time : Z) :
  st.(orders) !! r = Some o ->
  dict_get o.(Order.symbol) st.(portfolio) = Some a ->
  0 < o.(Order.qty) ->
  let q := o.(Order.qty) in
  let pos := a.(AssetVars.position_qty) in
  let avg := a.(AssetVars.avg_entry_price) in
  let fee := q * price * fee_rate o a in
  let st' := state_of (execute_fill r price time st) in
  (o.(Order.side) = SHORT -> 0 < pos ->
     exists t1 rest,
       st'.(fill_history) = st.(fill_history) ++ t1 :: rest /\
       t1.(Trade.qty) = Qmin pos q /\
       t1.(Trade.pnl) = (price - avg) * Qmin pos q /\
       t1.(Trade.commission) = Qmin pos q * (fee / q) /\
       (q_epsilon <= q - pos ->
          exists t2 a', rest = [t2] /\ t2.(Trade.pnl) = 0 /\
            t2.(Trade.qty) == q - pos /\
            t2.(Trade.commission) == (q - pos) * (fee / q) /\
            dict_get o.(Order.symbol) st'.(portfolio) = Some a' /\
            a'.(AssetVars.position_qty) == - (q - pos) /\
            a'.(AssetVars.avg_entry_price) = price)) /\
  (o.(Order.side) = LONG -> pos < 0 ->
     exists t1 rest,
       st'.(fill_history) = st.(fill_history) ++ t1 :: rest /\
       t1.(Trade.qty) = Qmin (Qabs pos) q /\
       t1.(Trade.pnl) = (avg - price) * Qmin (Qabs pos) q /\
       t1.(Trade.commission) = Qmin (Qabs pos) q * (fee / q) /\
       (q_epsilon <= q - Qabs pos ->
          exists t2 a', rest = [t2] /\ t2.(Trade.pnl) = 0 /\
            t2.(Trade.qty) == q - Qabs pos /\
            t2.(Trade.commission) == (q - Qabs pos) * (fee / q) /\
            dict_get o.(Order.symbol) st'.(portfolio) = Some a' /\
            a'.(AssetVars.position_qty) == q - Qabs pos /\
            a'.(AssetVars.avg_entry_price) = price)).
Proof.
  intros Ho Ha Hq q pos avg fee st'. split; intros Hs Hp.
  - destruct (book_fill_close_long st o a price time Ha Hs Hp Hq)
      as (nt & st1 & t1 & rest & Hb & -> & Hh & _ & Hq1 & Hpnl & Hc & Hflip).
    destruct (execute_fill_books st st1 r o price time _ Ho Hb) as [Hf Hpf].
    exists t1, rest. split; [unfold st'; rewrite Hf, Hh; reflexivity|].
    split; [exact Hq1|]. split; [exact Hpnl|]. split; [exact Hc|].
    intros He. destruct (Hflip He) as (t2 & -> & _ & Hq2 & Hp2 & Hc2 & Hg).
    exists t2, (AssetVars.set_position (pos - q) price a).
    split; [reflexivity|]. split; [exact Hp2|]. split; [exact Hq2|].
    split; [exact Hc2|]. split; [unfold st'; rewrite Hpf; exact Hg|].
    split; [cbn; unfold pos, q; ring|reflexivity].
  - destruct (book_fill_close_short st o a price time Ha Hs Hp Hq)
      as (nt & st1 & t1 & rest & Hb & -> & Hh & _ & Hq1 & Hpnl & Hc & Hflip).
    destruct (execute_fill_books st st1 r o price time _ Ho Hb) as [Hf Hpf].
    exists t1, rest. split; [unfold st'; rewrite Hf, Hh; reflexivity|].
    split; [exact Hq1|]. split; [exact Hpnl|]. split; [exact Hc|].
    intros He. destruct (Hflip He) as (t2 & -> & _ & Hq2 & Hp2 & Hc2 & Hg).
    exists t2, (AssetVars.set_position (Qabs (Qabs pos - q)) price a).
    split; [reflexivity|]. split; [exact Hp2|]. split; [exact Hq2|].
    split; [exact Hc2|]. split; [unfold st'; rewrite Hpf; exact Hg|].
    split; [cbn [AssetVars.position_qty AssetVars.set_position]|reflexivity].
    rewrite Qabs_neg by (pose proof q_epsilon_pos; lra). ring.
Qed.

(** ** Concrete scenarios *)

(** C2 as stated fails: closing a long by a short-side fill, the claim's
    [(avg_entry - fill_price) * closing_qty] is [-10], while the closing
    trade carries [+10]. *)
Lemma flip_closing_pnl_sign :
  match (state_of (execute_fill 0 110 2 flip_engine)).(fill_history) with
  | [t1; t2] =>
      t1.(Trade.pnl) == 10 /\ ~ t1.(Trade.pnl) == (100 - 110) * t1.(Trade.qty) /\
      t2.(Trade.qty) == 1 /\ t2.(Trade.pnl) == 0
  | _ => False
  end.
Proof.
  vm_compute. split; [reflexivity|]. split; [intros H; discriminate H|].
  split; reflexivity.
Qed.

(** C5 fails on the short-side branch: the residual [-5e-10], smaller than
    the epsilon in magnitude, is stored as the new position instead of
    [0.0] (and an opening trade is emitted for it), while the long-side
    branch snaps the mirrored residual to [0.0]. *)
Theorem short_fill_dust_residual_kept :
  match dict_get "X" (state_of (execute_fill 0 100 2 dust_short_engine)).(portfolio),
        dict_get "X" (state_of (execute_fill 0 100 2 dust_long_engine)).(portfolio) with
  | Some a, Some b =>
      a.(AssetVars.position_qty) == - (1 # 2000000000) /\
      Qabs a.(AssetVars.position_qty) < q_epsilon /\
      ~ a.(AssetVars.position_qty) == 0 /\
      length (state_of (execute_fill 0 100 2 dust_short_engine)).(fill_history) = 2%nat /\
      b.(AssetVars.position_qty) == 0
  | _, _ => False
  end.
Proof.
  vm_compute. split; [reflexivity|]. split; [reflexivity|].
  split; [intros H; discriminate H|]. split; reflexivity.
Qed.

(** C10. The parent fills at the open of the bar; its stop child (STOP
    SHORT at 95, group "P", created at this bar) is appended to the
    open-order list during the same fill loop, examined by it, and fills
    at 95 against this bar's low. *)
Theorem bracket_child_fills_same_bar :
  length bracket_engine.(orders) = 1%nat /\
  match process_bar bracket_bar bracket_engine with
  | Ok _ st' =>
      match st'.(orders) !! 0%nat, st'.(orders) !! 1%nat with
      | Some p, Some c =>
          p.(Order.status) = FILLED /\ p.(Order.fill_price) == 100 /\
          c.(Order.order_type) = STOP /\ c.(Order.side) = SHORT /\
          c.(Order.group_id) = Some "P" /\
          c.(Order.created_at) = Some bracket_bar.(Bar.name) /\
          c.(Order.status) = FILLED /\
          c.(Order.filled_at) = Some bracket_bar.(Bar.name) /\
          c.(Order.fill_price) == 95
      | _, _ => False
      end
  | Raise _ _ => False
  end.
Proof.
  split; [reflexivity|]. vm_compute.
  repeat split; reflexivity.
Qed.

(** ** C4: no lookahead *)

Lemma submit_order_spec (os : list Order.t) (t : Z) (st : ExecutionEngine) :
  exists st', submit_order os t st = Ok tt st' /\
    st'.(orders) = st.(orders) ++ map (submitted t) os /\
    st'.(open_orders) = st.(open_orders) ++ seq (length st.(orders)) (length os) /\
    same_books st st' /\ st'.(equity_curve) = st.(equity_curve).
Proof.
  revert st. induction os as [|o os IH]; intros st; simpl.
  - exists st. rewrite !app_nil_r. repeat split.
  - unfold mbind, M_bind, append_open_order, modify.
    destruct (IH (set_open_orders (open_orders st ++ [length (orders st)])
                   (set_orders (orders st ++ [submitted t o]) st)))
      as (st' & Hs & Ho & Hoo & (Hb & Hp & Hf) & Hc).
    exists st'. unfold submitted in Hs. rewrite Hs. split; [reflexivity|].
    cbn in Ho, Hoo, Hb, Hp, Hf, Hc.
    rewrite length_app in Hoo. simpl in Hoo. rewrite Nat.add_1_r in Hoo.
    rewrite <- !app_assoc in Ho, Hoo. simpl in Ho, Hoo.
    repeat split; assumption.
Qed.

Lemma construct_all_inr (os l : list Order.t) :
  construct_all os = inr l -> l = os.
Proof.
  revert l. induction os as [|o os IH]; simpl; intros l H.
  - injection H as <-. reflexivity.
  - destruct (post_init o); [discriminate|].
    destruct (construct_all os) eqn:E; [discriminate|].
    injection H as <-. f_equal. apply IH. reflexivity.
Qed.

(** C4. Orders a strategy submits while handling bar t are appended to
    [orders] and [open_orders] after bar t's fill loop has run: the
    strategy step neither fills anything nor moves cash, positions, trades
    or the equity curve, and the run continues with bar t+1 from the
    state it leaves, so its orders are first examined on the next bar. *)
Theorem strategy_orders_next_bar (strategy : Strategy) (row : Bar.t)
    (data : list Bar.t) (st st1 st2 : ExecutionEngine) :
  process_bar row st = Ok tt st1 ->
  on_bar strategy row st1 = Ok tt st2 ->
  run (row :: data) strategy st = run data strategy st2 /\
  st2.(orders) = st1.(orders) ++ map (submitted row.(Bar.name)) (strategy st1 row) /\
  st2.(open_orders) =
    st1.(open_orders) ++ seq (length st1.(orders)) (length (strategy st1 row)) /\
  st2.(fill_history) = st1.(fill_history) /\ st2.(balance) = st1.(balance) /\
  st2.(portfolio) = st1.(portfolio) /\ st2.(equity_curve) = st1.(equity_curve).
Proof.
  intros H1 H2.
  assert (Hrun : run (row :: data) strategy st = run data strategy st2).
  { cbn [run]. unfold mbind, M_bind at 1. rewrite H1.
    unfold mbind, M_bind at 1. rewrite H2. reflexivity. }
  split; [exact Hrun|].
  unfold on_bar, mbind, M_bind at 1, get in H2.
  destruct (construct_all (strategy st1 row)) as [e|os] eqn:E;
    [discriminate|].
  apply construct_all_inr in E. subst os.
  destruct (submit_order_spec (strategy st1 row) row.(Bar.name) st1)
    as (st' & Hs & Ho & Hoo & (Hb & Hp & Hf) & Hc).
  rewrite Hs in H2. injection H2 as <-.
  repeat split; assumption.
Qed.

(** ** C1: the equity snapshot of a bar *)

Lemma same_marks_refl st : same_marks st st.
Proof. split; reflexivity. Qed.

Lemma same_marks_trans a b c : same_marks a b -> same_marks b c -> same_marks a c.
Proof. intros [H1 H2] [H3 H4]. split; congruence. Qed.

Lemma marks_dict_set (k : string) (v a : AssetVars.t) (d : Portfolio) :
  dict_get k d = Some a -> v.(AssetVars.last_price) = a.(AssetVars.last_price) ->
  marks (dict_set k v d) = marks d.
Proof.
  unfold marks. induction d as [|[k' v'] d IH]; simpl; intros H E; [discriminate|].
  destruct (String.eqb k k'); simpl.
  - injection H as <-. rewrite E. reflexivity.
  - f_equal. apply IH; assumption.
Qed.

Lemma book_fill_marks (o : Order.t) (price : Q) (time : Z) :
  keeps same_marks (book_fill o price time).
Proof.
  intros st. unfold book_fill, mbind, M_bind at 1, get_asset.
  destruct (dict_get (Order.symbol o) (portfolio st)) as [a|] eqn:Ha;
    [|apply same_marks_refl].
  unfold mbind, M_bind, modify, pydiv, put_asset, mk_trade, fresh_uuid,
    mret, M_ret, throw.
  destruct (Order.side o); crunch;
    (split; cbn [state_of portfolio equity_curve set_balance set_portfolio set_uid];
     [first [reflexivity | apply (marks_dict_set _ _ a); [exact Ha|reflexivity]]
     |reflexivity]).
Qed.

Lemma check_fill_marks (r : nat) (open_p high_p low_p : Q) :
  keeps same_marks (check_fill r open_p high_p low_p).
Proof.
  pose proof same_marks_refl as Hr. pose proof same_marks_trans as Ht.
  unfold check_fill, put_order.
  repeat keeps_step; apply keeps_modify; intros st; split; reflexivity.
Qed.

Lemma spawn_brackets_marks (order : Order.t) (price : Q) (time : Z) :
  keeps same_marks (spawn_brackets order price time).
Proof.
  pose proof same_marks_refl as Hr. pose proof same_marks_trans as Ht.
  unfold spawn_brackets, spawn_child, fresh_uuid, append_open_order.
  repeat keeps_step; intros st; split; reflexivity.
Qed.

Lemma execute_fill_marks (r : nat) (price : Q) (time : Z) :
  keeps same_marks (execute_fill r price time).
Proof.
  pose proof same_marks_refl as Hr. pose proof same_marks_trans as Ht.
  unfold execute_fill, put_order.
  repeat keeps_step;
    first [ apply book_fill_marks | apply spawn_brackets_marks
          | apply keeps_modify; intros st; split; reflexivity ].
Qed.

(** Fills move positions and cash but never a [last_price], nor the
    equity curve. *)
Lemma fill_loop_marks (fuel : nat) (row : Bar.t) (i : nat) :
  keeps same_marks (fill_loop fuel row i).
Proof.
  pose proof same_marks_refl as Hr. pose proof same_marks_trans as Ht.
  revert i. induction fuel as [|fuel IH]; intros i; cbn [fill_loop];
    repeat keeps_step;
    first [ apply IH | apply check_fill_marks | apply execute_fill_marks
          | unfold cancel_group; apply keeps_modify; intros st; split; reflexivity ].
Qed.

Lemma bind_Ok {A B} (m : M A) (f : A -> M B) (st st' : ExecutionEngine) (b : B) :
  (m ≫= f) st = Ok b st' -> exists a st1, m st = Ok a st1 /\ f a st1 = Ok b st'.
Proof. unfold mbind, M_bind. destruct (m st); [eauto|discriminate]. Qed.

Lemma dict_get_None_notin (k : string) (d : Portfolio) :
  dict_get k d = None -> ~ In k (map fst d).
Proof.
  induction d as [|[k' v'] d IH]; simpl; [tauto|].
  destruct (String.eqb k k') eqn:E; [discriminate|].
  apply String.eqb_neq in E. intros H [H'|H']; [congruence|tauto].
Qed.

Lemma dict_set_new (k : string) (v : AssetVars.t) (d : Portfolio) :
  dict_get k d = None -> dict_set k v d = d ++ [(k, v)].
Proof.
  induction d as [|[k' v'] d IH]; simpl; [reflexivity|].
  destruct (String.eqb k k'); [discriminate|]. intros H. rewrite IH; auto.
Qed.

Lemma dict_get_In (k : string) (a : AssetVars.t) (d : Portfolio) :
  NoDup (map fst d) -> In (k, a) d -> dict_get k d = Some a.
Proof.
  induction d as [|[k' v'] d IH]; simpl; [tauto|].
  intros Hn Hin. inversion Hn as [|? ? Hnot Hn']; subst.
  rewrite list_elem_of_In in Hnot.
  destruct Hin as [Heq|Hin].
  - injection Heq as -> ->. rewrite String.eqb_refl. reflexivity.
  - destruct (String.eqb k k') eqn:E.
    + apply String.eqb_eq in E. subst k'. exfalso. apply Hnot.
      apply (in_map fst _ (k, a)). exact Hin.
    + apply IH; assumption.
Qed.

Lemma In_dict_set (k k' : string) (v v' : AssetVars.t) (d : Portfolio) :
  NoDup (map fst d) -> In (k', v') (dict_set k v d) ->
  (k' = k /\ v' = v) \/ (k' <> k /\ In (k', v') d).
Proof.
  induction d as [|[k0 v0] d IH]; simpl; intros Hn Hin.
  - destruct Hin as [Heq|[]]. injection Heq as -> ->. left; split; reflexivity.
  - inversion Hn as [|? ? Hnot Hn']; subst.
    rewrite list_elem_of_In in Hnot.
    destruct (String.eqb k k0) eqn:E.
    + apply String.eqb_eq in E. subst k0. destruct Hin as [Heq|Hin].
      * injection Heq as -> ->. left; split; reflexivity.
      * right. split; [|right; exact Hin]. intros Heq. apply Hnot.
        rewrite <- Heq. apply (in_map fst _ (k', v')). exact Hin.
    + apply String.eqb_neq in E. destruct Hin as [Heq|Hin].
      * injection Heq as -> ->. right. split; [congruence|left; reflexivity].
      * destruct (IH Hn' Hin) as [H|[H1 H2]]; [left; exact H|].
        right. split; [exact H1|right; exact H2].
Qed.

Lemma NoDup_snoc_notin {A} (l : list A) (x : A) :
  NoDup l -> ~ In x l -> NoDup (l ++ [x]).
Proof.
  induction l as [|y l IH]; simpl; intros Hn Hx.
  - apply NoDup_singleton.
  - apply NoDup_cons in Hn as [Hy Hn']. rewrite list_elem_of_In in Hy.
    apply NoDup_cons. split.
    + rewrite list_elem_of_In, in_app_iff. simpl.
      intros [H|[H|[]]]; [tauto|]. apply Hx. left. congruence.
    + apply IH; tauto.
Qed.

Lemma marks_In (p p' : Portfolio) (k : string) (a : AssetVars.t) :
  marks p = marks p' -> In (k, a) p ->
  exists a', In (k, a') p' /\ a'.(AssetVars.last_price) = a.(AssetVars.last_price).
Proof.
  intros Hm Hin.
  assert (H : In (k, a.(AssetVars.last_price)) (marks p')).
  { rewrite <- Hm. unfold marks.
    apply (in_map (fun ka : string * AssetVars.t => (ka.1, ka.2.(AssetVars.last_price))) _ (k, a)).
    exact Hin. }
  unfold marks in H. apply in_map_iff in H as [[k' a'] [Heq Hin']].
  injection Heq as -> E. exists a'. split; assumption.
Qed.

Lemma market_value_sum_aux (pf : Portfolio) (acc : Q) :
  fold_left (fun mv (ka : string * AssetVars.t) =>
    if negb (Qeqb ka.2.(AssetVars.position_qty) 0)
    then mv + ka.2.(AssetVars.position_qty) * ka.2.(AssetVars.last_price)
    else mv) pf acc
  == acc + Qsum (map (fun ka : string * AssetVars.t =>
         ka.2.(AssetVars.position_qty) * ka.2.(AssetVars.last_price)) pf).
Proof.
  revert acc. induction pf as [|[k a] pf IH]; intros acc; cbn [fold_left map].
  - unfold Qsum. simpl. ring.
  - eapply Qeq_trans; [apply IH|]. cbn [snd]. rewrite Qsum_cons.
    destruct (Qeqb (AssetVars.position_qty a) 0) eqn:E; simpl.
    + apply Qeqb_iff in E. rewrite E. ring.
    + ring.
Qed.

Lemma market_value_sum (pf : Portfolio) :
  market_value pf == Qsum (map (fun ka : string * AssetVars.t =>
         ka.2.(AssetVars.position_qty) * ka.2.(AssetVars.last_price)) pf).
Proof.
  unfold market_value. eapply Qeq_trans; [apply market_value_sum_aux|]. ring.
Qed.

Lemma Qsum_map_ext {A} (f g : A -> Q) (l : list A) :
  (forall x, In x l -> f x == g x) -> Qsum (map f l) == Qsum (map g l).
Proof.
  induction l as [|x l IH]; intros H; [reflexivity|].
  cbn [map]. rewrite !Qsum_cons.
  apply Qplus_comp; [apply H; left; reflexivity|apply IH; intros y Hy; apply H; right; exact Hy].
Qed.

(** C1. After each bar, [process_bar] records the pair (bar timestamp,
    equity) at the end of the equity curve, where the equity is the cash
    balance plus the sum over all positions of [position_qty] times a
    mark: the bar's close for the bar's symbol, and for every other symbol
    its last recorded price.  Every symbol held afterwards is the bar's
    symbol or one the portfolio already had. *)
Theorem process_bar_equity (row : Bar.t) (st st' : ExecutionEngine) :
  NoDup (map fst st.(portfolio)) ->
  process_bar row st = Ok tt st' ->
  st'.(equity_curve) = st.(equity_curve) ++ [(row.(Bar.name), st'.(equity))] /\
  st'.(equity) == st'.(balance) + Qsum (map (fun ka : string * AssetVars.t =>
      ka.2.(AssetVars.position_qty) * mark_price row st ka.1) st'.(portfolio)) /\
  (forall k a, In (k, a) st'.(portfolio) ->
     k = row.(Bar.symbol) \/ exists a0, dict_get k st.(portfolio) = Some a0).
Proof.
  intros Hnd H. unfold process_bar in H. cbv zeta in H.
  set (sym := row.(Bar.symbol)) in *.
  apply bind_Ok in H as (s0 & st0 & Hg & H). unfold get in Hg.
  injection Hg as Hs0 Hst0. subst s0 st0.
  apply bind_Ok in H as (u1 & st1 & H1 & H).
  assert (Hp1 : NoDup (map fst st1.(portfolio)) /\
    (forall k a, In (k, a) st1.(portfolio) -> k = sym \/ In (k, a) st.(portfolio)) /\
    st1.(equity_curve) = st.(equity_curve)).
  { destruct (dict_get sym (portfolio st)) eqn:E.
    - unfold mret, M_ret in H1. injection H1 as _ Hs. subst st1.
      split; [exact Hnd|]. split; [intros; right; assumption|reflexivity].
    - unfold put_asset, modify in H1. injection H1 as _ Hs. subst st1.
      cbn [portfolio set_portfolio equity_curve].
      rewrite dict_set_new by exact E. split; [|split].
      + rewrite map_app. cbn [map fst].
        apply NoDup_snoc_notin; [exact Hnd|apply dict_get_None_notin; exact E].
      + intros k a Hin. apply in_app_iff in Hin as [Hin|[Heq|[]]];
          [right; exact Hin|left; congruence].
      + reflexivity. }
  destruct Hp1 as (Hnd1 & Hin1 & Hc1).
  apply bind_Ok in H as (a1 & st2 & H2 & H). unfold get_asset in H2.
  destruct (dict_get sym (portfolio st1)) as [b|] eqn:Ea1; [|discriminate].
  injection H2 as Hb Hs2. subst b st2.
  apply bind_Ok in H as (u2 & st3 & H3 & H). unfold put_asset, modify in H3.
  injection H3 as _ Hs3. subst st3.
  apply bind_Ok in H as (s4 & st4 & H4 & H). unfold get in H4.
  injection H4 as Hs4 Hst4. subst s4 st4.
  apply bind_Ok in H as (u5 & st5 & H5 & H).
  pose proof (fill_loop_marks (3 * length (open_orders (set_portfolio
    (dict_set sym (AssetVars.set_last_price (Bar.close row) a1) (portfolio st1)) st1)) + 1)
    row 0 (set_portfolio
    (dict_set sym (AssetVars.set_last_price (Bar.close row) a1) (portfolio st1)) st1))
    as Hm.
  rewrite H5 in Hm. cbn [state_of] in Hm. destruct Hm as [Hm Hc5].
  cbn [portfolio equity_curve set_portfolio] in Hm, Hc5.
  apply bind_Ok in H as (e & st6 & H6 & H).
  unfold get_equity, get, mbind, M_bind, mret, M_ret in H6.
  injection H6 as He Hs6. subst e st6.
  apply bind_Ok in H as (u7 & st7 & H7 & H). unfold modify in H7.
  injection H7 as _ Hs7. subst st7.
  apply bind_Ok in H as (u8 & st8 & H8 & H). unfold modify in H8.
  injection H8 as _ Hs8. subst st8.
  unfold cleanup_orders, modify in H. injection H as Hs'. subst st'.
  cbn [equity_curve balance portfolio equity set_open_orders set_equity_curve set_equity].
  (* Every position held after the fills is marked as [mark_price] says. *)
  assert (Hmark : forall k a, In (k, a) (portfolio st5) ->
    a.(AssetVars.last_price) = mark_price row st k /\
    (k = sym \/ exists a0, dict_get k (portfolio st) = Some a0)).
  { intros k a Hin. destruct (marks_In _ _ _ _ Hm Hin) as (a2 & Hin2 & Hl).
    rewrite <- Hl. unfold mark_price. fold sym.
    destruct (In_dict_set _ _ _ _ _ Hnd1 Hin2) as [[-> ->]|[Hne Hin3]].
    - rewrite String.eqb_refl. split; [reflexivity|left; reflexivity].
    - destruct (Hin1 _ _ Hin3) as [Hk|Hin4]; [contradiction|].
      apply String.eqb_neq in Hne. rewrite Hne.
      rewrite (dict_get_In _ _ _ Hnd Hin4).
      split; [reflexivity|right; eexists; reflexivity]. }
  split; [|split].
  - rewrite Hc5, Hc1. reflexivity.
  - apply Qplus_comp; [reflexivity|].
    eapply Qeq_trans; [apply market_value_sum|].
    apply Qsum_map_ext. intros [k a] Hin. cbn [fst snd].
    destruct (Hmark k a Hin) as [Hl _]. rewrite Hl. reflexivity.
  - intros k a Hin. apply (Hmark k a Hin).
Qed.

(** ** C3: one-cancels-other groups *)

Lemma cancel_if_idem (g : string) (o : Order.t) :
  cancel_if g (cancel_if g o) = cancel_if g o.
Proof.
  unfold cancel_if.
  destruct (group_eqb (Order.group_id o) g && Status_eqb (Order.status o) PENDING) eqn:E.
  - cbn. rewrite andb_false_r. reflexivity.
  - rewrite E. reflexivity.
Qed.

Lemma cancel_step_lookup (g : string) (os : list Order.t) (r0 r' : nat) :
  (match os !! r0 with
   | Some o =>
       if group_eqb o.(Order.group_id) g && Status_eqb o.(Order.status) PENDING
       then <[r0:=Order.set_status CANCELED o]> os else os
   | None => os
   end) !! r' =
  if decide (r0 = r') then cancel_if g <$> os !! r' else os !! r'.
Proof.
  destruct (os !! r0) as [o|] eqn:E.
  - unfold cancel_if. destruct (decide (r0 = r')) as [<-|Hne].
    + rewrite E. cbn [fmap option_fmap option_map].
      destruct (_ && _).
      * apply list_lookup_insert_eq. apply (lookup_lt_Some _ _ _ E).
      * exact E.
    + destruct (_ && _); [|reflexivity].
      apply list_lookup_insert_ne. exact Hne.
  - destruct (decide (r0 = r')) as [<-|_]; [rewrite E|]; reflexivity.
Qed.

Lemma cancel_group_in_notin (g : string) (refs : list nat) (os : list Order.t) (r' : nat) :
  r' ∉ refs -> cancel_group_in g refs os !! r' = os !! r'.
Proof.
  unfold cancel_group_in. revert os.
  induction refs as [|r0 refs IH]; intros os Hn; cbn [fold_left]; [reflexivity|].
  apply not_elem_of_cons in Hn as [Hne Hn].
  rewrite IH by exact Hn. rewrite cancel_step_lookup.
  destruct (decide (r0 = r')) as [->|_]; [congruence|reflexivity].
Qed.

Lemma cancel_group_in_elem (g : string) (refs : list nat) (os : list Order.t) (r' : nat) :
  r' ∈ refs -> cancel_group_in g refs os !! r' = cancel_if g <$> os !! r'.
Proof.
  revert os.
  induction refs as [|r0 refs IH]; intros os Hn;
    [apply elem_of_nil in Hn; contradiction|].
  destruct (decide (r' ∈ refs)) as [Hin|Hnot].
  - unfold cancel_group_in in *. cbn [fold_left]. rewrite IH by exact Hin.
    rewrite cancel_step_lookup.
    destruct (decide (r0 = r')); [|reflexivity].
    destruct (os !! r'); cbn; [rewrite cancel_if_idem|]; reflexivity.
  - apply elem_of_cons in Hn. destruct Hn as [->|Hn]; [|contradiction].
    unfold cancel_group_in in *. cbn [fold_left].
    pose proof (cancel_group_in_notin g refs) as Hb. unfold cancel_group_in in Hb.
    rewrite Hb by exact Hnot. rewrite cancel_step_lookup.
    destruct (decide (r0 = r0)); [reflexivity|contradiction].
Qed.

Lemma orders_extend_refl st : orders_extend st st.
Proof. intros r o H. exact H. Qed.

Lemma orders_extend_trans a b c :
  orders_extend a b -> orders_extend b c -> orders_extend a c.
Proof. intros H1 H2 r o H. apply H2, H1, H. Qed.

Lemma book_fill_orders (o : Order.t) (price : Q) (time : Z) :
  keeps orders_extend (book_fill o price time).
Proof.
  pose proof orders_extend_refl as Hr. pose proof orders_extend_trans as Ht.
  unfold book_fill, put_asset, mk_trade, fresh_uuid.
  repeat keeps_step;
    first [ apply keeps_modify; intros st r' o' H; exact H
          | intros st r' o' H; exact H ].
Qed.

Lemma spawn_brackets_orders (order : Order.t) (price : Q) (time : Z) :
  keeps orders_extend (spawn_brackets order price time).
Proof.
  pose proof orders_extend_refl as Hr. pose proof orders_extend_trans as Ht.
  unfold spawn_brackets, spawn_child, fresh_uuid, append_open_order.
  repeat keeps_step;
    first [ intros st r' o' H; exact H
          | intros st r' o' H; cbn; apply lookup_app_l_Some; exact H ].
Qed.

Lemma execute_fill_filled (r : nat) (price : Q) (time : Z) (st st' : ExecutionEngine) :
  execute_fill r price time st = Ok tt st' ->
  exists o, st.(orders) !! r = Some o /\
    st'.(orders) !! r = Some (Order.set_filled time price o).
Proof.
  intros H. unfold execute_fill in H.
  apply bind_Ok in H as (o & st1 & H1 & H). unfold get_order in H1.
  destruct (orders st !! r) as [o'|] eqn:Eo; [|discriminate].
  injection H1 as Ho Hs. subst o' st1. exists o. split; [reflexivity|].
  apply bind_Ok in H as (nt & st2 & H2 & H).
  pose proof (book_fill_orders o price time st) as Hb. rewrite H2 in Hb.
  cbn [state_of] in Hb.
  apply bind_Ok in H as (u3 & st3 & H3 & H). unfold put_order, modify in H3.
  injection H3 as _ Hs3. subst st3.
  apply bind_Ok in H as (u4 & st4 & H4 & H). unfold modify in H4.
  injection H4 as _ Hs4. subst st4.
  pose proof (spawn_brackets_orders o price time
    (set_fill_history (fill_history st2 ++ nt)
       (set_orders (<[r:=Order.set_filled time price o]> (orders st2)) st2))) as Hk.
  rewrite H in Hk. cbn [state_of] in Hk. apply Hk. cbn.
  apply list_lookup_insert_eq. apply (lookup_lt_Some _ _ o). apply Hb. exact Eo.
Qed.

(** One step of the fill loop on a grouped order. When the fill loop
    reaches a PENDING order of the bar's symbol
    whose [group_id] is a non-empty string [g] and the order fills (its
    bracket children, tagged with [g], having been appended to
    [open_orders] by the fill), the loop cancels the group before moving
    on: every order referenced by [open_orders] that is PENDING with
    group [g], the fill's own children included, becomes CANCELED; the
    filled order stays FILLED; every other order is left as it was. *)
Lemma fill_step_cancels_group (fuel : nat) (row : Bar.t) (i r : nat) (o : Order.t)
    (g : string) (p : Q) (st st1 st2 : ExecutionEngine) :
  st.(open_orders) !! i = Some r ->
  st.(orders) !! r = Some o ->
  o.(Order.symbol) = row.(Bar.symbol) ->
  o.(Order.status) = PENDING ->
  o.(Order.group_id) = Some g -> g <> ""%string ->
  check_fill r row.(Bar.open) row.(Bar.high) row.(Bar.low) st = Ok (Some p) st1 ->
  execute_fill r p row.(Bar.name) st1 = Ok tt st2 ->
  let st3 := set_orders (cancel_group_in g st2.(open_orders) st2.(orders)) st2 in
  fill_loop (S fuel) row i st = fill_loop fuel row (S i) st3 /\
  (exists o', st3.(orders) !! r = Some o' /\ o'.(Order.status) = FILLED) /\
  (forall r' o', r' ∈ st2.(open_orders) -> st2.(orders) !! r' = Some o' ->
     o'.(Order.group_id) = Some g -> o'.(Order.status) = PENDING ->
     st3.(orders) !! r' = Some (Order.set_status CANCELED o')) /\
  (forall r' o', st2.(orders) !! r' = Some o' ->
     (r' ∉ st2.(open_orders) \/ o'.(Order.group_id) <> Some g \/
      o'.(Order.status) <> PENDING) ->
     st3.(orders) !! r' = Some o').
Proof.
  intros Hi Ho Hs Hst Hg Hne Hc He st3.
  assert (Hkeep : forall r' o', st2.(orders) !! r' = Some o' ->
     (r' ∉ st2.(open_orders) \/ o'.(Order.group_id) <> Some g \/
      o'.(Order.status) <> PENDING) ->
     st3.(orders) !! r' = Some o').
  { intros r' o' Hl Hor. subst st3. cbn [orders set_orders].
    destruct (decide (r' ∈ open_orders st2)) as [Hin|Hnin].
    - rewrite cancel_group_in_elem by exact Hin. rewrite Hl. cbn.
      unfold cancel_if.
      destruct (group_eqb (Order.group_id o') g) eqn:Eg;
        [|reflexivity].
      destruct (Status_eqb (Order.status o') PENDING) eqn:Es;
        [|reflexivity].
      exfalso. destruct Hor as [Hor|[Hor|Hor]]; [contradiction| |].
      + apply Hor. destruct (Order.group_id o') as [v|]; [|discriminate].
        apply String.eqb_eq in Eg. subst v. reflexivity.
      + apply Hor. destruct (Order.status o'); try discriminate; reflexivity.
    - rewrite cancel_group_in_notin by exact Hnin. exact Hl. }
  split; [|split; [|split]].
  - cbn [fill_loop]. unfold mbind, M_bind, get, get_order. cbv beta.
    rewrite Hi, Ho, Hs, Hst, String.eqb_refl. cbn [negb orb Status_eqb].
    rewrite Hc, He, Hg. cbn [truthy_str cast_str].
    assert (Hg' : String.eqb g "" = false) by (apply String.eqb_neq; exact Hne).
    rewrite Hg'. reflexivity.
  - destruct (execute_fill_filled _ _ _ _ _ He) as (o1 & _ & Hf).
    exists (Order.set_filled (Bar.name row) p o1). split; [|reflexivity].
    apply Hkeep; [exact Hf|]. right; right. cbn. discriminate.
  - intros r' o' Hin Hl Hg2 Hs2. subst st3. cbn [orders set_orders].
    rewrite cancel_group_in_elem by exact Hin. rewrite Hl. cbn.
    unfold cancel_if. rewrite Hg2, Hs2. cbn. rewrite String.eqb_refl. reflexivity.
  - exact Hkeep.
Qed.

(** C3 fails for a group whose orders are not all pending at once: the
    order of group "g" submitted on bar 1 fills on bar 2, the one the
    strategy submits on bar 2 with the same group fills on bar 3, and a
    replay ends with two FILLED orders in group "g". *)
Lemma oco_group_filled_twice :
  exists st, run oco_bars oco_strategy (init 10000 [] 1) = Ok tt st /\
    filled_in_group "g" st.(orders) = [("o1", Some 2%Z); ("o2", Some 3%Z)].
Proof.
  exists (state_of (run oco_bars oco_strategy (init 10000 [] 1))).
  split; vm_compute; reflexivity.
Qed.

(** ** Instances of the theorems on concrete engines *)

Lemma check_fill_stop_witness :
  check_fill 0 100 101 90 stop_engine = Ok (Some 95) stop_engine.
Proof.
  destruct (check_fill_stop stop_engine 0 stop_order 95 100 101 90
              eq_refl eq_refl eq_refl) as [Hs _].
  destruct (Hs eq_refl) as (_ & H & _).
  apply H; apply Qle_bool_iff; reflexivity.
Defined.

Lemma execute_fill_cash_witness :
  (state_of (execute_fill 0 100 1 limit_engine)).(balance)
    = 10000 - (2 * 100 + 2 * 100 * (5 / 10000)).
Proof.
  pose proof (execute_fill_cash limit_engine 0 limit_order limit_asset 100 1
                eq_refl eq_refl) as H.
  cbv zeta in H. destruct H as [H _]. exact (H eq_refl).
Defined.

Lemma available_funds_formula_witness :
  exists v, get_available_funds short_engine = Ok v short_engine /\ v == 4900.
Proof.
  destruct (available_funds_formula short_engine) as (v & Hv & _ & He).
  - vm_compute. discriminate.
  - exists v. split; [exact Hv|]. eapply Qeq_trans.
    + apply He. intros k a [H|[]] _. injection H as _ <-. apply Qle_bool_iff. reflexivity.
    + reflexivity.
Defined.

(** The documented flip: long 1 @ 100 closed by a market sell of 2 at 110. *)
Lemma fill_closing_trades_witness :
  exists t1 rest,
    (state_of (execute_fill 0 110 1 flip_engine)).(fill_history) = t1 :: rest /\
    t1.(Trade.pnl) = (110 - 100) * Qmin 1 2.
Proof.
  pose proof (fill_closing_trades flip_engine 0
                (Order.make "s" "X" SHORT MARKET 2 None None "B")
                (AssetVars.mk "X" 1 100 100 0 0) 110 1
                eq_refl eq_refl ltac:(reflexivity)) as H.
  cbv zeta in H. destruct H as [H _].
  destruct (H eq_refl ltac:(reflexivity)) as (t1 & rest & Hh & _ & Hp & _).
  exists t1, rest. split; [exact Hh|exact Hp].
Defined.

Lemma process_bar_equity_witness :
  let st' := state_of (process_bar equity_bar equity_engine) in
  st'.(equity_curve) = [(1%Z, st'.(equity))] /\
  st'.(equity) == st'.(balance) + Qsum (map (fun ka : string * AssetVars.t =>
      ka.2.(AssetVars.position_qty) * mark_price equity_bar equity_engine ka.1)
      st'.(portfolio)).
Proof.
  destruct (process_bar_equity equity_bar equity_engine
              (state_of (process_bar equity_bar equity_engine)))
    as (Hc & He & _).
  - cbn. apply NoDup_cons. split; [|apply NoDup_singleton].
    rewrite list_elem_of_In. intros [H|[]]. discriminate.
  - vm_compute. reflexivity.
  - split; [exact Hc|exact He].
Defined.

Lemma strategy_orders_next_bar_witness :
  let st1 := state_of (process_bar c4_bar (init 10000 [] 1)) in
  let st2 := state_of (on_bar oco_strategy c4_bar st1) in
  run [c4_bar] oco_strategy (init 10000 [] 1) = run [] oco_strategy st2 /\
  st2.(orders) = st1.(orders) ++ map (submitted 1) (oco_strategy st1 c4_bar) /\
  st2.(fill_history) = st1.(fill_history).
Proof.
  destruct (strategy_orders_next_bar oco_strategy c4_bar [] (init 10000 [] 1)
              (state_of (process_bar c4_bar (init 10000 [] 1)))
              (state_of (on_bar oco_strategy c4_bar
                 (state_of (process_bar c4_bar (init 10000 [] 1))))))
    as (Hr & Ho & _ & Hf & _).
  - vm_compute. reflexivity.
  - vm_compute. reflexivity.
  - split; [exact Hr|split; [exact Ho|exact Hf]].
Defined.

(** * Further properties of the engine *)

(** ** [_check_fill] *)

Lemma check_fill_trigger (st : ExecutionEngine) (r : nat) (o : Order.t)
    (open_p high_p low_p : Q) :
  st.(orders) !! r = Some o -> o.(Order.order_type) <> MARKET ->
  check_fill r open_p high_p low_p st =
    match trigger_fill o.(Order.order_type) o.(Order.side) o.(Order.price)
            open_p high_p low_p with
    | inl e => Raise e st
    | inr x => Ok x st
    end.
Proof.
  intros Hr Hk. unfold check_fill, mbind, M_bind at 1, get_order. rewrite Hr.
  destruct (Order.order_type o); [contradiction| | | ];
    destruct (trigger_fill _ _ _ _ _ _); reflexivity.
Qed.

(** A LIMIT order with limit price [p]: a buy fills at [min(open, p)]
    when the bar's low reaches [p], a sell at [max(open, p)] when the
    bar's high reaches [p]; otherwise neither fills.  The state is left
    unchanged. *)
Theorem check_fill_limit (st : ExecutionEngine) (r : nat) (o : Order.t)
    (p open_p high_p low_p : Q) :
  st.(orders) !! r = Some o ->
  o.(Order.order_type) = LIMIT ->
  o.(Order.price) = Some p ->
  (o.(Order.side) = LONG ->
     (low_p <= p -> check_fill r open_p high_p low_p st = Ok (Some (Qmin open_p p)) st) /\
     (p < low_p -> check_fill r open_p high_p low_p st = Ok None st)) /\
  (o.(Order.side) = SHORT ->
     (p <= high_p -> check_fill r open_p high_p low_p st = Ok (Some (Qmax open_p p)) st) /\
     (high_p < p -> check_fill r open_p high_p low_p st = Ok None st)).
Proof.
  intros Hr Hk Hp.
  rewrite (check_fill_trigger st r o) by (try exact Hr; rewrite Hk; discriminate).
  rewrite Hk, Hp. split; intros Hs; rewrite Hs; cbn [trigger_fill Side_eqb andb].
  - split; intros H.
    + apply Qleb_iff in H. rewrite H. reflexivity.
    + rewrite (Qleb_false _ _ H). reflexivity.
  - split; intros H.
    + apply Qleb_iff in H. rewrite H. reflexivity.
    + rewrite (Qleb_false _ _ H). reflexivity.
Qed.

(** A MARKET order always fills at the bar's open.  With a zero (falsy)
    [cash_amount] the state is unchanged; with a non-zero one the order's
    quantity is first set to [cash_amount / open], and a zero open then
    raises [ZeroDivisionError]. *)
Theorem check_fill_market (st : ExecutionEngine) (r : nat) (o : Order.t)
    (open_p high_p low_p : Q) :
  st.(orders) !! r = Some o ->
  o.(Order.order_type) = MARKET ->
  (o.(Order.cash_amount) == 0 ->
     check_fill r open_p high_p low_p st = Ok (Some open_p) st) /\
  (~ o.(Order.cash_amount) == 0 -> ~ open_p == 0 ->
     check_fill r open_p high_p low_p st =
       Ok (Some open_p)
          (set_orders (<[r:=Order.set_qty (o.(Order.cash_amount) / open_p) o]>
                         st.(orders)) st)) /\
  (~ o.(Order.cash_amount) == 0 -> open_p == 0 ->
     check_fill r open_p high_p low_p st = Raise ZeroDivisionError st).
Proof.
  intros Hr Hk. unfold check_fill, mbind, M_bind, get_order. rewrite Hr, Hk.
  cbn [truthy]. split; [|split].
  - intros Hc. apply Qeqb_iff in Hc. rewrite Hc. reflexivity.
  - intros Hc Ho. destruct (Qeqb (Order.cash_amount o) 0) eqn:E.
    { apply Qeqb_iff in E. contradiction. }
    unfold pydiv. destruct (Qeqb open_p 0) eqn:E2.
    { apply Qeqb_iff in E2. contradiction. }
    reflexivity.
  - intros Hc Ho. destruct (Qeqb (Order.cash_amount o) 0) eqn:E.
    { apply Qeqb_iff in E. contradiction. }
    unfold pydiv. apply Qeqb_iff in Ho. rewrite Ho. reflexivity.
Qed.

(** Orders [_check_fill] never fills: a STOP_LIMIT order, and a LIMIT or
    STOP order of side FLAT.  A LIMIT or STOP order of side LONG or SHORT
    without a price raises [TypeError] (comparing a float with [None]). *)
Theorem check_fill_unfillable (st : ExecutionEngine) (r : nat) (o : Order.t)
    (open_p high_p low_p : Q) :
  st.(orders) !! r = Some o ->
  (o.(Order.order_type) = STOP_LIMIT ->
     check_fill r open_p high_p low_p st = Ok None st) /\
  ((o.(Order.order_type) = LIMIT \/ o.(Order.order_type) = STOP) ->
     o.(Order.side) = FLAT -> check_fill r open_p high_p low_p st = Ok None st) /\
  ((o.(Order.order_type) = LIMIT \/ o.(Order.order_type) = STOP) ->
     o.(Order.side) <> FLAT -> o.(Order.price) = None ->
     check_fill r open_p high_p low_p st = Raise TypeError st).
Proof.
  intros Hr. split; [|split].
  - intros Hk. rewrite (check_fill_trigger st r o) by (try exact Hr; rewrite Hk; discriminate).
    rewrite Hk. reflexivity.
  - intros Hk Hs.
    rewrite (check_fill_trigger st r o)
      by (try exact Hr; destruct Hk as [Hk|Hk]; rewrite Hk; discriminate).
    rewrite Hs. destruct Hk as [Hk|Hk]; rewrite Hk;
      destruct (Order.price o); cbn [trigger_fill Side_eqb andb]; try reflexivity.
  - intros Hk Hs Hp.
    rewrite (check_fill_trigger st r o)
      by (try exact Hr; destruct Hk as [Hk|Hk]; rewrite Hk; discriminate).
    rewrite Hp. destruct Hk as [Hk|Hk]; rewrite Hk;
      destruct (Order.side o); try contradiction; reflexivity.
Qed.

(** ** [_execute_fill]: opening, adding to and reducing positions *)

Lemma book_fill_open (st : ExecutionEngine) (o : Order.t) (a : AssetVars.t)
    (price : Q) (time : Z) :
  dict_get o.(Order.symbol) st.(portfolio) = Some a -> 0 < o.(Order.qty) ->
  let q := o.(Order.qty) in
  let pos := a.(AssetVars.position_qty) in
  let avg := a.(AssetVars.avg_entry_price) in
  let fee := q * price * fee_rate o a in
  (o.(Order.side) = LONG -> 0 <= pos ->
     exists t st1, book_fill o price time st = Ok [t] st1 /\
       st1.(fill_history) = st.(fill_history) /\
       t.(Trade.side) = LONG /\ t.(Trade.qty) = q /\ t.(Trade.price) = price /\
       t.(Trade.commission) = fee /\ t.(Trade.pnl) = 0 /\
       dict_get o.(Order.symbol) st1.(portfolio) =
         Some (AssetVars.set_position (pos + q) ((pos * avg + q * price) / (pos + q)) a)) /\
  (o.(Order.side) = SHORT -> pos <= 0 ->
     exists t st1, book_fill o price time st = Ok [t] st1 /\
       st1.(fill_history) = st.(fill_history) /\
       t.(Trade.side) = SHORT /\ t.(Trade.qty) = q /\ t.(Trade.price) = price /\
       t.(Trade.commission) = fee /\ t.(Trade.pnl) = 0 /\
       dict_get o.(Order.symbol) st1.(portfolio) =
         Some (AssetVars.set_position (pos - q)
                 ((Qabs pos * avg + q * price) / (Qabs pos + q)) a)).
Proof.
  intros Ha Hq q pos avg fee. unfold q, pos, avg, fee in *. split; intros Hs Hp;
    unfold book_fill, get_asset, mbind, M_bind, modify, put_asset, mk_trade,
      fresh_uuid, mret, M_ret, pydiv;
    rewrite Ha, Hs.
  - apply Qleb_iff in Hp. rewrite Hp.
    destruct (Qeqb (AssetVars.position_qty a + Order.qty o) 0) eqn:E.
    { exfalso. apply Qeqb_iff in E. apply Qleb_iff in Hp. unfold q, pos in *. lra. }
    cbn -[Qmult Qplus Qminus Qopp Qdiv Qabs Qmin Qmax].
    do 2 eexists. repeat split. apply dict_get_set_eq.
  - apply Qleb_iff in Hp. rewrite Hp.
    destruct (Qeqb (Qabs (AssetVars.position_qty a) + Order.qty o) 0) eqn:E.
    { exfalso. apply Qeqb_iff in E. pose proof (Qabs_nonneg (AssetVars.position_qty a)).
      unfold q in *. lra. }
    cbn -[Qmult Qplus Qminus Qopp Qdiv Qabs Qmin Qmax].
    do 2 eexists. repeat split. apply dict_get_set_eq.
Qed.

Lemma book_fill_reduce (st : ExecutionEngine) (o : Order.t) (a : AssetVars.t)
    (price : Q) (time : Z) :
  dict_get o.(Order.symbol) st.(portfolio) = Some a -> 0 < o.(Order.qty) ->
  let q := o.(Order.qty) in
  let pos := a.(AssetVars.position_qty) in
  (o.(Order.side) = SHORT -> 0 < pos -> q <= pos ->
     exists t st1, book_fill o price time st = Ok [t] st1 /\
       st1.(fill_history) = st.(fill_history) /\
       t.(Trade.side) = SHORT /\ t.(Trade.qty) = Qmin pos q /\
       (pos - q < q_epsilon ->
          dict_get o.(Order.symbol) st1.(portfolio) = Some (AssetVars.set_position 0 0 a)) /\
       (q_epsilon <= pos - q ->
          dict_get o.(Order.symbol) st1.(portfolio) = Some (AssetVars.set_qty (pos - q) a))) /\
  (o.(Order.side) = LONG -> pos < 0 -> - q_epsilon < Qabs pos - q ->
     exists t st1, book_fill o price time st = Ok [t] st1 /\
       st1.(fill_history) = st.(fill_history) /\
       t.(Trade.side) = LONG /\ t.(Trade.qty) = Qmin (Qabs pos) q /\
       (Qabs pos - q < q_epsilon ->
          dict_get o.(Order.symbol) st1.(portfolio) = Some (AssetVars.set_position 0 0 a)) /\
       (q_epsilon <= Qabs pos - q ->
          dict_get o.(Order.symbol) st1.(portfolio) = Some (AssetVars.set_qty (pos + q) a))).
Proof.
  intros Ha Hq q pos. unfold q, pos in *. pose proof q_epsilon_pos as He.
  split; intros Hs Hp Hr;
    unfold book_fill, get_asset, mbind, M_bind, modify, put_asset, mk_trade,
      fresh_uuid, mret, M_ret;
    rewrite Ha, Hs; rewrite (Qltb_true 0 _ Hq).
  - rewrite (Qleb_false _ 0 Hp).
    cbn -[Qmult Qplus Qminus Qopp Qdiv Qabs Qmin Qmax].
    set (rl := AssetVars.position_qty a - Order.qty o).
    assert (Hrl : 0 <= rl) by (unfold rl, q, pos in *; lra).
    destruct (Qltb 0 rl && Qltb rl q_epsilon) eqn:E1.
    + cbn -[Qmult Qplus Qminus Qopp Qdiv Qabs Qmin Qmax].
      do 2 eexists. split; [reflexivity|]. do 3 (split; [reflexivity|]).
      split; [intros; apply dict_get_set_eq|].
      intros H. exfalso. apply andb_true_iff in E1 as [_ E1].
      apply Qltb_iff in E1. unfold rl, q, pos in *. lra.
    + rewrite (Qltb_false rl 0 Hrl).
      destruct (Qeqb rl 0) eqn:E3;
        cbn -[Qmult Qplus Qminus Qopp Qdiv Qabs Qmin Qmax];
        do 2 eexists; (split; [reflexivity|]); do 3 (split; [reflexivity|]);
        split; intros H; try apply dict_get_set_eq; exfalso.
      * apply Qeqb_iff in E3. unfold rl, q, pos in *. lra.
      * apply andb_false_iff in E1 as [E1|E1]; apply Qltb_false_iff in E1.
        -- assert (rl == 0) by lra. apply Qeqb_iff in H0. congruence.
        -- unfold rl, q, pos in *. lra.
  - rewrite (Qleb_false 0 _ Hp).
    cbn -[Qmult Qplus Qminus Qopp Qdiv Qabs Qmin Qmax].
    set (rs := Qabs (AssetVars.position_qty a) - Order.qty o).
    destruct (Qltb (- q_epsilon) rs && Qltb rs q_epsilon) eqn:E1.
    + cbn -[Qmult Qplus Qminus Qopp Qdiv Qabs Qmin Qmax].
      do 2 eexists. split; [reflexivity|]. do 3 (split; [reflexivity|]).
      split; [intros; apply dict_get_set_eq|].
      intros H. exfalso. apply andb_true_iff in E1 as [_ E1].
      apply Qltb_iff in E1. unfold rs, q, pos in *. lra.
    + apply andb_false_iff in E1 as [E1|E1]; apply Qltb_false_iff in E1;
        [exfalso; unfold rs, q, pos in *; lra|].
      assert (Hrs : 0 <= rs) by lra.
      rewrite (Qltb_false rs 0 Hrs).
      destruct (Qeqb rs 0) eqn:E3;
        cbn -[Qmult Qplus Qminus Qopp Qdiv Qabs Qmin Qmax];
        do 2 eexists; (split; [reflexivity|]); do 3 (split; [reflexivity|]);
        split; intros H; try apply dict_get_set_eq; exfalso.
      * apply Qeqb_iff in E3. unfold rs, q, pos in *. lra.
      * unfold rs, q, pos in *. lra.
Qed.

(** Filling an order of positive quantity [q] at [price] in the direction of
    the current position (or from flat): a LONG fill on a position [pos >= 0]
    or a SHORT fill on [pos <= 0] moves the position by [q], re-averages the
    entry price by quantity, and records exactly one trade for the full
    quantity with the whole commission and a zero realised PnL. *)
Theorem execute_fill_open (st : ExecutionEngine) (r : nat) (o : Order.t)
    (a : AssetVars.t) (price : Q) (time : Z) :
  st.(orders) !! r = Some o ->
  dict_get o.(Order.symbol) st.(portfolio) = Some a -> 0 < o.(Order.qty) ->
  let st' := state_of (execute_fill r price time st) in
  let q := o.(Order.qty) in
  let pos := a.(AssetVars.position_qty) in
  let avg := a.(AssetVars.avg_entry_price) in
  let fee := q * price * fee_rate o a in
  (o.(Order.side) = LONG -> 0 <= pos ->
     exists t, st'.(fill_history) = st.(fill_history) ++ [t] /\
       t.(Trade.side) = LONG /\ t.(Trade.qty) = q /\ t.(Trade.price) = price /\
       t.(Trade.commission) = fee /\ t.(Trade.pnl) = 0 /\
       dict_get o.(Order.symbol) st'.(portfolio) =
         Some (AssetVars.set_position (pos + q) ((pos * avg + q * price) / (pos + q)) a)) /\
  (o.(Order.side) = SHORT -> pos <= 0 ->
     exists t, st'.(fill_history) = st.(fill_history) ++ [t] /\
       t.(Trade.side) = SHORT /\ t.(Trade.qty) = q /\ t.(Trade.price) = price /\
       t.(Trade.commission) = fee /\ t.(Trade.pnl) = 0 /\
       dict_get o.(Order.symbol) st'.(portfolio) =
         Some (AssetVars.set_position (pos - q)
                 ((Qabs pos * avg + q * price) / (Qabs pos + q)) a)).
Proof.
  intros Ho Ha Hq st' q pos avg fee.
  destruct (book_fill_open st o a price time Ha Hq) as [HL HS].
  split; intros Hs Hp.
  - destruct (HL Hs Hp) as (t & st1 & Hb & Hf & H1 & H2 & H3 & H4 & H5 & H6).
    destruct (execute_fill_books st st1 r o price time [t] Ho Hb) as [E1 E2].
    exists t. unfold st'. rewrite E1, E2, Hf. repeat split; assumption.
  - destruct (HS Hs Hp) as (t & st1 & Hb & Hf & H1 & H2 & H3 & H4 & H5 & H6).
    destruct (execute_fill_books st st1 r o price time [t] Ho Hb) as [E1 E2].
    exists t. unfold st'. rewrite E1, E2, Hf. repeat split; assumption.
Qed.

(** Filling an order of positive quantity against the current position
    without crossing through flat: a SHORT fill of [q <= pos] on a long
    position, or a LONG fill with [|pos| - q > -epsilon] on a short position,
    records exactly one trade, for the closed quantity [min(|pos|, q)].  The
    position is set flat (quantity and average entry price 0) when the
    residual [|pos| - q] is below epsilon, and otherwise is reduced by [q]
    with the average entry price left unchanged. *)
Theorem execute_fill_reduce (st : ExecutionEngine) (r : nat) (o : Order.t)
    (a : AssetVars.t) (price : Q) (time : Z) :
  st.(orders) !! r = Some o ->
  dict_get o.(Order.symbol) st.(portfolio) = Some a -> 0 < o.(Order.qty) ->
  let st' := state_of (execute_fill r price time st) in
  let q := o.(Order.qty) in
  let pos := a.(AssetVars.position_qty) in
  (o.(Order.side) = SHORT -> 0 < pos -> q <= pos ->
     exists t, st'.(fill_history) = st.(fill_history) ++ [t] /\
       t.(Trade.side) = SHORT /\ t.(Trade.qty) = Qmin pos q /\
       (pos - q < q_epsilon ->
          dict_get o.(Order.symbol) st'.(portfolio) = Some (AssetVars.set_position 0 0 a)) /\
       (q_epsilon <= pos - q ->
          dict_get o.(Order.symbol) st'.(portfolio) = Some (AssetVars.set_qty (pos - q) a))) /\
  (o.(Order.side) = LONG -> pos < 0 -> - q_epsilon < Qabs pos - q ->
     exists t, st'.(fill_history) = st.(fill_history) ++ [t] /\
       t.(Trade.side) = LONG /\ t.(Trade.qty) = Qmin (Qabs pos) q /\
       (Qabs pos - q < q_epsilon ->
          dict_get o.(Order.symbol) st'.(portfolio) = Some (AssetVars.set_position 0 0 a)) /\
       (q_epsilon <= Qabs pos - q ->
          dict_get o.(Order.symbol) st'.(portfolio) = Some (AssetVars.set_qty (pos + q) a))).
Proof.
  intros Ho Ha Hq st' q pos.
  destruct (book_fill_reduce st o a price time Ha Hq) as [HS HL].
  split; intros Hs Hp Hr.
  - destruct (HS Hs Hp Hr) as (t & st1 & Hb & Hf & H1 & H2 & H3 & H4).
    destruct (execute_fill_books st st1 r o price time [t] Ho Hb) as [E1 E2].
    exists t. unfold st'. rewrite E1, E2, Hf. repeat split; assumption.
  - destruct (HL Hs Hp Hr) as (t & st1 & Hb & Hf & H1 & H2 & H3 & H4).
    destruct (execute_fill_books st st1 r o price time [t] Ho Hb) as [E1 E2].
    exists t. unfold st'. rewrite E1, E2, Hf. repeat split; assumption.
Qed.

(** ** [_execute_fill]: the order itself and its bracket children *)

Lemma spawn_child_Ok (o : Order.t) (s : Side) (k : OrderType) (p q : Q) (time : Z)
    (st st' : ExecutionEngine) :
  spawn_child o s k p q time st = Ok tt st' ->
  exists c, st'.(orders) = st.(orders) ++ [c] /\
    st'.(open_orders) = st.(open_orders) ++ [length st.(orders)] /\
    st'.(fill_history) = st.(fill_history) /\ st'.(balance) = st.(balance) /\
    st'.(portfolio) = st.(portfolio) /\
    c.(Order.status) = PENDING /\ c.(Order.created_at) = Some time /\
    c.(Order.strategy_name) = o.(Order.strategy_name) /\
    c.(Order.symbol) = o.(Order.symbol) /\
    c.(Order.side) = s /\ c.(Order.order_type) = k /\
    c.(Order.qty) = q /\ 0 < q /\ c.(Order.price) = Some p /\
    c.(Order.group_id) = (if truthy_str o.(Order.group_id) then o.(Order.group_id)
                          else Some o.(Order.id)).
Proof.
  unfold spawn_child, fresh_uuid, mbind, M_bind.
  match goal with
  | |- context [post_init ?c] => destruct (post_init c) as [e|[]] eqn:Ep
  end; [unfold throw; discriminate|].
  unfold append_open_order, modify. intros H. injection H as <-.
  eexists. cbn. repeat split.
  unfold post_init in Ep. cbn in Ep.
  destruct (Qlt_le_dec 0 q) as [Hq|Hq]; [exact Hq|].
  apply Qleb_iff in Hq. rewrite Hq in Ep.
  destruct k; cbn in Ep; discriminate.
Qed.

Lemma spawn_brackets_Ok (o : Order.t) (price : Q) (time : Z) (st st' : ExecutionEngine) :
  spawn_brackets o price time st = Ok tt st' ->
  let side' := if Side_eqb o.(Order.side) LONG then SHORT else LONG in
  let child_ok (c : Order.t) :=
    c.(Order.status) = PENDING /\ c.(Order.created_at) = Some time /\
    c.(Order.strategy_name) = o.(Order.strategy_name) /\
    c.(Order.symbol) = o.(Order.symbol) /\ c.(Order.side) = side' /\
    0 < c.(Order.qty) /\
    c.(Order.group_id) = (if truthy_str o.(Order.group_id) then o.(Order.group_id)
                          else Some o.(Order.id)) in
  exists ks kl,
    st'.(orders) = st.(orders) ++ ks ++ kl /\
    st'.(open_orders) = st.(open_orders) ++ seq (length st.(orders)) (length (ks ++ kl)) /\
    st'.(fill_history) = st.(fill_history) /\ st'.(balance) = st.(balance) /\
    st'.(portfolio) = st.(portfolio) /\
    (truthy o.(Order.stop_price) || truthy o.(Order.stop_loss_pct) = false -> ks = []) /\
    (truthy o.(Order.stop_price) || truthy o.(Order.stop_loss_pct) = true ->
       exists c, ks = [c] /\ child_ok c /\ c.(Order.order_type) = STOP /\
         c.(Order.qty) = or_else o.(Order.stop_qty) (o.(Order.qty) * (1 + o.(Order.revenge))) /\
         c.(Order.price) = Some (if truthy o.(Order.stop_price) then cast_float o.(Order.stop_price)
                                 else if Side_eqb side' SHORT
                                 then price * (1 - cast_float o.(Order.stop_loss_pct))
                                 else price * (1 + cast_float o.(Order.stop_loss_pct)))) /\
    (truthy o.(Order.limit_price) || truthy o.(Order.limit_pct) = false -> kl = []) /\
    (truthy o.(Order.limit_price) || truthy o.(Order.limit_pct) = true ->
       exists c, kl = [c] /\ child_ok c /\ c.(Order.order_type) = LIMIT /\
         c.(Order.qty) = or_else o.(Order.limit_qty) o.(Order.qty) /\
         c.(Order.price) = Some (if truthy o.(Order.limit_price) then cast_float o.(Order.limit_price)
                                 else if Side_eqb side' SHORT
                                 then price * (1 + cast_float o.(Order.limit_pct))
                                 else price * (1 - cast_float o.(Order.limit_pct)))).
Proof.
  intros H side' child_ok. unfold spawn_brackets in H.
  apply bind_Ok in H as ([] & st1 & H1 & H2).
  destruct (truthy (Order.stop_price o) || truthy (Order.stop_loss_pct o)) eqn:Es;
  destruct (truthy (Order.limit_price o) || truthy (Order.limit_pct o)) eqn:El.
  - apply spawn_child_Ok in H1
      as (c1 & O1 & P1 & F1 & B1 & Pf1 & S1 & T1 & N1 & Y1 & D1 & K1 & Q1 & Hq1 & R1 & G1).
    apply spawn_child_Ok in H2
      as (c2 & O2 & P2 & F2 & B2 & Pf2 & S2 & T2 & N2 & Y2 & D2 & K2 & Q2 & Hq2 & R2 & G2).
    exists [c1], [c2]. split; [rewrite O2, O1, <- app_assoc; reflexivity|].
    split; [rewrite P2, P1, O1, <- app_assoc, length_app; cbn;
            rewrite Nat.add_1_r; reflexivity|].
    split; [congruence|]. split; [congruence|]. split; [congruence|].
    split; [discriminate|]. split.
    { intros _. exists c1. split; [reflexivity|]. rewrite K1, Q1, R1.
      repeat split; try assumption; congruence. }
    split; [discriminate|].
    intros _. exists c2. split; [reflexivity|]. rewrite K2, Q2, R2.
    repeat split; try assumption; congruence.
  - apply spawn_child_Ok in H1
      as (c1 & O1 & P1 & F1 & B1 & Pf1 & S1 & T1 & N1 & Y1 & D1 & K1 & Q1 & Hq1 & R1 & G1).
    unfold mret, M_ret in H2. injection H2 as <-.
    exists [c1], []. split; [rewrite O1; reflexivity|].
    split; [rewrite P1; reflexivity|].
    split; [congruence|]. split; [congruence|]. split; [congruence|].
    split; [discriminate|]. split.
    { intros _. exists c1. split; [reflexivity|]. rewrite K1, Q1, R1.
      repeat split; try assumption; congruence. }
    split; [reflexivity|]. discriminate.
  - unfold mret, M_ret in H1. injection H1 as <-.
    apply spawn_child_Ok in H2
      as (c2 & O2 & P2 & F2 & B2 & Pf2 & S2 & T2 & N2 & Y2 & D2 & K2 & Q2 & Hq2 & R2 & G2).
    exists [], [c2]. split; [rewrite O2; reflexivity|].
    split; [rewrite P2; reflexivity|].
    split; [congruence|]. split; [congruence|]. split; [congruence|].
    split; [reflexivity|]. split; [discriminate|].
    split; [discriminate|].
    intros _. exists c2. split; [reflexivity|]. rewrite K2, Q2, R2.
    repeat split; try assumption; congruence.
  - unfold mret, M_ret in H1, H2. injection H1 as <-. injection H2 as <-.
    exists [], []. split; [rewrite app_nil_r; reflexivity|].
    split; [rewrite app_nil_r; reflexivity|].
    repeat split; discriminate.
Qed.

Lemma book_fill_frame (o : Order.t) (price : Q) (time : Z) :
  keeps (fun s s' => s'.(orders) = s.(orders) /\ s'.(open_orders) = s.(open_orders) /\
                     s'.(fill_history) = s.(fill_history))
        (book_fill o price time).
Proof.
  assert (Hr : forall s : ExecutionEngine,
            s.(orders) = s.(orders) /\ s.(open_orders) = s.(open_orders) /\
            s.(fill_history) = s.(fill_history)) by (intros; repeat split).
  assert (Ht : forall a b c : ExecutionEngine,
            b.(orders) = a.(orders) /\ b.(open_orders) = a.(open_orders) /\
            b.(fill_history) = a.(fill_history) ->
            c.(orders) = b.(orders) /\ c.(open_orders) = b.(open_orders) /\
            c.(fill_history) = b.(fill_history) ->
            c.(orders) = a.(orders) /\ c.(open_orders) = a.(open_orders) /\
            c.(fill_history) = a.(fill_history)) by (intros; intuition congruence).
  unfold book_fill, put_asset, mk_trade, fresh_uuid.
  repeat keeps_step;
    first [ apply keeps_modify; intros s; cbn; repeat split
          | intros s; cbn; repeat split ].
Qed.

(** A successful [_execute_fill] of the order at reference [r] books the
    fill ([fill_history] grows by exactly the trades the booking step
    returns, and balance and portfolio are the ones it leaves), marks that
    order FILLED at the fill time and price, changes no other order, and
    appends at most two bracket children to [orders] and to [open_orders]:
    each PENDING, created at the fill time, on the parent's symbol and
    strategy, on the opposite side (LONG for any non-LONG parent), with a
    positive quantity and the parent's group id (or the parent's id when it
    has none). *)
Theorem execute_fill_outcome (r : nat) (price : Q) (time : Z) (st st' : ExecutionEngine) :
  execute_fill r price time st = Ok tt st' ->
  exists o nt st1 kids,
    st.(orders) !! r = Some o /\
    book_fill o price time st = Ok nt st1 /\
    st'.(fill_history) = st.(fill_history) ++ nt /\
    st'.(balance) = st1.(balance) /\ st'.(portfolio) = st1.(portfolio) /\
    st'.(orders) = <[r:=Order.set_filled time price o]> st.(orders) ++ kids /\
    st'.(open_orders) = st.(open_orders) ++ seq (length st.(orders)) (length kids) /\
    (length kids <= 2)%nat /\
    Forall (fun c =>
      c.(Order.status) = PENDING /\ c.(Order.created_at) = Some time /\
      c.(Order.strategy_name) = o.(Order.strategy_name) /\
      c.(Order.symbol) = o.(Order.symbol) /\
      c.(Order.side) = (if Side_eqb o.(Order.side) LONG then SHORT else LONG) /\
      0 < c.(Order.qty) /\
      c.(Order.group_id) = (if truthy_str o.(Order.group_id) then o.(Order.group_id)
                            else Some o.(Order.id))) kids.
Proof.
  intros H. unfold execute_fill in H.
  apply bind_Ok in H as (o & st0 & H0 & H). unfold get_order in H0.
  destruct (orders st !! r) as [o'|] eqn:Eo; [|discriminate].
  injection H0 as Ho Hs0. subst o' st0.
  apply bind_Ok in H as (nt & st1 & H1 & H).
  pose proof (book_fill_frame o price time st) as Hf. rewrite H1 in Hf.
  cbn [state_of] in Hf. destruct Hf as (Fo & Fp & Fh).
  apply bind_Ok in H as (u3 & st3 & H3 & H). unfold put_order, modify in H3.
  injection H3 as _ <-.
  apply bind_Ok in H as (u4 & st4 & H4 & H). unfold modify in H4.
  injection H4 as _ <-.
  apply spawn_brackets_Ok in H
    as (ks & kl & O & P & F & B & Pf & Ks0 & Ks1 & Kl0 & Kl1).
  cbn in O, P, F, B, Pf.
  exists o, nt, st1, (ks ++ kl). split; [reflexivity|]. split; [exact H1|].
  split; [rewrite F, Fh; reflexivity|]. split; [exact B|]. split; [exact Pf|].
  split; [rewrite O, Fo; reflexivity|].
  split; [rewrite P, Fp, length_insert, Fo; reflexivity|].
  destruct (truthy (Order.stop_price o) || truthy (Order.stop_loss_pct o));
    [destruct (Ks1 eq_refl) as (c1 & -> & Hc1 & _) | rewrite (Ks0 eq_refl)];
  (destruct (truthy (Order.limit_price o) || truthy (Order.limit_pct o));
    [destruct (Kl1 eq_refl) as (c2 & -> & Hc2 & _) | rewrite (Kl0 eq_refl)]);
  cbn; (split; [lia|]);
  repeat first [apply List.Forall_nil | apply List.Forall_cons; [assumption|]].
Qed.

Lemma execute_fill_Ok_split (r : nat) (price : Q) (time : Z) (st st' : ExecutionEngine) :
  execute_fill r price time st = Ok tt st' ->
  exists o nt st1, st.(orders) !! r = Some o /\ book_fill o price time st = Ok nt st1 /\
    st1.(orders) = st.(orders) /\
    spawn_brackets o price time
      (set_fill_history (st1.(fill_history) ++ nt)
         (set_orders (<[r:=Order.set_filled time price o]> st1.(orders)) st1)) = Ok tt st'.
Proof.
  intros H. unfold execute_fill in H.
  apply bind_Ok in H as (o & st0 & H0 & H). unfold get_order in H0.
  destruct (orders st !! r) as [o'|] eqn:Eo; [|discriminate].
  injection H0 as Ho Hs0. subst o' st0.
  apply bind_Ok in H as (nt & st1 & H1 & H).
  pose proof (book_fill_frame o price time st) as Hf. rewrite H1 in Hf.
  cbn [state_of] in Hf. destruct Hf as (Fo & _ & _).
  apply bind_Ok in H as (u3 & st3 & H3 & H). unfold put_order, modify in H3.
  injection H3 as _ <-.
  apply bind_Ok in H as (u4 & st4 & H4 & H). unfold modify in H4.
  injection H4 as _ <-.
  exists o, nt, st1. repeat split; assumption.
Qed.

(** The bracket children of a successful fill of the order [o] at
    reference [r], with [n] the number of orders before the fill: a stop
    directive ([stop_price] or [stop_loss_pct] truthy) puts at reference [n]
    a STOP order on the opposite side, listed in [open_orders], for
    [stop_qty or qty * (1 + revenge)], at [stop_price] when given and
    otherwise at the fill price moved by [stop_loss_pct] against the parent
    (down for a LONG parent, up otherwise); a limit directive puts right after
    it (at [n], or [n + 1] when there is a stop child) a LIMIT order on the
    opposite side, listed in [open_orders], for [limit_qty or qty], at
    [limit_price] when given and otherwise at the fill price moved by
    [limit_pct] in the parent's favour; with neither directive no order is
    added. *)
Theorem execute_fill_brackets (r : nat) (o : Order.t) (price : Q) (time : Z)
    (st st' : ExecutionEngine) :
  st.(orders) !! r = Some o ->
  execute_fill r price time st = Ok tt st' ->
  let n := length st.(orders) in
  let side' := if Side_eqb o.(Order.side) LONG then SHORT else LONG in
  let has_stop := truthy o.(Order.stop_price) || truthy o.(Order.stop_loss_pct) in
  let has_limit := truthy o.(Order.limit_price) || truthy o.(Order.limit_pct) in
  (has_stop = true ->
     exists c, st'.(orders) !! n = Some c /\ n ∈ st'.(open_orders) /\
       c.(Order.order_type) = STOP /\ c.(Order.side) = side' /\
       c.(Order.qty) = or_else o.(Order.stop_qty) (o.(Order.qty) * (1 + o.(Order.revenge))) /\
       c.(Order.price) = Some (if truthy o.(Order.stop_price) then cast_float o.(Order.stop_price)
                               else if Side_eqb o.(Order.side) LONG
                               then price * (1 - cast_float o.(Order.stop_loss_pct))
                               else price * (1 + cast_float o.(Order.stop_loss_pct)))) /\
  (has_limit = true ->
     let m := if has_stop then S n else n in
     exists c, st'.(orders) !! m = Some c /\ m ∈ st'.(open_orders) /\
       c.(Order.order_type) = LIMIT /\ c.(Order.side) = side' /\
       c.(Order.qty) = or_else o.(Order.limit_qty) o.(Order.qty) /\
       c.(Order.price) = Some (if truthy o.(Order.limit_price) then cast_float o.(Order.limit_price)
                               else if Side_eqb o.(Order.side) LONG
                               then price * (1 + cast_float o.(Order.limit_pct))
                               else price * (1 - cast_float o.(Order.limit_pct)))) /\
  (has_stop = false -> has_limit = false ->
     length st'.(orders) = n /\ st'.(open_orders) = st.(open_orders)).
Proof.
  intros Ho H n side' has_stop has_limit.
  apply execute_fill_Ok_split in H as (o' & nt & st1 & Ho' & H1 & Fo & H).
  rewrite Ho in Ho'. injection Ho' as <-.
  pose proof (book_fill_frame o price time st) as Hf. rewrite H1 in Hf.
  cbn [state_of] in Hf. destruct Hf as (_ & Fp & _).
  apply spawn_brackets_Ok in H as (ks & kl & O & P & _ & _ & _ & Ks0 & Ks1 & Kl0 & Kl1).
  cbn in O, P. rewrite Fo in O. rewrite Fp, length_insert, Fo in P.
  assert (Hside : Side_eqb (if Side_eqb o.(Order.side) LONG then SHORT else LONG) SHORT
                 = Side_eqb o.(Order.side) LONG)
    by (destruct (Order.side o); reflexivity).
  assert (Hlen : length (<[r:=Order.set_filled time price o]> (orders st)) = n)
    by (rewrite length_insert; reflexivity).
  split; [|split].
  - intros Hs. destruct (Ks1 Hs) as (c & -> & Hc & Hk & Hq & Hp).
    exists c. rewrite O. split.
    + rewrite lookup_app_r by lia. rewrite Hlen, Nat.sub_diag. reflexivity.
    + split; [rewrite P; apply list_elem_of_In, in_or_app; right; cbn; left; reflexivity|].
      rewrite Hk, Hq, Hp, Hside. destruct Hc as (_ & _ & _ & _ & Hd & _).
      repeat split; assumption.
  - intros Hl m. destruct (Kl1 Hl) as (c & -> & Hc & Hk & Hq & Hp).
    exists c. rewrite Hk, Hq, Hp, Hside. destruct Hc as (_ & _ & _ & _ & Hd & _).
    assert (Hks : ks = [] /\ m = n \/ (exists c1, ks = [c1]) /\ m = S n).
    { unfold m. destruct has_stop eqn:Hs.
      - destruct (Ks1 Hs) as (c1 & -> & _). right. eauto.
      - left. split; [apply Ks0; exact Hs|reflexivity]. }
    rewrite O, P.
    destruct Hks as [[-> ->]|[[c1 ->] ->]]; cbn.
    + rewrite lookup_app_r by lia. rewrite Hlen, Nat.sub_diag.
      split; [reflexivity|]. split; [apply list_elem_of_In, in_or_app; right; cbn; left; reflexivity|].
      repeat split; assumption.
    + rewrite lookup_app_r by lia. rewrite Hlen. replace (S n - n)%nat with 1%nat by lia.
      split; [reflexivity|].
      split; [apply list_elem_of_In, in_or_app; right; cbn; right; left; lia|].
      repeat split; assumption.
  - intros Hs Hl. rewrite (Ks0 Hs), (Kl0 Hl) in O, P. cbn in O, P.
    rewrite O, P, app_nil_r, app_nil_r. split; [exact Hlen|reflexivity].
Qed.

(** A fill of a FLAT-side order of a registered symbol moves no cash,
    changes no position and records no trade, yet the order is marked
    FILLED at the fill time and price (bracket children aside). *)
Theorem execute_fill_flat (st : ExecutionEngine) (r : nat) (o : Order.t)
    (a : AssetVars.t) (price : Q) (time : Z) :
  st.(orders) !! r = Some o ->
  dict_get o.(Order.symbol) st.(portfolio) = Some a ->
  o.(Order.side) = FLAT ->
  let st' := state_of (execute_fill r price time st) in
  st'.(balance) = st.(balance) /\ st'.(portfolio) = st.(portfolio) /\
  st'.(fill_history) = st.(fill_history) /\
  st'.(orders) !! r = Some (Order.set_filled time price o).
Proof.
  intros Ho Ha Hs st'.
  assert (Hb : book_fill o price time st = Ok [] st).
  { unfold book_fill, get_asset, mbind, M_bind. rewrite Ha, Hs. reflexivity. }
  unfold st', execute_fill. rewrite state_of_bind.
  unfold get_order. rewrite Ho, state_of_bind, Hb, state_of_bind.
  unfold put_order, modify. cbn [state_of]. rewrite state_of_bind. cbn [state_of].
  set (s2 := set_fill_history _ _).
  destruct (spawn_brackets_books o price time s2) as (B & P & F).
  pose proof (spawn_brackets_orders o price time s2 r) as Hk.
  rewrite B, P, F. cbn. rewrite app_nil_r.
  repeat split. apply Hk. cbn.
  apply list_lookup_insert_eq. apply (lookup_lt_Some _ _ o). exact Ho.
Qed.

(** [_execute_fill] on an order whose symbol has no portfolio entry raises
    [KeyError] before touching anything: the engine state is unchanged and
    the order stays as it was. *)
Theorem execute_fill_unregistered (st : ExecutionEngine) (r : nat) (o : Order.t)
    (price : Q) (time : Z) :
  st.(orders) !! r = Some o ->
  dict_get o.(Order.symbol) st.(portfolio) = None ->
  execute_fill r price time st = Raise KeyError st.
Proof.
  intros Ho Ha. unfold execute_fill, get_order, mbind, M_bind at 1. rewrite Ho.
  unfold book_fill, get_asset, mbind, M_bind. rewrite Ha. reflexivity.
Qed.

(** ** [cancel_all_orders], [register_asset] *)

Lemma cancel_all_step_lookup (os : list Order.t) (r r' : nat) :
  (match os !! r with
   | Some o => <[r:=Order.set_status CANCELED o]> os
   | None => os
   end) !! r' =
  if decide (r = r') then Order.set_status CANCELED <$> os !! r' else os !! r'.
Proof.
  destruct (os !! r) as [o|] eqn:E.
  - destruct (decide (r = r')) as [<-|Hne].
    + rewrite E. apply list_lookup_insert_eq. apply (lookup_lt_Some _ _ o), E.
    + apply list_lookup_insert_ne, Hne.
  - destruct (decide (r = r')) as [<-|]; [rewrite E|]; reflexivity.
Qed.

Lemma cancel_all_fold_lookup (refs : list nat) (os : list Order.t) (r' : nat) :
  fold_left (fun os r =>
    match os !! r with
    | Some o => <[r:=Order.set_status CANCELED o]> os
    | None => os
    end) refs os !! r' =
  if decide (r' ∈ refs) then Order.set_status CANCELED <$> os !! r' else os !! r'.
Proof.
  revert os. induction refs as [|r0 refs IH]; intros os; cbn [fold_left].
  - destruct (decide (r' ∈ [])) as [Hn|]; [apply elem_of_nil in Hn; contradiction|].
    reflexivity.
  - rewrite IH, cancel_all_step_lookup.
    destruct (decide (r' ∈ r0 :: refs)) as [Hc|Hc];
      destruct (decide (r' ∈ refs)) as [Hin|Hnot];
      destruct (decide (r0 = r')) as [Heq|Hne];
      first [ destruct (os !! r'); reflexivity
            | exfalso; apply Hc; apply elem_of_cons; auto
            | apply elem_of_cons in Hc as [Hc|Hc]; [congruence|contradiction] ].
Qed.

(** [cancel_all_orders] (also reached through [Strategy.cancel_all])
    empties [open_orders] and marks CANCELED exactly the orders it
    referenced, whatever their status; every other order, the cash, the
    portfolio and the trade history are left as they were. *)
Theorem cancel_all_orders_spec (st : ExecutionEngine) :
  exists st', cancel_all_orders st = Ok tt st' /\
    st'.(open_orders) = [] /\
    (forall r, st'.(orders) !! r =
       if decide (r ∈ st.(open_orders))
       then Order.set_status CANCELED <$> st.(orders) !! r
       else st.(orders) !! r) /\
    length st'.(orders) = length st.(orders) /\
    st'.(balance) = st.(balance) /\ st'.(portfolio) = st.(portfolio) /\
    st'.(fill_history) = st.(fill_history).
Proof.
  eexists. split; [reflexivity|]. cbn. split; [reflexivity|].
  split; [intros r; apply cancel_all_fold_lookup|].
  split; [|repeat split].
  generalize (orders st). induction (open_orders st) as [|r0 refs IH];
    intros os; cbn [fold_left]; [reflexivity|].
  rewrite IH. destruct (os !! r0); [apply length_insert|reflexivity].
Qed.

(** [register_asset] never overwrites: for a symbol already in the
    portfolio it changes nothing (the existing position is kept), and a new
    symbol is appended at the end of the portfolio with the given asset
    record. *)
Theorem register_asset_spec (st : ExecutionEngine) (asset : AssetVars.t) :
  (forall a, dict_get asset.(AssetVars.symbol) st.(portfolio) = Some a ->
     register_asset asset st = Ok tt st) /\
  (dict_get asset.(AssetVars.symbol) st.(portfolio) = None ->
     register_asset asset st =
       Ok tt (set_portfolio (st.(portfolio) ++ [(asset.(AssetVars.symbol), asset)]) st)).
Proof.
  unfold register_asset, get, mbind, M_bind. split.
  - intros a Ha. rewrite Ha. reflexivity.
  - intros Ha. rewrite Ha. unfold put_asset, modify. rewrite dict_set_new by exact Ha.
    reflexivity.
Qed.

(** ** [flatten] *)

Lemma flatten_cancel_spec (targets : list string) (n : nat) (st : ExecutionEngine) :
  (n <= length st.(open_orders))%nat ->
  Forall (fun r => is_Some (st.(orders) !! r)) st.(open_orders) ->
  exists st', flatten_cancel targets n st = Ok tt st' /\
    st'.(open_orders) =
      List.filter (flatten_keep targets st.(orders)) (take n st.(open_orders))
      ++ drop n st.(open_orders) /\
    (forall r, st'.(orders) !! r =
       flatten_cancel_order targets (take n st.(open_orders)) r <$> st.(orders) !! r) /\
    st'.(balance) = st.(balance) /\ st'.(portfolio) = st.(portfolio) /\
    st'.(fill_history) = st.(fill_history) /\ st'.(uid) = st.(uid) /\
    st'.(equity_curve) = st.(equity_curve).
Proof.
  revert st. induction n as [|i IH]; intros st Hn Hv.
  - exists st. split; [reflexivity|]. split; [reflexivity|].
    split; [|repeat split].
    intros r. destruct (orders st !! r); [|reflexivity]. cbn. unfold flatten_cancel_order.
    rewrite bool_decide_false by apply not_elem_of_nil. reflexivity.
  - set (l := open_orders st) in *.
    destruct (lookup_lt_is_Some_2 l i) as [x Hx]; [lia|].
    assert (Hox : is_Some (orders st !! x)).
    { eapply Forall_lookup_1 in Hv; [exact Hv|exact Hx]. }
    destruct Hox as [o Ho].
    cbn [flatten_cancel]. unfold get, mbind, M_bind. fold l. rewrite Hx.
    unfold get_order. rewrite Ho. cbv beta iota.
    destruct (in_targets targets (Order.symbol o)) eqn:Ehit.
    + unfold put_order, modify.
      set (s1 := set_open_orders (delete i (open_orders
                   (set_orders (<[x:=Order.set_status CANCELED o]> (orders st)) st)))
                 (set_orders (<[x:=Order.set_status CANCELED o]> (orders st)) st)).
      assert (Hl1 : open_orders s1 = take i l ++ drop (S i) l)
        by (cbn; apply delete_take_drop).
      assert (Ho1 : orders s1 = <[x:=Order.set_status CANCELED o]> (orders st)) by reflexivity.
      assert (Hlen1 : length (open_orders s1) = (length l - 1)%nat).
      { rewrite Hl1, length_app, length_take_le, length_drop by lia. lia. }
      destruct (IH s1) as (st' & Hs & Hoo & Hor & Hb & Hp & Hf & Hu & He).
      { lia. }
      { rewrite Hl1. apply Forall_app. split.
        - apply Forall_forall. intros r Hr. rewrite Ho1.
          apply (Forall_forall _ l) with (x := r) in Hv.
          + destruct (decide (r = x)) as [->|Hne];
              [rewrite list_lookup_insert_eq; [eauto|apply (lookup_lt_Some _ _ o), Ho]|].
            rewrite list_lookup_insert_ne by congruence. exact Hv.
          + apply elem_of_take in Hr as (j & Hj & _). eapply list_elem_of_lookup_2, Hj.
        - apply Forall_forall. intros r Hr. rewrite Ho1.
          apply (Forall_forall _ l) with (x := r) in Hv.
          + destruct (decide (r = x)) as [->|Hne];
              [rewrite list_lookup_insert_eq; [eauto|apply (lookup_lt_Some _ _ o), Ho]|].
            rewrite list_lookup_insert_ne by congruence. exact Hv.
          + apply list_elem_of_lookup in Hr as (j & Hj). rewrite lookup_drop in Hj.
            eapply list_elem_of_lookup_2, Hj. }
      assert (Ht : take i (open_orders s1) = take i l).
      { rewrite Hl1. apply take_app_length'. rewrite length_take_le; lia. }
      assert (Hd : drop i (open_orders s1) = drop (S i) l).
      { rewrite Hl1. apply drop_app_length'. rewrite length_take_le; lia. }
      exists st'. split; [exact Hs|].
      assert (Hkeep : forall r, flatten_keep targets (orders s1) r =
                                flatten_keep targets (orders st) r).
      { intros r. rewrite Ho1. unfold flatten_keep.
        destruct (decide (r = x)) as [->|Hne].
        - rewrite list_lookup_insert_eq by (apply (lookup_lt_Some _ _ o), Ho).
          rewrite Ho. reflexivity.
        - rewrite list_lookup_insert_ne by congruence. reflexivity. }
      split.
      { rewrite Hoo, Ht, Hd, (take_S_r _ _ _ Hx), List.filter_app.
        rewrite (List.filter_ext _ _ Hkeep). cbn [List.filter].
        assert (Hkx : flatten_keep targets (orders st) x = false)
          by (unfold flatten_keep; rewrite Ho, Ehit; reflexivity).
        rewrite Hkx, !app_nil_r. reflexivity. }
      split; [|cbn in Hb, Hp, Hf, Hu, He; repeat split; assumption].
      intros r. rewrite Hor, Ht, Ho1, (take_S_r _ _ _ Hx).
      unfold flatten_cancel_order.
      destruct (decide (r = x)) as [->|Hne].
      * rewrite list_lookup_insert_eq by (apply (lookup_lt_Some _ _ o), Ho).
        rewrite Ho. cbn. rewrite Ehit.
        rewrite (bool_decide_true (x ∈ take i l ++ [x]))
          by (apply elem_of_app; right; apply list_elem_of_singleton; reflexivity).
        destruct (bool_decide (x ∈ take i l)); reflexivity.
      * rewrite list_lookup_insert_ne by congruence.
        destruct (orders st !! r); [|reflexivity]. cbn.
        assert (Hiff : r ∈ take i l ++ [x] <-> r ∈ take i l).
        { rewrite elem_of_app, list_elem_of_singleton. intuition congruence. }
        rewrite (bool_decide_ext _ _ Hiff). reflexivity.
    + unfold mret, M_ret.
      destruct (IH st) as (st' & Hs & Hoo & Hor & Hrest); [unfold l in *; lia|exact Hv|].
      exists st'. split; [exact Hs|]. split.
      { fold l in Hoo. rewrite Hoo, (take_S_r _ _ _ Hx), List.filter_app, (drop_S _ _ _ Hx).
        cbn [List.filter].
        assert (Hkx : flatten_keep targets (orders st) x = true)
          by (unfold flatten_keep; rewrite Ho, Ehit; reflexivity).
        rewrite Hkx, <- app_assoc. reflexivity. }
      split; [|exact Hrest].
      intros r. fold l in Hor. rewrite Hor, (take_S_r _ _ _ Hx).
      destruct (orders st !! r) as [o'|] eqn:Eo'; [|reflexivity]. cbn.
      unfold flatten_cancel_order. f_equal.
      destruct (decide (r = x)) as [->|Hne].
      * rewrite Ho in Eo'. injection Eo' as <-. rewrite Ehit, !andb_false_r. reflexivity.
      * assert (Hiff : r ∈ take i l ++ [x] <-> r ∈ take i l).
        { rewrite elem_of_app, list_elem_of_singleton. intuition congruence. }
        rewrite (bool_decide_ext _ _ Hiff). reflexivity.
Qed.

Lemma flatten_close_spec (targets : list string) (st : ExecutionEngine) :
  exists cs st', flatten_close targets st = Ok cs st' /\
    st'.(orders) = st.(orders) /\ st'.(open_orders) = st.(open_orders) /\
    st'.(balance) = st.(balance) /\ st'.(portfolio) = st.(portfolio) /\
    st'.(fill_history) = st.(fill_history) /\ st'.(equity_curve) = st.(equity_curve) /\
    Forall (fun c => exists a,
      c.(Order.symbol) ∈ targets /\
      dict_get c.(Order.symbol) st.(portfolio) = Some a /\
      q_epsilon <= Qabs a.(AssetVars.position_qty) /\
      (0 < a.(AssetVars.position_qty) -> c.(Order.side) = SHORT) /\
      (a.(AssetVars.position_qty) < 0 -> c.(Order.side) = LONG) /\
      c.(Order.order_type) = MARKET /\ c.(Order.qty) = Qabs a.(AssetVars.position_qty) /\
      c.(Order.strategy_name) = "flatten"%string) cs /\
    (forall sym a, dict_get sym st.(portfolio) = Some a ->
       q_epsilon <= Qabs a.(AssetVars.position_qty) ->
       length (List.filter (fun c => String.eqb c.(Order.symbol) sym) cs) =
       List.count_occ String.string_dec targets sym).
Proof.
  revert st. induction targets as [|sym rest IH]; intros st.
  - exists [], st. split; [reflexivity|]. do 6 (split; [reflexivity|]).
    split; [constructor|]. intros; reflexivity.
  - cbn [flatten_close]. unfold get, mbind, M_bind.
    destruct (dict_get sym (portfolio st)) as [a|] eqn:Ea.
    2:{ destruct (IH st) as (cs & st' & Hs & O & P & B & Pf & F & E & Hf & Hc).
        unfold mret, M_ret. rewrite Hs. exists cs, st'.
        split; [reflexivity|]. do 6 (split; [assumption|]). split.
        - eapply Forall_impl; [exact Hf|]. cbn. intros c (a' & Hin & Hrest).
          exists a'. split; [apply elem_of_cons; right; exact Hin|exact Hrest].
        - intros sym' a' Ha' He. rewrite (Hc sym' a' Ha' He). cbn.
          destruct (String.string_dec sym sym') as [->|]; [congruence|reflexivity]. }
    destruct (Qltb (Qabs (AssetVars.position_qty a)) q_epsilon) eqn:Eq.
    + destruct (IH st) as (cs & st' & Hs & O & P & B & Pf & F & E & Hf & Hc).
      unfold mret, M_ret. rewrite Hs. exists cs, st'.
      split; [reflexivity|]. do 6 (split; [assumption|]). split.
      * eapply Forall_impl; [exact Hf|]. cbn. intros c (a' & Hin & Hrest).
        exists a'. split; [apply elem_of_cons; right; exact Hin|exact Hrest].
      * intros sym' a' Ha' He. rewrite (Hc sym' a' Ha' He). cbn.
        destruct (String.string_dec sym sym') as [->|]; [|reflexivity].
        rewrite Ea in Ha'. injection Ha' as ->. apply Qltb_iff in Eq.
        exfalso. apply (Qlt_not_le _ _ Eq He).
    + apply Qltb_false_iff in Eq.
      set (pos := AssetVars.position_qty a) in *.
      assert (Hpos : 0 < Qabs pos) by (pose proof q_epsilon_pos; lra).
      set (c := Order.make "flatten" sym (if Qltb 0 pos then SHORT else LONG) MARKET
                  (Qabs pos) None None ("uuid-" +:+ pretty (uid st))).
      assert (Hpi : post_init c = inr tt).
      { unfold post_init. cbn. rewrite (Qleb_false _ 0 Hpos), (Qltb_false 0 0 (Qle_refl 0)).
        rewrite andb_false_l, andb_false_r. reflexivity. }
      unfold fresh_uuid. fold c. rewrite Hpi.
      set (s1 := set_uid (uid st + 1)%N st).
      destruct (IH s1) as (cs & st' & Hs & O & P & B & Pf & F & E & Hf & Hc).
      unfold mret, M_ret. rewrite Hs. exists (c :: cs), st'.
      split; [reflexivity|]. do 6 (split; [assumption|]). split.
      * constructor.
        -- exists a. cbn. split; [apply elem_of_cons; left; reflexivity|].
           split; [exact Ea|]. split; [exact Eq|].
           split; [intros Hp; unfold pos; rewrite (Qltb_true _ _ Hp); reflexivity|].
           split; [intros Hp; unfold pos; rewrite (Qltb_false _ _ (Qlt_le_weak _ _ Hp));
                   reflexivity|].
           repeat split.
        -- eapply Forall_impl; [exact Hf|]. cbn. intros c' (a' & Hin & Hrest).
           exists a'. split; [apply elem_of_cons; right; exact Hin|exact Hrest].
      * intros sym' a' Ha' He. cbn [List.filter count_occ]. unfold c at 1.
        cbn [Order.symbol Order.make].
        destruct (String.string_dec sym sym') as [->|Hne].
        -- rewrite String.eqb_refl. cbn [length]. rewrite (Hc sym' a' Ha' He). reflexivity.
        -- apply String.eqb_neq in Hne. rewrite Hne. exact (Hc sym' a' Ha' He).
Qed.

Lemma length_lookup_fmap {A} (l1 l2 : list A) (f : nat -> A -> A) :
  (forall r, l1 !! r = f r <$> l2 !! r) -> length l1 = length l2.
Proof.
  intros H.
  assert (Hi : forall r, (r < length l1 <-> r < length l2)%nat).
  { intros r. rewrite <- !lookup_lt_is_Some, H.
    destruct (l2 !! r); cbn; split; intros [? E]; try discriminate; eauto. }
  destruct (Nat.lt_total (length l1) (length l2)) as [Hl|[Hl|Hl]]; [|exact Hl|].
  - apply Hi in Hl. lia.
  - apply Hi in Hl. lia.
Qed.

(** [flatten] (every reference in [open_orders] pointing at an order):
    with [targets] the given symbols, or every portfolio symbol when none are
    given, it cancels and drops from [open_orders] exactly the open orders of
    a target symbol (whatever their status), keeping the others in order;
    it then submits, as new PENDING orders created at [current_time], one
    "flatten" MARKET order per occurrence in [targets] of each symbol held
    with [abs(qty) >= q_epsilon] (a symbol listed twice is closed twice), for
    the whole [abs(qty)] on the side that closes the position, and no other
    order; it moves no cash and changes no position or trade history. *)
Theorem flatten_spec (current_time : Z) (symbols : option (list string))
    (st : ExecutionEngine) :
  Forall (fun r => is_Some (st.(orders) !! r)) st.(open_orders) ->
  let targets := match symbols with
                 | None => map fst st.(portfolio)
                 | Some l => l
                 end in
  exists st' cs, flatten current_time symbols st = Ok tt st' /\
    st'.(open_orders) =
      List.filter (flatten_keep targets st.(orders)) st.(open_orders)
      ++ seq (length st.(orders)) (length cs) /\
    (forall r, (r < length st.(orders))%nat ->
       st'.(orders) !! r =
         flatten_cancel_order targets st.(open_orders) r <$> st.(orders) !! r) /\
    drop (length st.(orders)) st'.(orders) = map (submitted current_time) cs /\
    Forall (fun c => exists a,
      c.(Order.symbol) ∈ targets /\
      dict_get c.(Order.symbol) st.(portfolio) = Some a /\
      q_epsilon <= Qabs a.(AssetVars.position_qty) /\
      (0 < a.(AssetVars.position_qty) -> c.(Order.side) = SHORT) /\
      (a.(AssetVars.position_qty) < 0 -> c.(Order.side) = LONG) /\
      c.(Order.order_type) = MARKET /\ c.(Order.qty) = Qabs a.(AssetVars.position_qty) /\
      c.(Order.strategy_name) = "flatten"%string) cs /\
    (forall sym a, dict_get sym st.(portfolio) = Some a ->
       q_epsilon <= Qabs a.(AssetVars.position_qty) ->
       length (List.filter (fun c => String.eqb c.(Order.symbol) sym) cs) =
       List.count_occ String.string_dec targets sym) /\
    st'.(balance) = st.(balance) /\ st'.(portfolio) = st.(portfolio) /\
    st'.(fill_history) = st.(fill_history).
Proof.
  intros Hv targets.
  destruct (flatten_cancel_spec targets (length (open_orders st)) st (le_n _) Hv)
    as (st1 & H1 & O1 & R1 & B1 & P1 & F1 & U1 & E1).
  rewrite firstn_all in O1, R1. rewrite drop_all, app_nil_r in O1.
  destruct (flatten_close_spec targets st1)
    as (cs & st2 & H2 & O2 & OO2 & B2 & P2 & F2 & E2 & Hf & Hc).
  rewrite P1 in Hf, Hc.
  destruct (submit_order_spec cs current_time st2) as (st3 & H3 & O3 & OO3 & (B3 & P3 & F3) & E3).
  assert (Hlen : length (orders st1) = length (orders st)).
  { apply (length_lookup_fmap _ _ _ R1). }
  exists st3, cs. split.
  { unfold flatten, get, mbind, M_bind. fold targets. rewrite H1, H2.
    destruct cs; exact H3. }
  split; [rewrite OO3, OO2, O1, O2, Hlen; reflexivity|].
  split; [|split].
  - intros r Hr. rewrite O3, O2, lookup_app_l by lia. apply R1.
  - rewrite O3, O2, <- Hlen, drop_app_length. reflexivity.
  - split; [exact Hf|]. split; [exact Hc|]. split; [congruence|]. split; congruence.
Qed.

(** A closing order as [flatten] builds it (for the whole [abs(qty)] of a
    position with [abs(qty) >= q_epsilon], on the closing side), filled
    while the position is still the one it was built from, leaves the symbol
    exactly flat (quantity and average entry price 0) and records a single
    trade for [abs(qty)] whose realised PnL is [(price - avg) * qty], at
    whatever price it fills. *)
Theorem flatten_order_fill_flat (st : ExecutionEngine) (r : nat) (c : Order.t)
    (a : AssetVars.t) (price : Q) (time : Z) :
  st.(orders) !! r = Some c ->
  dict_get c.(Order.symbol) st.(portfolio) = Some a ->
  let pos := a.(AssetVars.position_qty) in
  q_epsilon <= Qabs pos ->
  (0 < pos -> c.(Order.side) = SHORT) -> (pos < 0 -> c.(Order.side) = LONG) ->
  c.(Order.qty) = Qabs pos ->
  let st' := state_of (execute_fill r price time st) in
  dict_get c.(Order.symbol) st'.(portfolio) = Some (AssetVars.set_position 0 0 a) /\
  exists t, st'.(fill_history) = st.(fill_history) ++ [t] /\
    t.(Trade.qty) == Qabs pos /\
    t.(Trade.pnl) == (price - a.(AssetVars.avg_entry_price)) * pos.
Proof.
  intros Ho Ha pos He Hs Hl Hq st'. unfold st', pos in *.
  pose proof q_epsilon_pos as Hep.
  assert (Hq0 : 0 < Order.qty c) by (rewrite Hq; lra).
  destruct (book_fill_reduce st c a price time Ha Hq0) as [RS RL].
  destruct (Qlt_le_dec 0 (AssetVars.position_qty a)) as [Hp|Hp].
  - assert (Hsd : Order.side c = SHORT) by auto.
    assert (Hq' : Order.qty c == AssetVars.position_qty a)
      by (rewrite Hq; apply Qabs_pos; lra).
    destruct (RS Hsd Hp ltac:(lra)) as (t & st1 & Hb & Hf & _ & Htq & Hflat & _).
    destruct (book_fill_close_long st c a price time Ha Hsd Hp Hq0)
      as (nt & st1' & t1 & rest & Hb' & -> & _ & _ & _ & Hpnl & _).
    rewrite Hb in Hb'. injection Hb' as Ht _ _. subst t1.
    destruct (execute_fill_books st st1 r c price time [t] Ho Hb) as [E1 E2].
    rewrite E2, E1, Hf. split.
    + apply Hflat. lra.
    + exists t. split; [reflexivity|].
      rewrite Htq, Hpnl, Hq', Q.min_id, Qabs_pos by lra. split; reflexivity.
  - assert (Hn : AssetVars.position_qty a < 0).
    { destruct (Qlt_le_dec (AssetVars.position_qty a) 0) as [H|H]; [exact H|].
      exfalso. assert (AssetVars.position_qty a == 0) by lra.
      rewrite Qabs_pos in He by lra. lra. }
    assert (Hsd : Order.side c = LONG) by auto.
    assert (Hq' : Order.qty c == - AssetVars.position_qty a)
      by (rewrite Hq; apply Qabs_neg; lra).
    assert (Ha' : Qabs (AssetVars.position_qty a) == - AssetVars.position_qty a)
      by (apply Qabs_neg; lra).
    destruct (RL Hsd Hn) as (t & st1 & Hb & Hf & _ & Htq & Hflat & _).
    { rewrite Ha'. lra. }
    destruct (book_fill_close_short st c a price time Ha Hsd Hn Hq0)
      as (nt & st1' & t1 & rest & Hb' & -> & _ & _ & _ & Hpnl & _).
    rewrite Hb in Hb'. injection Hb' as Ht _ _. subst t1.
    destruct (execute_fill_books st st1 r c price time [t] Ho Hb) as [E1 E2].
    rewrite E2, E1, Hf. split.
    + apply Hflat. rewrite Ha'. lra.
    + exists t. split; [reflexivity|].
      rewrite Htq, Hpnl, Ha', Hq', Q.min_id. split; [reflexivity|ring].
Qed.

(** ** [process_bar] *)

Lemma marks_dict_get (p p' : Portfolio) (k : string) (a : AssetVars.t) :
  marks p = marks p' -> dict_get k p = Some a ->
  exists a', dict_get k p' = Some a' /\
    a'.(AssetVars.last_price) = a.(AssetVars.last_price).
Proof.
  revert p'. induction p as [|[k1 v1] p IH]; intros p' Hm H; [discriminate|].
  destruct p' as [|[k2 v2] p']; [discriminate|].
  unfold marks in Hm. cbn in Hm. injection Hm as Hk Hl Hr. subst k2.
  cbn in H |- *. destruct (String.eqb k k1).
  - injection H as <-. eexists. split; [reflexivity|]. symmetry. exact Hl.
  - apply IH; assumption.
Qed.

Lemma process_bar_Ok_split (row : Bar.t) (st st' : ExecutionEngine) :
  process_bar row st = Ok tt st' ->
  exists st5 p1 a1,
    st'.(open_orders) = List.filter (is_pending st5.(orders)) st5.(open_orders) /\
    st'.(orders) = st5.(orders) /\ st'.(portfolio) = st5.(portfolio) /\
    marks st5.(portfolio) =
      marks (dict_set row.(Bar.symbol) (AssetVars.set_last_price row.(Bar.close) a1) p1).
Proof.
  intros H. unfold process_bar in H. cbv zeta in H.
  apply bind_Ok in H as (s0 & st0 & Hg & H). unfold get in Hg.
  injection Hg as Hs0 Hst0. subst s0 st0.
  apply bind_Ok in H as (u1 & st1 & H1 & H).
  apply bind_Ok in H as (a1 & st2 & H2 & H). unfold get_asset in H2.
  destruct (dict_get (Bar.symbol row) (portfolio st1)) as [b|] eqn:Ea1; [|discriminate].
  injection H2 as Hb Hs2. subst b st2.
  apply bind_Ok in H as (u2 & st3 & H3 & H). unfold put_asset, modify in H3.
  injection H3 as _ Hs3. subst st3.
  apply bind_Ok in H as (s4 & st4 & H4 & H). unfold get in H4.
  injection H4 as Hs4 Hst4. subst s4 st4.
  apply bind_Ok in H as (u5 & st5 & H5 & H).
  pose proof (fill_loop_marks (3 * length (open_orders (set_portfolio
    (dict_set (Bar.symbol row) (AssetVars.set_last_price (Bar.close row) a1)
       (portfolio st1)) st1)) + 1)
    row 0 (set_portfolio
    (dict_set (Bar.symbol row) (AssetVars.set_last_price (Bar.close row) a1)
       (portfolio st1)) st1)) as Hm.
  rewrite H5 in Hm. cbn [state_of] in Hm. destruct Hm as [Hm _].
  cbn [portfolio set_portfolio] in Hm.
  apply bind_Ok in H as (e & st6 & H6 & H).
  unfold get_equity, get, mbind, M_bind, mret, M_ret in H6.
  injection H6 as He Hs6. subst e st6.
  apply bind_Ok in H as (u7 & st7 & H7 & H). unfold modify in H7.
  injection H7 as _ Hs7. subst st7.
  apply bind_Ok in H as (u8 & st8 & H8 & H). unfold modify in H8.
  injection H8 as _ Hs8. subst st8.
  unfold cleanup_orders, modify in H. injection H as Hs'. subst st'.
  exists st5, (portfolio st1), a1. cbn. repeat split. exact Hm.
Qed.

(** After a bar has been processed, every reference left in [open_orders]
    points to an order that is still PENDING: filled and canceled orders
    have been dropped by [cleanup_orders]. *)
Theorem process_bar_open_pending (row : Bar.t) (st st' : ExecutionEngine) :
  process_bar row st = Ok tt st' ->
  forall r, r ∈ st'.(open_orders) ->
  exists o, st'.(orders) !! r = Some o /\ o.(Order.status) = PENDING.
Proof.
  intros H r Hr.
  destruct (process_bar_Ok_split row st st' H) as (st5 & p1 & a1 & Ho & Hos & _).
  rewrite Ho in Hr. rewrite Hos.
  apply list_elem_of_In, filter_In in Hr as [_ Hp]. unfold is_pending in Hp.
  destruct (orders st5 !! r) as [o|]; [|discriminate].
  exists o. split; [reflexivity|]. destruct (Order.status o); cbn in Hp; congruence.
Qed.

(** After a bar has been processed, the bar's symbol is in the portfolio
    (registered with a fresh asset record if it was new) and is marked at
    the bar's close, whatever fills happened during the bar. *)
Theorem process_bar_marks_symbol (row : Bar.t) (st st' : ExecutionEngine) :
  process_bar row st = Ok tt st' ->
  exists a, dict_get row.(Bar.symbol) st'.(portfolio) = Some a /\
    a.(AssetVars.last_price) = row.(Bar.close).
Proof.
  intros H.
  destruct (process_bar_Ok_split row st st' H) as (st5 & p1 & a1 & _ & _ & Hp & Hm).
  rewrite Hp.
  destruct (marks_dict_get _ _ row.(Bar.symbol) _ (eq_sym Hm) (dict_get_set_eq _ _ _))
    as (a' & Ha' & Hl).
  exists a'. split; [exact Ha'|]. rewrite Hl. reflexivity.
Qed.

(** ** A round trip *)

Lemma execute_fill_state (st s1 : ExecutionEngine) (r : nat) (o : Order.t)
    (price : Q) (time : Z) (nt : list Trade.t) :
  st.(orders) !! r = Some o ->
  book_fill o price time st = Ok nt s1 ->
  let st' := state_of (execute_fill r price time st) in
  st'.(fill_history) = s1.(fill_history) ++ nt /\
  st'.(portfolio) = s1.(portfolio) /\ st'.(balance) = s1.(balance) /\
  (forall r' o', r' <> r -> st.(orders) !! r' = Some o' -> st'.(orders) !! r' = Some o').
Proof.
  intros Ho Hb st'. unfold st', execute_fill. rewrite state_of_bind.
  unfold get_order. rewrite Ho, state_of_bind, Hb, state_of_bind.
  unfold put_order, modify. cbn [state_of]. rewrite state_of_bind. cbn [state_of].
  set (s2 := set_fill_history _ _).
  destruct (spawn_brackets_books o price time s2) as (B & P & F).
  pose proof (spawn_brackets_orders o price time s2) as Hk.
  rewrite B, P, F. cbn. split; [reflexivity|]. split; [reflexivity|].
  split; [reflexivity|].
  intros r' o' Hne Ho'. apply Hk. cbn.
  rewrite list_lookup_insert_ne by congruence.
  pose proof (book_fill_orders o price time st r' o' Ho') as Hs1.
  rewrite Hb in Hs1. exact Hs1.
Qed.

(** A round trip on a flat symbol: a LONG fill of [q > 0] at [p1] followed
    by a SHORT fill of the same [q] at [p2] (two distinct orders on the same
    registered symbol, whose position is 0) leaves the position flat, records
    exactly two trades, the closing one with realised PnL [(p2 - p1) * q], and
    changes the cash by exactly the realised PnL minus the two
    commissions. *)
Theorem round_trip_cash (st : ExecutionEngine) (r1 r2 : nat) (o1 o2 : Order.t)
    (a : AssetVars.t) (p1 p2 : Q) (t1 t2 : Z) :
  st.(orders) !! r1 = Some o1 -> st.(orders) !! r2 = Some o2 -> r1 <> r2 ->
  o2.(Order.symbol) = o1.(Order.symbol) ->
  dict_get o1.(Order.symbol) st.(portfolio) = Some a ->
  a.(AssetVars.position_qty) = 0 ->
  o1.(Order.side) = LONG -> o2.(Order.side) = SHORT ->
  o2.(Order.qty) = o1.(Order.qty) -> 0 < o1.(Order.qty) ->
  let st1 := state_of (execute_fill r1 p1 t1 st) in
  let st2 := state_of (execute_fill r2 p2 t2 st1) in
  exists tr1 tr2 a2,
    st2.(fill_history) = st.(fill_history) ++ [tr1; tr2] /\
    dict_get o1.(Order.symbol) st2.(portfolio) = Some a2 /\
    a2.(AssetVars.position_qty) = 0 /\ a2.(AssetVars.avg_entry_price) = 0 /\
    tr1.(Trade.pnl) = 0 /\ tr2.(Trade.pnl) == (p2 - p1) * o1.(Order.qty) /\
    st2.(balance) == st.(balance) + tr1.(Trade.pnl) + tr2.(Trade.pnl)
                     - tr1.(Trade.commission) - tr2.(Trade.commission).
Proof.
  intros Ho1 Ho2 Hne Hsym Ha Hp0 Hs1 Hs2 Hq Hq0 st1 st2.
  set (q := Order.qty o1) in *.
  pose proof q_epsilon_pos as Hep.
  (* The opening fill. *)
  destruct (book_fill_open st o1 a p1 t1 Ha Hq0) as [HL _].
  destruct (HL Hs1 ltac:(rewrite Hp0; apply Qle_refl))
    as (tr1 & s1 & Hb1 & Hf1 & _ & _ & _ & Hc1 & Hpnl1 & Ha1).
  pose proof (book_fill_balance st o1 a p1 t1 Ha) as Hbal1.
  rewrite Hb1, Hs1 in Hbal1. cbn [state_of] in Hbal1.
  destruct (execute_fill_state st s1 r1 o1 p1 t1 [tr1] Ho1 Hb1)
    as (F1 & P1 & B1 & O1). fold st1 in F1, P1, B1, O1.
  set (a1 := AssetVars.set_position (AssetVars.position_qty a + q)
               ((AssetVars.position_qty a * AssetVars.avg_entry_price a + q * p1) /
                (AssetVars.position_qty a + q)) a) in Ha1.
  assert (Ha1' : dict_get (Order.symbol o2) (portfolio st1) = Some a1)
    by (rewrite P1, Hsym; exact Ha1).
  assert (Hpos1 : AssetVars.position_qty a1 == q) by (cbn; rewrite Hp0; ring).
  assert (Havg1 : AssetVars.avg_entry_price a1 == p1).
  { cbn. rewrite Hp0. field. intros H. unfold q in *. lra. }
  assert (Hq2 : 0 < Order.qty o2) by (rewrite Hq; exact Hq0).
  assert (Ho2' : orders st1 !! r2 = Some o2) by (apply O1; [congruence|exact Ho2]).
  (* The closing fill. *)
  assert (Hp1 : 0 < AssetVars.position_qty a1) by (rewrite Hpos1; exact Hq0).
  destruct (book_fill_reduce st1 o2 a1 p2 t2 Ha1' Hq2) as [RS _].
  destruct (RS Hs2 Hp1 ltac:(rewrite Hq, Hpos1; apply Qle_refl))
    as (tr2 & s2 & Hb2 & Hf2 & _ & _ & Hflat & _).
  destruct (book_fill_close_long st1 o2 a1 p2 t2 Ha1' Hs2 Hp1 Hq2)
    as (nt & s2' & tr2' & rest & Hb2' & -> & _ & _ & Hcq & Hpnl2 & Hc2 & _).
  rewrite Hb2 in Hb2'. injection Hb2' as Ht _ _. subst tr2'.
  pose proof (book_fill_balance st1 o2 a1 p2 t2 Ha1') as Hbal2.
  rewrite Hb2, Hs2 in Hbal2. cbn [state_of] in Hbal2.
  destruct (execute_fill_state st1 s2 r2 o2 p2 t2 [tr2] Ho2' Hb2)
    as (F2 & P2 & B2 & _). fold st2 in F2, P2, B2.
  exists tr1, tr2, (AssetVars.set_position 0 0 a1).
  split; [rewrite F2, Hf2, F1, Hf1, <- app_assoc; reflexivity|].
  split; [rewrite P2, <- Hsym; apply Hflat; rewrite Hq, Hpos1; unfold q; lra|].
  split; [reflexivity|]. split; [reflexivity|]. split; [exact Hpnl1|].
  assert (Hmin : Qmin (AssetVars.position_qty a1) (Order.qty o2) == q)
    by (rewrite Hq, Hpos1; apply Q.min_id).
  split; [rewrite Hpnl2, Hmin, Havg1; reflexivity|].
  rewrite B2, Hbal2, B1, Hbal1, Hpnl1, Hpnl2, Hc1, Hc2, Hmin, Havg1, Hq.
  assert (Hf : fee_rate o2 a1 = fee_rate o2 a) by reflexivity. rewrite Hf.
  unfold q in *. field. intros H. lra.
Qed.

(** ** [run] *)

(** Running the backtest on [d1 ++ d2] is running it on [d1] and then,
    from the engine it leaves, on [d2]: a backtest can be resumed chunk by
    chunk, and an exception raised on [d1] stops the whole run with the
    same engine state. *)
Theorem run_app (d1 d2 : list Bar.t) (strategy : Strategy) (st : ExecutionEngine) :
  run (d1 ++ d2) strategy st =
  match run d1 strategy st with
  | Ok _ st1 => run d2 strategy st1
  | Raise e st1 => Raise e st1
  end.
Proof.
  revert st. induction d1 as [|row d1 IH]; intros st; [reflexivity|].
  cbn [app run]. unfold mbind, M_bind.
  destruct (process_bar row st) as [u st1|e st1]; [|reflexivity].
  destruct (on_bar strategy row st1) as [u' st2|e st2]; [|reflexivity].
  apply IH.
Qed.

Lemma keeps_impl (R1 R2 : ExecutionEngine -> ExecutionEngine -> Prop) {A} (m : M A) :
  (forall s s', R1 s s' -> R2 s s') -> keeps R1 m -> keeps R2 m.
Proof. intros H Hm st. apply H, Hm. Qed.

Lemma history_extends_refl st : history_extends st st.
Proof. exists []. rewrite app_nil_r. reflexivity. Qed.

Lemma history_extends_trans a b c :
  history_extends a b -> history_extends b c -> history_extends a c.
Proof.
  intros [l1 H1] [l2 H2]. exists (l1 ++ l2). rewrite H2, H1, app_assoc. reflexivity.
Qed.

Ltac history_leaf :=
  first [ apply keeps_modify; intros s; exists []; cbn; rewrite app_nil_r; reflexivity
        | intros s; exists []; cbn; rewrite app_nil_r; reflexivity ].

Lemma book_fill_history (o : Order.t) (price : Q) (time : Z) :
  keeps history_extends (book_fill o price time).
Proof.
  eapply keeps_impl; [|apply (book_fill_frame o price time)].
  intros s s' (_ & _ & H). exists []. rewrite H, app_nil_r. reflexivity.
Qed.

Lemma spawn_brackets_history (o : Order.t) (price : Q) (time : Z) :
  keeps history_extends (spawn_brackets o price time).
Proof.
  eapply keeps_impl; [|apply (spawn_brackets_books o price time)].
  intros s s' (_ & _ & H). exists []. rewrite H, app_nil_r. reflexivity.
Qed.

Lemma execute_fill_history (r : nat) (price : Q) (time : Z) :
  keeps history_extends (execute_fill r price time).
Proof.
  pose proof history_extends_refl as Hr. pose proof history_extends_trans as Ht.
  unfold execute_fill. apply keeps_bind; [assumption|eauto with keeps_db|intros o].
  apply keeps_bind; [assumption|apply book_fill_history|intros nt].
  apply keeps_bind; [assumption|unfold put_order; history_leaf|intros []].
  apply keeps_bind; [assumption| |intros []; apply spawn_brackets_history].
  apply keeps_modify. intros s. exists nt. reflexivity.
Qed.

Lemma check_fill_history (r : nat) (o h l : Q) :
  keeps history_extends (check_fill r o h l).
Proof.
  pose proof history_extends_refl as Hr. pose proof history_extends_trans as Ht.
  unfold check_fill, put_order. repeat keeps_step; history_leaf.
Qed.

Lemma fill_loop_history (fuel : nat) (row : Bar.t) (i : nat) :
  keeps history_extends (fill_loop fuel row i).
Proof.
  pose proof history_extends_refl as Hr. pose proof history_extends_trans as Ht.
  revert i. induction fuel as [|fuel IH]; intros i; cbn [fill_loop];
    repeat keeps_step;
    first [ apply IH | apply check_fill_history | apply execute_fill_history
          | unfold cancel_group; history_leaf ].
Qed.

Lemma process_bar_history (row : Bar.t) : keeps history_extends (process_bar row).
Proof.
  pose proof history_extends_refl as Hr. pose proof history_extends_trans as Ht.
  unfold process_bar, put_asset, get_equity, cleanup_orders.
  repeat keeps_step; first [ apply fill_loop_history | history_leaf ].
Qed.

Lemma submit_order_history (os : list Order.t) (t : Z) :
  keeps history_extends (submit_order os t).
Proof.
  pose proof history_extends_refl as Hr. pose proof history_extends_trans as Ht.
  induction os as [|o os IH]; cbn [submit_order]; unfold append_open_order;
    repeat keeps_step; first [ exact IH | history_leaf ].
Qed.

(** [run] never removes or rewrites a recorded trade: whatever the data
    and the strategy, and even when it stops on an exception, the trade
    history it leaves extends the one it started from. *)
Theorem run_history_append_only (data : list Bar.t) (strategy : Strategy)
    (st : ExecutionEngine) :
  exists l, (state_of (run data strategy st)).(fill_history) = st.(fill_history) ++ l.
Proof.
  pose proof history_extends_refl as Hr. pose proof history_extends_trans as Ht.
  revert st. change (keeps history_extends (run data strategy)).
  induction data as [|row data IH]; cbn [run]; [eauto with keeps_db|].
  apply keeps_bind; [assumption|apply process_bar_history|intros []].
  apply keeps_bind; [assumption| |intros []; exact IH].
  unfold on_bar. repeat keeps_step; apply submit_order_history.
Qed.

(** ** Filled and canceled orders are final during a backtest *)

Lemma bind_run {A B} (m : M A) (f : A -> M B) (st : ExecutionEngine) :
  (m ≫= f) st = match m st with Ok a s => f a s | Raise e s => Raise e s end.
Proof. reflexivity. Qed.

Lemma finals_kept_refl st : finals_kept st st.
Proof. intros r o H _. exact H. Qed.

Lemma finals_kept_trans a b c : finals_kept a b -> finals_kept b c -> finals_kept a c.
Proof. intros H1 H2 r o H Hs. apply H2; [apply H1|]; assumption. Qed.

Lemma finals_kept_extend st st' : orders_extend st st' -> finals_kept st st'.
Proof. intros H r o Ho _. apply H, Ho. Qed.

Lemma finals_kept_insert (st : ExecutionEngine) (r : nat) (o o' : Order.t) :
  st.(orders) !! r = Some o -> o.(Order.status) = PENDING ->
  finals_kept st (set_orders (<[r:=o']> st.(orders)) st).
Proof.
  intros Ho Hp r' o1 H1 Hs. cbn. destruct (decide (r = r')) as [<-|Hne].
  - rewrite Ho in H1. injection H1 as <-. contradiction.
  - rewrite list_lookup_insert_ne by exact Hne. exact H1.
Qed.

Lemma check_fill_finals (r : nat) (op h l : Q) (st : ExecutionEngine) (o : Order.t) :
  st.(orders) !! r = Some o -> o.(Order.status) = PENDING ->
  let st' := state_of (check_fill r op h l st) in
  finals_kept st st' /\
  exists o1, st'.(orders) !! r = Some o1 /\ o1.(Order.status) = PENDING.
Proof.
  intros Ho Hp st'. unfold st', check_fill. rewrite state_of_bind.
  unfold get_order. rewrite Ho.
  destruct (Order.order_type o).
  - rewrite state_of_bind.
    destruct (truthy (Some (Order.cash_amount o))).
    + unfold pydiv, mbind, M_bind.
      destruct (Qeqb op 0); cbn.
      * split; [apply finals_kept_refl|eauto].
      * split; [apply (finals_kept_insert st r o _ Ho Hp)|].
        eexists. split; [apply list_lookup_insert_eq, (lookup_lt_Some _ _ o), Ho|].
        exact Hp.
    + cbn. split; [apply finals_kept_refl|eauto].
  - destruct (trigger_fill _ _ _ _ _ _); cbn; (split; [apply finals_kept_refl|eauto]).
  - destruct (trigger_fill _ _ _ _ _ _); cbn; (split; [apply finals_kept_refl|eauto]).
  - destruct (trigger_fill _ _ _ _ _ _); cbn; (split; [apply finals_kept_refl|eauto]).
Qed.

Lemma execute_fill_finals (r : nat) (price : Q) (time : Z) (st : ExecutionEngine)
    (o : Order.t) :
  st.(orders) !! r = Some o -> o.(Order.status) = PENDING ->
  finals_kept st (state_of (execute_fill r price time st)).
Proof.
  intros Ho Hp. unfold execute_fill. rewrite state_of_bind.
  unfold get_order. rewrite Ho, state_of_bind.
  pose proof (book_fill_frame o price time st) as (Fo & _ & _).
  destruct (book_fill o price time st) as [nt s1|e s1] eqn:Hb; cbn [state_of] in Fo.
  - unfold put_order, modify. cbn [state_of]. rewrite state_of_bind. cbn [state_of].
    eapply finals_kept_trans.
    2:{ apply finals_kept_extend. apply spawn_brackets_orders. }
    intros r' o1 H1 Hs. cbn. rewrite Fo. apply (finals_kept_insert st r o _ Ho Hp); assumption.
  - intros r' o1 H1 _. rewrite Fo. exact H1.
Qed.

Lemma cancel_group_finals (g : string) : keeps finals_kept (cancel_group g).
Proof.
  apply keeps_modify. intros st r o Ho Hs. cbn.
  destruct (decide (r ∈ open_orders st)) as [Hin|Hn].
  - rewrite cancel_group_in_elem by exact Hin. rewrite Ho. cbn. unfold cancel_if.
    destruct (Order.status o); [contradiction| | |]; rewrite andb_false_r; reflexivity.
  - rewrite cancel_group_in_notin by exact Hn. exact Ho.
Qed.

Lemma fill_loop_finals (fuel : nat) (row : Bar.t) (i : nat) :
  keeps finals_kept (fill_loop fuel row i).
Proof.
  revert i. induction fuel as [|fuel IH]; intros i st; cbn [fill_loop];
    [apply finals_kept_refl|].
  unfold get, mbind, M_bind at 1.
  destruct (open_orders st !! i) as [r|]; [|apply finals_kept_refl].
  rewrite state_of_bind. unfold get_order.
  destruct (orders st !! r) as [o|] eqn:Ho; [|apply finals_kept_refl].
  destruct (negb (String.eqb (Order.symbol o) (Bar.symbol row))
            || negb (Status_eqb (Order.status o) PENDING)) eqn:Eb; [apply IH|].
  assert (Hp : Order.status o = PENDING).
  { apply orb_false_iff in Eb as [_ Eb]. destruct (Order.status o); cbn in Eb;
      congruence. }
  rewrite state_of_bind.
  destruct (check_fill_finals r (Bar.open row) (Bar.high row) (Bar.low row) st o Ho Hp)
    as (K1 & o1 & Ho1 & Hp1).
  destruct (check_fill r (Bar.open row) (Bar.high row) (Bar.low row) st)
    as [fp s1|e s1]; cbn [state_of] in K1, Ho1; [|exact K1].
  eapply finals_kept_trans; [exact K1|].
  rewrite state_of_bind.
  destruct fp as [p|]; cbv beta iota; [|apply IH].
  rewrite bind_run.
  pose proof (execute_fill_finals r p (Bar.name row) s1 o1 Ho1 Hp1) as K2.
  destruct (execute_fill r p (Bar.name row) s1) as [u s2|e s2]; cbn [state_of] in K2;
    [|exact K2].
  eapply finals_kept_trans; [exact K2|].
  destruct (truthy_str (Order.group_id o)); [|apply IH].
  pose proof (cancel_group_finals (cast_str (Order.group_id o)) s2) as K3.
  destruct (cancel_group (cast_str (Order.group_id o)) s2) as [u3 s3|e3 s3];
    cbn [state_of] in K3 |- *; [|exact K3].
  eapply finals_kept_trans; [exact K3|apply IH].
Qed.

(** During a backtest an order that is FILLED or CANCELED is never
    changed again: whatever the data and the strategy, such an order is
    still at its reference, unchanged, in the engine [run] leaves. *)
Theorem run_final_orders (data : list Bar.t) (strategy : Strategy)
    (st : ExecutionEngine) (r : nat) (o : Order.t) :
  st.(orders) !! r = Some o -> o.(Order.status) <> PENDING ->
  (state_of (run data strategy st)).(orders) !! r = Some o.
Proof.
  pose proof finals_kept_refl as Hr. pose proof finals_kept_trans as Ht.
  intros Ho Hs. revert r o Ho Hs. revert st.
  change (keeps finals_kept (run data strategy)).
  induction data as [|row data IH]; cbn [run]; [eauto with keeps_db|].
  apply keeps_bind; [assumption| |intros []].
  - unfold process_bar, put_asset, get_equity, cleanup_orders.
    repeat keeps_step; first [ apply fill_loop_finals
                             | apply keeps_modify; intros s; apply finals_kept_refl
                             | intros s; apply finals_kept_refl ].
  - apply keeps_bind; [assumption| |intros []; exact IH].
    unfold on_bar. repeat keeps_step.
    intros s. apply finals_kept_extend. revert s.
    generalize (submit_order_spec l (Bar.name row)). intros Hsub s.
    destruct (Hsub s) as (s' & E & O & _). rewrite E. cbn [state_of].
    intros r o H. rewrite O. apply lookup_app_l_Some, H.
Qed.

(** ** C3: at most one fill per group across a replay *)

Lemma post_bind {A B} (P Q : ExecutionEngine -> Prop) (m : M A) (f : A -> M B)
    (st : ExecutionEngine) :
  post P Q ((m ≫= f) st) =
  match m st with Ok a s => post P Q (f a s) | Raise _ s => Q s end.
Proof. unfold mbind, M_bind. destruct (m st); reflexivity. Qed.

Lemma post_then {A B} (P Q : ExecutionEngine -> Prop) (res : result A) (f : A -> M B) :
  post P Q res -> (forall a, safe P Q (f a)) ->
  match res with Ok a s => post P Q (f a s) | Raise _ s => Q s end.
Proof. intros H Hf. destruct res as [a s|e s]; cbn in H; [apply Hf|]; exact H. Qed.

Lemma safe_bind {A B} (P Q : ExecutionEngine -> Prop) (m : M A) (f : A -> M B) :
  safe P Q m -> (forall a, safe P Q (f a)) -> safe P Q (m ≫= f).
Proof. intros Hm Hf st H. rewrite post_bind. apply post_then; [apply Hm, H|exact Hf]. Qed.

Lemma post_impl {A} (P Q P' Q' : ExecutionEngine -> Prop) (res : result A) :
  (forall s, P s -> P' s) -> (forall s, Q s -> Q' s) -> post P Q res -> post P' Q' res.
Proof. intros HP HQ. destruct res; cbn; auto. Qed.

Lemma status_step_pair (s1 s2 s1' s2' : Status) :
  status_step s1 s1' -> status_step s2 s2' ->
  s1 <> REJECTED -> s2 <> REJECTED ->
  (s1 = FILLED -> s2 = CANCELED) -> (s2 = FILLED -> s1 = CANCELED) ->
  s1' <> REJECTED /\ s2' <> REJECTED /\
  (s1' = FILLED -> s2' = CANCELED) /\ (s2' = FILLED -> s1' = CANCELED).
Proof.
  unfold status_step.
  intros [->|[-> ->]] [->|[-> ->]];
    repeat match goal with s : Status |- _ => destruct s end; intros H1 H2 H3 H4;
    repeat split; intros; try discriminate; try reflexivity;
    first [ exfalso; apply H1; reflexivity | exfalso; apply H2; reflexivity
          | discriminate (H3 eq_refl) | discriminate (H4 eq_refl) ].
Qed.

Lemma oco_pair_transfer (g : string) (r1 r2 : nat) (st st' : ExecutionEngine) :
  oco_pair g r1 r2 st ->
  (forall j o, j = r1 \/ j = r2 -> st.(orders) !! j = Some o ->
     exists o', st'.(orders) !! j = Some o' /\ o'.(Order.group_id) = o.(Order.group_id) /\
       status_step o.(Order.status) o'.(Order.status)) ->
  oco_pair g r1 r2 st'.
Proof.
  intros (o1 & o2 & H1 & H2 & G1 & G2 & R1 & R2 & F1 & F2) T.
  destruct (T r1 o1 (or_introl eq_refl) H1) as (o1' & H1' & G1' & S1).
  destruct (T r2 o2 (or_intror eq_refl) H2) as (o2' & H2' & G2' & S2).
  destruct (status_step_pair _ _ _ _ S1 S2 R1 R2 F1 F2) as (R1' & R2' & F1' & F2').
  exists o1', o2'. rewrite G1', G2'. repeat split; assumption.
Qed.

Lemma oco_inv_not_both (g : string) (r1 r2 : nat) (st : ExecutionEngine) :
  oco_inv g r1 r2 st -> not_both_filled r1 r2 st.
Proof.
  intros (_ & o1 & o2 & H1 & H2 & _ & _ & _ & _ & F1 & _) p1 p2 E1 E2 [S1 S2].
  rewrite H1 in E1. injection E1 as <-. rewrite H2 in E2. injection E2 as <-.
  rewrite (F1 S1) in S2. discriminate.
Qed.

Lemma oco_inv_sym (g : string) (r1 r2 : nat) (st : ExecutionEngine) :
  oco_inv g r1 r2 st -> oco_inv g r2 r1 st.
Proof.
  intros [Hl (o1 & o2 & H1 & H2 & G1 & G2 & R1 & R2 & F1 & F2)].
  split; [exact Hl|]. exists o2, o1. repeat split; assumption.
Qed.

Lemma not_both_sym (r1 r2 : nat) (st : ExecutionEngine) :
  not_both_filled r1 r2 st -> not_both_filled r2 r1 st.
Proof. intros H p1 p2 E1 E2 [S1 S2]. exact (H p2 p1 E2 E1 (conj S2 S1)). Qed.

Lemma oco_inv_frame (g : string) (r1 r2 : nat) (st st' : ExecutionEngine) :
  st'.(orders) = st.(orders) -> st'.(open_orders) = st.(open_orders) ->
  oco_inv g r1 r2 st -> oco_inv g r1 r2 st'.
Proof.
  intros O P [H1 H2]. split.
  - intros r o Ho Hs. rewrite P. apply (H1 r o); [rewrite <- O; exact Ho|exact Hs].
  - eapply oco_pair_transfer; [exact H2|]. intros j o _ Ho. exists o. rewrite O.
    split; [exact Ho|split; [reflexivity|left; reflexivity]].
Qed.

Lemma safe_frame {A} (g : string) (r1 r2 : nat) (m : M A) :
  (forall st, (state_of (m st)).(orders) = st.(orders) /\
              (state_of (m st)).(open_orders) = st.(open_orders)) ->
  safe (oco_inv g r1 r2) (not_both_filled r1 r2) m.
Proof.
  intros Hm st H. destruct (Hm st) as [O P].
  pose proof (oco_inv_frame g r1 r2 st _ O P H) as H'.
  destruct (m st); cbn in *; [exact H'|exact (oco_inv_not_both _ _ _ _ H')].
Qed.

Lemma safe_append (g : string) (r1 r2 : nat) (o : Order.t) :
  safe (oco_inv g r1 r2) (not_both_filled r1 r2) (append_open_order o).
Proof.
  intros st [H1 H2]. unfold append_open_order, modify. cbn [post]. split.
  - intros r o' Ho Hs. cbn [orders open_orders set_orders set_open_orders] in Ho |- *.
    apply elem_of_app. destruct (decide (r < length (orders st))%nat) as [Hl|Hl].
    + left. rewrite lookup_app_l in Ho by exact Hl. exact (H1 r o' Ho Hs).
    + right. apply list_elem_of_singleton. apply lookup_lt_Some in Ho.
      rewrite length_app in Ho. cbn in Ho. lia.
  - eapply oco_pair_transfer; [exact H2|]. intros j o' _ Ho. exists o'.
    split; [cbn; apply lookup_app_l_Some; exact Ho|split; [reflexivity|left; reflexivity]].
Qed.

Lemma safe_submit (g : string) (r1 r2 : nat) (os : list Order.t) (t : Z) :
  safe (oco_inv g r1 r2) (not_both_filled r1 r2) (submit_order os t).
Proof.
  induction os as [|o os IH]; cbn [submit_order].
  - apply safe_frame. intros st. split; reflexivity.
  - apply safe_bind; [apply safe_append|intros _; exact IH].
Qed.

Lemma safe_cleanup (g : string) (r1 r2 : nat) :
  safe (oco_inv g r1 r2) (not_both_filled r1 r2) cleanup_orders.
Proof.
  intros st [H1 H2]. unfold cleanup_orders, modify. cbn [post]. split.
  - intros r o Ho Hs. cbn [orders open_orders set_open_orders] in Ho |- *.
    apply list_elem_of_In, filter_In. split.
    + apply list_elem_of_In. exact (H1 r o Ho Hs).
    + unfold is_pending. rewrite Ho, Hs. reflexivity.
  - eapply oco_pair_transfer; [exact H2|]. intros j o _ Ho. exists o.
    split; [exact Ho|split; [reflexivity|left; reflexivity]].
Qed.

Lemma check_fill_shape (r : nat) (op h l : Q) (st : ExecutionEngine) (o : Order.t) :
  st.(orders) !! r = Some o ->
  state_of (check_fill r op h l st) = st \/
  exists q, state_of (check_fill r op h l st) =
              set_orders (<[r:=Order.set_qty q o]> st.(orders)) st.
Proof.
  intros Ho. unfold check_fill. rewrite state_of_bind. unfold get_order. rewrite Ho.
  destruct (Order.order_type o);
    [|destruct (trigger_fill _ _ _ _ _ _); cbn; left; reflexivity ..].
  rewrite state_of_bind. destruct (truthy (Some (Order.cash_amount o))).
  - unfold pydiv, mbind, M_bind. destruct (Qeqb op 0); cbn; eauto.
  - cbn. left. reflexivity.
Qed.

Lemma oco_inv_set_qty (g : string) (r1 r2 : nat) (st : ExecutionEngine) (r : nat)
    (o : Order.t) (q : Q) :
  oco_inv g r1 r2 st -> st.(orders) !! r = Some o ->
  oco_inv g r1 r2 (set_orders (<[r:=Order.set_qty q o]> st.(orders)) st).
Proof.
  intros [H1 H2] Ho.
  assert (Hl : (r < length (orders st))%nat) by (apply (lookup_lt_Some _ _ o); exact Ho).
  split.
  - intros r' o' H' Hs. cbn [orders open_orders set_orders] in H' |- *.
    destruct (decide (r' = r)) as [->|Hne].
    + rewrite list_lookup_insert_eq in H' by exact Hl. injection H' as <-.
      exact (H1 r o Ho Hs).
    + rewrite list_lookup_insert_ne in H' by congruence. exact (H1 r' o' H' Hs).
  - eapply oco_pair_transfer; [exact H2|]. intros j o' _ Hj.
    cbn [orders set_orders]. destruct (decide (j = r)) as [->|Hne].
    + rewrite Ho in Hj. injection Hj as <-. exists (Order.set_qty q o).
      rewrite list_lookup_insert_eq by exact Hl.
      split; [reflexivity|split; [reflexivity|left; reflexivity]].
    + exists o'. rewrite list_lookup_insert_ne by congruence.
      split; [exact Hj|split; [reflexivity|left; reflexivity]].
Qed.

Lemma execute_fill_others (r : nat) (p : Q) (t : Z) (st : ExecutionEngine)
    (r' : nat) (o' : Order.t) :
  r' <> r -> st.(orders) !! r' = Some o' ->
  (state_of (execute_fill r p t st)).(orders) !! r' = Some o'.
Proof.
  intros Hne H'. unfold execute_fill. rewrite state_of_bind.
  unfold get_order. destruct (orders st !! r) as [o|] eqn:Ho; [|exact H'].
  cbv beta iota. rewrite state_of_bind.
  pose proof (book_fill_frame o p t st) as (Fo & _ & _).
  destruct (book_fill o p t st) as [nt s1|e s1] eqn:Hb; cbn [state_of] in Fo.
  - unfold put_order, modify. cbn [state_of]. rewrite state_of_bind. cbn [state_of].
    apply spawn_brackets_orders. cbn. rewrite list_lookup_insert_ne by congruence.
    rewrite Fo. exact H'.
  - rewrite Fo. exact H'.
Qed.

Lemma execute_fill_Ok_orders (r : nat) (p : Q) (t : Z) (st st' : ExecutionEngine) :
  execute_fill r p t st = Ok tt st' ->
  exists o kids, st.(orders) !! r = Some o /\
    st'.(orders) = <[r:=Order.set_filled t p o]> st.(orders) ++ kids /\
    st'.(open_orders) = st.(open_orders) ++ seq (length st.(orders)) (length kids).
Proof.
  intros H. apply execute_fill_Ok_split in H as (o & nt & st1 & Ho & H1 & Fo & H).
  pose proof (book_fill_frame o p t st) as Hf. rewrite H1 in Hf.
  cbn [state_of] in Hf. destruct Hf as (_ & Fp & _).
  apply spawn_brackets_Ok in H as (ks & kl & O & P & _).
  cbn in O, P. exists o, (ks ++ kl). split; [exact Ho|]. split.
  - rewrite O, Fo. reflexivity.
  - rewrite P, Fp, length_insert, Fo. reflexivity.
Qed.

Lemma pending_listed_fill (st st' : ExecutionEngine) (r : nat) (o : Order.t) (t : Z)
    (p : Q) (kids : list Order.t) :
  pending_listed st -> st.(orders) !! r = Some o ->
  st'.(orders) = <[r:=Order.set_filled t p o]> st.(orders) ++ kids ->
  st'.(open_orders) = st.(open_orders) ++ seq (length st.(orders)) (length kids) ->
  pending_listed st'.
Proof.
  intros H Ho O P r' o' H' Hs. rewrite P. apply elem_of_app. rewrite O in H'.
  assert (Hl : (r < length (orders st))%nat) by (apply (lookup_lt_Some _ _ o); exact Ho).
  destruct (decide (r' < length (orders st))%nat) as [Hlt|Hge].
  - left. rewrite lookup_app_l in H' by (rewrite length_insert; exact Hlt).
    destruct (decide (r' = r)) as [->|Hne].
    + rewrite list_lookup_insert_eq in H' by exact Hl. injection H' as <-. discriminate Hs.
    + rewrite list_lookup_insert_ne in H' by congruence. exact (H r' o' H' Hs).
  - right. apply list_elem_of_In, in_seq. apply lookup_lt_Some in H'.
    rewrite length_app, length_insert in H'. lia.
Qed.

Lemma oco_pair_fill_other (g : string) (r1 r2 : nat) (st st' : ExecutionEngine) (r : nat)
    (o : Order.t) (t : Z) (p : Q) (kids : list Order.t) :
  oco_pair g r1 r2 st -> r <> r1 -> r <> r2 ->
  st'.(orders) = <[r:=Order.set_filled t p o]> st.(orders) ++ kids ->
  oco_pair g r1 r2 st'.
Proof.
  intros H N1 N2 O. eapply oco_pair_transfer; [exact H|]. intros j o' Hj H'.
  exists o'. split; [|split; [reflexivity|left; reflexivity]].
  rewrite O. apply lookup_app_l_Some. rewrite list_lookup_insert_ne; [exact H'|].
  destruct Hj as [-> | ->]; assumption.
Qed.

Lemma cancel_group_pending_listed (st : ExecutionEngine) (g' : string) :
  pending_listed st ->
  pending_listed (set_orders (cancel_group_in g' st.(open_orders) st.(orders)) st).
Proof.
  intros H r o Ho Hs. cbn [orders open_orders set_orders] in Ho |- *.
  destruct (decide (r ∈ open_orders st)) as [Hin|Hn]; [exact Hin|].
  rewrite cancel_group_in_notin in Ho by exact Hn. exact (H r o Ho Hs).
Qed.

Lemma cancel_group_lookup (g' : string) (refs : list nat) (os : list Order.t) (r : nat)
    (o : Order.t) :
  os !! r = Some o ->
  exists o', cancel_group_in g' refs os !! r = Some o' /\
    o'.(Order.group_id) = o.(Order.group_id) /\
    status_step o.(Order.status) o'.(Order.status).
Proof.
  intros Ho. destruct (decide (r ∈ refs)) as [Hin|Hn].
  - rewrite cancel_group_in_elem by exact Hin. rewrite Ho.
    cbn [fmap option_fmap option_map]. exists (cancel_if g' o).
    split; [reflexivity|]. unfold cancel_if.
    destruct (group_eqb _ _ && Status_eqb _ PENDING) eqn:E.
    + split; [reflexivity|right]. split; [|reflexivity].
      apply andb_true_iff in E as [_ E].
      destruct (Order.status o); try discriminate; reflexivity.
    + split; [reflexivity|left; reflexivity].
  - rewrite cancel_group_in_notin by exact Hn. exists o.
    split; [exact Ho|split; [reflexivity|left; reflexivity]].
Qed.

Lemma oco_pair_cancel (g : string) (r1 r2 : nat) (st : ExecutionEngine) (g' : string) :
  oco_pair g r1 r2 st ->
  oco_pair g r1 r2 (set_orders (cancel_group_in g' st.(open_orders) st.(orders)) st).
Proof.
  intros H. eapply oco_pair_transfer; [exact H|]. intros j o _ Ho.
  exact (cancel_group_lookup g' _ _ j o Ho).
Qed.

Lemma oco_pair_after_group_fill (g : string) (r1 r2 : nat) (s1 s2 : ExecutionEngine)
    (o1 : Order.t) (t : Z) (p : Q) (kids : list Order.t) :
  r1 <> r2 -> oco_pair g r1 r2 s1 -> s1.(orders) !! r1 = Some o1 ->
  o1.(Order.status) = PENDING -> pending_listed s2 ->
  s2.(orders) = <[r1:=Order.set_filled t p o1]> s1.(orders) ++ kids ->
  oco_pair g r1 r2 (set_orders (cancel_group_in g s2.(open_orders) s2.(orders)) s2).
Proof.
  intros Hr (q1 & q2 & H1 & H2 & G1 & G2 & R1 & R2 & F1 & F2) Ho1 Hp1 Hpl O.
  rewrite Ho1 in H1. injection H1 as <-.
  assert (Hl1 : (r1 < length (orders s1))%nat) by (apply (lookup_lt_Some _ _ o1); exact Ho1).
  assert (E1 : orders s2 !! r1 = Some (Order.set_filled t p o1)).
  { rewrite O. apply lookup_app_l_Some. apply list_lookup_insert_eq. exact Hl1. }
  assert (E2 : orders s2 !! r2 = Some q2).
  { rewrite O. apply lookup_app_l_Some. rewrite list_lookup_insert_ne by congruence.
    exact H2. }
  assert (Hs2 : q2.(Order.status) = PENDING \/ q2.(Order.status) = CANCELED).
  { destruct (Order.status q2) eqn:E; [left; reflexivity| |exfalso; exact (R2 eq_refl)|right; reflexivity].
    rewrite (F2 eq_refl) in Hp1. discriminate. }
  destruct (cancel_group_lookup g (open_orders s2) (orders s2) r1 _ E1) as (c1 & C1 & CG1 & CS1).
  assert (Hc2 : exists c2, cancel_group_in g (open_orders s2) (orders s2) !! r2 = Some c2 /\
                  c2.(Order.group_id) = Some g /\ c2.(Order.status) = CANCELED).
  { destruct Hs2 as [Hs2|Hs2].
    - exists (Order.set_status CANCELED q2). split; [|split; [exact G2|reflexivity]].
      rewrite cancel_group_in_elem by exact (Hpl r2 q2 E2 Hs2). rewrite E2.
      cbn [fmap option_fmap option_map]. f_equal. unfold cancel_if. rewrite G2, Hs2.
      cbn [group_eqb Status_eqb]. rewrite String.eqb_refl. reflexivity.
    - destruct (cancel_group_lookup g (open_orders s2) _ r2 _ E2) as (c2 & C2 & CG2 & CS2).
      exists c2. split; [exact C2|]. split; [rewrite CG2; exact G2|].
      destruct CS2 as [->|[Hx _]]; [exact Hs2|rewrite Hs2 in Hx; discriminate Hx]. }
  destruct Hc2 as (c2 & C2 & CG2 & CS2).
  assert (CS1' : c1.(Order.status) = FILLED)
    by (destruct CS1 as [->|[Hx _]]; [reflexivity|discriminate Hx]).
  exists c1, c2. cbn [orders set_orders].
  split; [exact C1|]. split; [exact C2|]. split; [rewrite CG1; exact G1|].
  split; [exact CG2|]. split; [rewrite CS1'; discriminate|].
  split; [rewrite CS2; discriminate|]. split; [intros _; exact CS2|].
  rewrite CS2. intros Hx. discriminate Hx.
Qed.

Lemma oco_step_ne (g : string) (r1 r2 r : nat) (o1 : Order.t) (go : option string)
    (fp : option Q) (t : Z) (st : ExecutionEngine) :
  g <> ""%string -> r1 <> r2 -> r <> r2 -> oco_inv g r1 r2 st ->
  st.(orders) !! r = Some o1 -> o1.(Order.status) = PENDING -> o1.(Order.group_id) = go ->
  post (oco_inv g r1 r2) (not_both_filled r1 r2)
    ((match fp with
      | Some p => execute_fill r p t ;;
                  (if truthy_str go then cancel_group (cast_str go) else mret tt)
      | None => mret tt
      end) st).
Proof.
  intros Hg Hr Hr2 [Hpl Hpair] Ho Hp Hgo.
  destruct fp as [p|]; [|exact (conj Hpl Hpair)].
  rewrite post_bind.
  destruct (execute_fill r p t st) as [u s2|e s2] eqn:E.
  - destruct (execute_fill_Ok_orders r p t st s2) as (o & kids & Ho' & O & P).
    { destruct u. exact E. }
    rewrite Ho in Ho'. injection Ho' as <-.
    pose proof (pending_listed_fill st s2 r o1 t p kids Hpl Ho O P) as Hpl2.
    destruct (decide (r = r1)) as [->|Hr1].
    + assert (Hgr : go = Some g).
      { destruct Hpair as (q1 & q2 & H1 & _ & G1 & _).
        rewrite Ho in H1. injection H1 as <-. rewrite <- Hgo. exact G1. }
      assert (Hg0 : String.eqb g "" = false) by (apply String.eqb_neq; exact Hg).
      assert (Ht : truthy_str go = true) by (rewrite Hgr; cbn [truthy_str]; rewrite Hg0; reflexivity).
      assert (Hc : cast_str go = g) by (rewrite Hgr; reflexivity).
      destruct (truthy_str go); [|discriminate Ht]. rewrite Hc.
      unfold cancel_group, modify. cbn [post]. split.
      * apply cancel_group_pending_listed. exact Hpl2.
      * exact (oco_pair_after_group_fill g r1 r2 st s2 o1 t p kids Hr Hpair Ho Hp Hpl2 O).
    + pose proof (oco_pair_fill_other g r1 r2 st s2 r o1 t p kids Hpair Hr1 Hr2 O) as Hpair2.
      destruct (truthy_str go).
      * unfold cancel_group, modify. cbn [post]. split.
        -- apply cancel_group_pending_listed. exact Hpl2.
        -- apply oco_pair_cancel. exact Hpair2.
      * exact (conj Hpl2 Hpair2).
  - cbn [post].
    pose proof (execute_fill_others r p t st) as Oth. rewrite E in Oth. cbn [state_of] in Oth.
    intros p1 p2 E1 E2 [S1 S2].
    destruct Hpair as (q1 & q2 & H1 & H2 & _ & _ & _ & _ & F1 & F2).
    rewrite (Oth r2 q2 (not_eq_sym Hr2) H2) in E2. injection E2 as <-.
    destruct (decide (r = r1)) as [->|Hr1].
    + rewrite Ho in H1. injection H1 as <-. rewrite (F2 S2) in Hp. discriminate.
    + rewrite (Oth r1 q1 (not_eq_sym Hr1) H1) in E1. injection E1 as <-.
      rewrite (F1 S1) in S2. discriminate.
Qed.

Lemma oco_step (g : string) (r1 r2 r : nat) (o1 : Order.t) (go : option string)
    (fp : option Q) (t : Z) (st : ExecutionEngine) :
  g <> ""%string -> r1 <> r2 -> oco_inv g r1 r2 st ->
  st.(orders) !! r = Some o1 -> o1.(Order.status) = PENDING -> o1.(Order.group_id) = go ->
  post (oco_inv g r1 r2) (not_both_filled r1 r2)
    ((match fp with
      | Some p => execute_fill r p t ;;
                  (if truthy_str go then cancel_group (cast_str go) else mret tt)
      | None => mret tt
      end) st).
Proof.
  intros Hg Hr H Ho Hp Hgo. destruct (decide (r = r2)) as [->|Hr2].
  - apply (post_impl (oco_inv g r2 r1) (not_both_filled r2 r1)).
    + intros s. apply oco_inv_sym.
    + intros s. apply not_both_sym.
    + apply (oco_step_ne g r2 r1 r2 o1 go fp t st Hg (not_eq_sym Hr) (not_eq_sym Hr)
               (oco_inv_sym _ _ _ _ H) Ho Hp Hgo).
  - exact (oco_step_ne g r1 r2 r o1 go fp t st Hg Hr Hr2 H Ho Hp Hgo).
Qed.

Lemma fill_loop_oco (g : string) (r1 r2 : nat) (fuel : nat) (row : Bar.t) (i : nat) :
  g <> ""%string -> r1 <> r2 ->
  safe (oco_inv g r1 r2) (not_both_filled r1 r2) (fill_loop fuel row i).
Proof.
  intros Hg Hr. revert i. induction fuel as [|fuel IH]; intros i st H; [exact H|].
  cbn [fill_loop]. rewrite post_bind. cbn [get].
  destruct (open_orders st !! i) as [r|] eqn:Hi; [|exact H].
  rewrite post_bind. unfold get_order.
  destruct (orders st !! r) as [o|] eqn:Ho; [|exact (oco_inv_not_both _ _ _ _ H)].
  cbv beta iota.
  destruct (negb _ || negb _) eqn:Ef; [apply IH; exact H|].
  assert (Hp : Order.status o = PENDING).
  { apply orb_false_iff in Ef as [_ Ef]. apply negb_false_iff in Ef.
    destruct (Order.status o); try discriminate; reflexivity. }
  rewrite post_bind.
  assert (C : forall s1, (s1 = st \/ exists q, s1 = set_orders (<[r:=Order.set_qty q o]> (orders st)) st) ->
    oco_inv g r1 r2 s1 /\ exists o1, orders s1 !! r = Some o1 /\
      Order.status o1 = PENDING /\ Order.group_id o1 = Order.group_id o).
  { intros s1 [->|[q ->]].
    - split; [exact H|]. exists o. auto.
    - split; [apply oco_inv_set_qty; assumption|]. exists (Order.set_qty q o).
      split; [|split; [exact Hp|reflexivity]].
      cbn [orders set_orders]. apply list_lookup_insert_eq.
      apply (lookup_lt_Some _ _ o). exact Ho. }
  pose proof (C _ (check_fill_shape r (Bar.open row) (Bar.high row) (Bar.low row) st o Ho))
    as [Hinv1 (o1 & Ho1 & Hp1 & Hg1)].
  destruct (check_fill r (Bar.open row) (Bar.high row) (Bar.low row) st) as [fp s1|e s1];
    cbn [state_of] in Hinv1, Ho1; [|exact (oco_inv_not_both _ _ _ _ Hinv1)].
  cbv beta. rewrite post_bind.
  apply (post_then _ _ _ (fun _ : unit => fill_loop fuel row (S i))).
  - exact (oco_step g r1 r2 r o1 (Order.group_id o) fp (Bar.name row) s1 Hg Hr Hinv1 Ho1 Hp1 Hg1).
  - intros _. apply IH.
Qed.

Ltac oco_safe :=
  match goal with
  | |- safe _ _ (_ ≫= _) => apply safe_bind; [|intros ?]
  | |- safe _ _ (match ?x with _ => _ end) => destruct x
  | |- safe _ _ (fill_loop _ _ _) => apply fill_loop_oco; assumption
  | |- safe _ _ cleanup_orders => apply safe_cleanup
  | |- safe _ _ (submit_order _ _) => apply safe_submit
  | |- safe _ _ (get_asset _) =>
      apply safe_frame; intros ?; unfold get_asset; destruct (dict_get _ _); split; reflexivity
  | |- safe _ _ _ => apply safe_frame; intros ?; split; reflexivity
  end.

Lemma run_oco (g : string) (r1 r2 : nat) (data : list Bar.t) (strategy : Strategy) :
  g <> ""%string -> r1 <> r2 ->
  safe (oco_inv g r1 r2) (not_both_filled r1 r2) (run data strategy).
Proof.
  intros Hg Hr. induction data as [|row data IH]; cbn [run].
  - apply safe_frame. intros st. split; reflexivity.
  - apply safe_bind; [|intros _; apply safe_bind; [|intros _; exact IH]].
    + unfold process_bar, get_equity. cbv zeta. repeat oco_safe.
    + unfold on_bar. repeat oco_safe.
Qed.

(** C3, corrected. Let [g] be a non-empty group name. (1) One step of the
    fill loop: when a PENDING order of group [g] fills, the loop cancels,
    before examining the next order, every order referenced by
    [open_orders] that is PENDING with group [g] (the fill's own bracket
    children included); the filled order stays FILLED; every other order
    is unchanged. (2) Across a whole replay [run data strategy st] started
    from a state in which every PENDING order is referenced by
    [open_orders], two distinct orders of group [g] that are both PENDING
    at the start are never both FILLED in the final state (whether the
    replay completes or raises), and when the replay completes and one of
    them is FILLED, the other is CANCELED. *)
Theorem oco_group_fills_once (g : string) : g <> ""%string ->
  (forall (fuel : nat) (row : Bar.t) (i r : nat) (o : Order.t) (p : Q)
          (st st1 st2 : ExecutionEngine),
    st.(open_orders) !! i = Some r ->
    st.(orders) !! r = Some o ->
    o.(Order.symbol) = row.(Bar.symbol) ->
    o.(Order.status) = PENDING ->
    o.(Order.group_id) = Some g ->
    check_fill r row.(Bar.open) row.(Bar.high) row.(Bar.low) st = Ok (Some p) st1 ->
    execute_fill r p row.(Bar.name) st1 = Ok tt st2 ->
    let st3 := set_orders (cancel_group_in g st2.(open_orders) st2.(orders)) st2 in
    fill_loop (S fuel) row i st = fill_loop fuel row (S i) st3 /\
    (exists o', st3.(orders) !! r = Some o' /\ o'.(Order.status) = FILLED) /\
    (forall r' o', r' ∈ st2.(open_orders) -> st2.(orders) !! r' = Some o' ->
       o'.(Order.group_id) = Some g -> o'.(Order.status) = PENDING ->
       st3.(orders) !! r' = Some (Order.set_status CANCELED o')) /\
    (forall r' o', st2.(orders) !! r' = Some o' ->
       (r' ∉ st2.(open_orders) \/ o'.(Order.group_id) <> Some g \/
        o'.(Order.status) <> PENDING) ->
       st3.(orders) !! r' = Some o')) /\
  (forall (data : list Bar.t) (strategy : Strategy) (st : ExecutionEngine)
          (r1 r2 : nat) (o1 o2 : Order.t),
    pending_listed st -> r1 <> r2 ->
    st.(orders) !! r1 = Some o1 -> st.(orders) !! r2 = Some o2 ->
    o1.(Order.group_id) = Some g -> o2.(Order.group_id) = Some g ->
    o1.(Order.status) = PENDING -> o2.(Order.status) = PENDING ->
    (forall p1 p2, (state_of (run data strategy st)).(orders) !! r1 = Some p1 ->
       (state_of (run data strategy st)).(orders) !! r2 = Some p2 ->
       ~ (p1.(Order.status) = FILLED /\ p2.(Order.status) = FILLED)) /\
    (forall st', run data strategy st = Ok tt st' ->
       exists p1 p2, st'.(orders) !! r1 = Some p1 /\ st'.(orders) !! r2 = Some p2 /\
         (p1.(Order.status) = FILLED -> p2.(Order.status) = CANCELED) /\
         (p2.(Order.status) = FILLED -> p1.(Order.status) = CANCELED))).
Proof.
  intros Hg. split.
  - intros fuel row i r o p st st1 st2 Hi Ho Hs Hst Hgr Hc He.
    exact (fill_step_cancels_group fuel row i r o g p st st1 st2 Hi Ho Hs Hst Hgr Hg Hc He).
  - intros data strategy st r1 r2 o1 o2 Hpl Hr H1 H2 G1 G2 P1 P2.
    assert (Hinv : oco_inv g r1 r2 st).
    { split; [exact Hpl|]. exists o1, o2. rewrite P1, P2.
      repeat split; try assumption; intros Hx; discriminate Hx. }
    pose proof (run_oco g r1 r2 data strategy Hg Hr st Hinv) as K.
    split.
    + intros p1 p2 E1 E2.
      destruct (run data strategy st) as [u s|e s]; cbn [post state_of] in K, E1, E2.
      * exact (oco_inv_not_both _ _ _ _ K p1 p2 E1 E2).
      * exact (K p1 p2 E1 E2).
    + intros st' E. rewrite E in K. cbn [post] in K.
      destruct K as [_ (p1 & p2 & E1 & E2 & _ & _ & _ & _ & F1 & F2)].
      exists p1, p2. exact (conj E1 (conj E2 (conj F1 F2))).
Qed.

Lemma oco_group_fills_once_witness :
  (let st1 := state_of (check_fill 0 100 100 100 oco_engine) in
   let st2 := state_of (execute_fill 0 100 1 st1) in
   (cancel_group_in "g" st2.(open_orders) st2.(orders)) !! 1%nat
     = Some (Order.set_status CANCELED oco_sell)) /\
  exists p1 p2,
    (state_of (run [oco_bar] (fun _ _ => []) oco_engine)).(orders) !! 0%nat = Some p1 /\
    (state_of (run [oco_bar] (fun _ _ => []) oco_engine)).(orders) !! 1%nat = Some p2 /\
    (p1.(Order.status) = FILLED -> p2.(Order.status) = CANCELED) /\
    (p2.(Order.status) = FILLED -> p1.(Order.status) = CANCELED).
Proof.
  destruct (oco_group_fills_once "g" ltac:(discriminate)) as [Hstep Hrun].
  split.
  - destruct (Hstep 0%nat oco_bar 0%nat 0%nat oco_buy 100 oco_engine
                (state_of (check_fill 0 100 100 100 oco_engine))
                (state_of (execute_fill 0 100 1
                   (state_of (check_fill 0 100 100 100 oco_engine))))
                eq_refl eq_refl eq_refl eq_refl eq_refl
                ltac:(vm_compute; reflexivity) ltac:(vm_compute; reflexivity))
      as (_ & _ & Hc & _).
    apply Hc.
    + vm_compute. right. left.
    + vm_compute. reflexivity.
    + reflexivity.
    + reflexivity.
  - assert (Hpl : pending_listed oco_engine).
    { intros r o Ho _. destruct r as [|[|r]].
      - apply list_elem_of_In. vm_compute. left. reflexivity.
      - apply list_elem_of_In. vm_compute. right. left. reflexivity.
      - vm_compute in Ho. discriminate Ho. }
    destruct (Hrun [oco_bar] (fun _ _ => []) oco_engine 0%nat 1%nat oco_buy oco_sell Hpl
                ltac:(discriminate) eq_refl eq_refl eq_refl eq_refl eq_refl eq_refl)
      as [_ Hok].
    apply Hok. vm_compute. reflexivity.
Defined.

(** ** Instances of the further properties on concrete engines *)

Lemma check_fill_limit_witness :
  check_fill 0 101 102 99 limit_engine = Ok (Some (Qmin 101 100)) limit_engine.
Proof.
  destruct (check_fill_limit limit_engine 0 limit_order 100 101 102 99
              eq_refl eq_refl eq_refl) as [HL _].
  apply (proj1 (HL eq_refl)). apply Qle_bool_iff. reflexivity.
Defined.

Lemma check_fill_market_witness :
  check_fill 0 100 106 99 equity_engine = Ok (Some 100) equity_engine.
Proof.
  destruct (check_fill_market equity_engine 0
              (Order.make "s" "X" LONG MARKET 1 None None "E") 100 106 99
              eq_refl eq_refl) as [H _].
  apply H. reflexivity.
Defined.

Lemma check_fill_unfillable_witness :
  check_fill 0 100 100 100 flat_engine = Ok None flat_engine.
Proof.
  destruct (check_fill_unfillable flat_engine 0 flat_order 100 100 100 eq_refl)
    as (_ & H & _).
  apply H; [left; reflexivity|reflexivity].
Defined.

Lemma execute_fill_open_witness :
  exists t, (state_of (execute_fill 0 100 1 limit_engine)).(fill_history) = [t] /\
    t.(Trade.qty) = 2 /\ t.(Trade.pnl) = 0.
Proof.
  pose proof (execute_fill_open limit_engine 0 limit_order limit_asset 100 1
                eq_refl eq_refl ltac:(reflexivity)) as H.
  cbv zeta in H. destruct H as [HL _].
  destruct (HL eq_refl ltac:(apply Qle_bool_iff; reflexivity))
    as (t & Hh & _ & Hq & _ & _ & Hp & _).
  exists t. split; [exact Hh|split; [exact Hq|exact Hp]].
Defined.

Lemma execute_fill_reduce_witness :
  dict_get "X" (state_of (execute_fill 0 100 1 reduce_engine)).(portfolio) =
    Some (AssetVars.set_qty (2 - 1) reduce_asset).
Proof.
  pose proof (execute_fill_reduce reduce_engine 0
                (Order.make "s" "X" SHORT MARKET 1 None None "R") reduce_asset 100 1
                eq_refl eq_refl ltac:(reflexivity)) as H.
  cbv zeta in H. destruct H as [HS _].
  destruct (HS eq_refl ltac:(reflexivity) ltac:(apply Qle_bool_iff; reflexivity))
    as (t & _ & _ & _ & _ & H4).
  apply H4. apply Qle_bool_iff. reflexivity.
Defined.

Lemma execute_fill_outcome_witness :
  exists kids,
    (state_of (execute_fill 0 100 1 bracket_engine)).(orders) =
      <[0%nat:=Order.set_filled 1 100 bracket_parent]> bracket_engine.(orders) ++ kids /\
    (length kids <= 2)%nat.
Proof.
  destruct (execute_fill_outcome 0 100 1 bracket_engine
              (state_of (execute_fill 0 100 1 bracket_engine))
              ltac:(vm_compute; reflexivity))
    as (o & nt & st1 & kids & Ho & _ & _ & _ & _ & Hor & _ & Hl & _).
  change (Some bracket_parent = Some o) in Ho. injection Ho as <-.
  exists kids. split; [exact Hor|exact Hl].
Defined.

Lemma execute_fill_brackets_witness :
  exists c, (state_of (execute_fill 0 100 1 bracket_engine)).(orders) !! 1%nat = Some c /\
    c.(Order.order_type) = STOP /\ c.(Order.side) = SHORT.
Proof.
  pose proof (execute_fill_brackets 0 bracket_parent 100 1 bracket_engine
                (state_of (execute_fill 0 100 1 bracket_engine))
                eq_refl ltac:(vm_compute; reflexivity)) as H.
  cbv zeta in H. destruct H as [Hs _].
  destruct (Hs eq_refl) as (c & Hc & _ & Hk & Hsd & _).
  exists c. split; [exact Hc|split; [exact Hk|exact Hsd]].
Defined.

Lemma execute_fill_flat_witness :
  (state_of (execute_fill 0 100 1 flat_engine)).(fill_history) = [] /\
  (state_of (execute_fill 0 100 1 flat_engine)).(balance) = 10000.
Proof.
  pose proof (execute_fill_flat flat_engine 0 flat_order (AssetVars.make "X") 100 1
                eq_refl eq_refl eq_refl) as H.
  cbv zeta in H. destruct H as (Hb & _ & Hf & _).
  split; [exact Hf|exact Hb].
Defined.

Lemma execute_fill_unregistered_witness :
  execute_fill 0 100 1 unregistered_engine = Raise KeyError unregistered_engine.
Proof.
  exact (execute_fill_unregistered unregistered_engine 0
           (Order.make "s" "Y" LONG MARKET 1 None None "U") 100 1 eq_refl eq_refl).
Defined.

Lemma register_asset_spec_witness :
  register_asset (AssetVars.make "Y") limit_engine =
    Ok tt (set_portfolio (limit_engine.(portfolio) ++ [("Y"%string, AssetVars.make "Y")])
             limit_engine).
Proof.
  destruct (register_asset_spec limit_engine (AssetVars.make "Y")) as [_ H].
  exact (H eq_refl).
Defined.

Lemma flatten_spec_witness :
  exists st', flatten 5 None flip_engine = Ok tt st' /\
    st'.(balance) = flip_engine.(balance) /\
    st'.(fill_history) = flip_engine.(fill_history).
Proof.
  pose proof (flatten_spec 5 None flip_engine
                ltac:(apply List.Forall_cons; [eexists; reflexivity|apply List.Forall_nil])) as H.
  cbv zeta in H.
  destruct H as (st' & cs & Hf & _ & _ & _ & _ & _ & Hb & _ & Hh).
  exists st'. split; [exact Hf|split; [exact Hb|exact Hh]].
Defined.

Lemma flatten_order_fill_flat_witness :
  dict_get "X" (state_of (execute_fill 0 110 1 close_engine)).(portfolio) =
    Some (AssetVars.set_position 0 0 close_asset).
Proof.
  pose proof (flatten_order_fill_flat close_engine 0
                (Order.make "flatten" "X" SHORT MARKET 1 None None "C") close_asset 110 1
                eq_refl eq_refl) as H.
  cbv zeta in H.
  destruct (H ltac:(apply Qle_bool_iff; reflexivity) (fun _ => eq_refl)
              ltac:(intros Hn; vm_compute in Hn; discriminate Hn) eq_refl) as [Hp _].
  exact Hp.
Defined.

Lemma process_bar_open_pending_witness :
  exists o, (state_of (process_bar (Bar.mk 1 "X" 102 103 101 102) limit_engine)).(orders)
              !! 0%nat = Some o /\ o.(Order.status) = PENDING.
Proof.
  apply (process_bar_open_pending (Bar.mk 1 "X" 102 103 101 102) limit_engine
           (state_of (process_bar (Bar.mk 1 "X" 102 103 101 102) limit_engine))
           ltac:(vm_compute; reflexivity)).
  apply list_elem_of_In. vm_compute. left. reflexivity.
Defined.

Lemma process_bar_marks_symbol_witness :
  exists a, dict_get "X" (state_of (process_bar equity_bar equity_engine)).(portfolio) = Some a /\
    a.(AssetVars.last_price) = 105.
Proof.
  exact (process_bar_marks_symbol equity_bar equity_engine
           (state_of (process_bar equity_bar equity_engine))
           ltac:(vm_compute; reflexivity)).
Defined.

Lemma round_trip_cash_witness :
  exists tr1 tr2,
    (state_of (execute_fill 1 110 2 (state_of (execute_fill 0 100 1 rt_engine)))).(fill_history)
      = [tr1; tr2] /\
    tr2.(Trade.pnl) == (110 - 100) * 1.
Proof.
  pose proof (round_trip_cash rt_engine 0 1 rt_buy rt_sell (AssetVars.make "X") 100 110 1 2
                eq_refl eq_refl ltac:(discriminate) eq_refl eq_refl eq_refl eq_refl eq_refl
                eq_refl ltac:(reflexivity)) as H.
  cbv zeta in H. destruct H as (tr1 & tr2 & a2 & Hh & _ & _ & _ & _ & Hp & _).
  exists tr1, tr2. split; [exact Hh|exact Hp].
Defined.

Lemma run_final_orders_witness :
  (state_of (run oco_bars oco_strategy (state_of (execute_fill 0 100 1 limit_engine)))).(orders)
    !! 0%nat = Some (Order.set_filled 1 100 limit_order).
Proof.
  apply run_final_orders.
  - vm_compute. reflexivity.
  - intros Hn. vm_compute in Hn. discriminate Hn.
Defined.

